(** * avr-vad: the speech/silence decision engine of SileroVAD and AudioUtils

    A shallow embedding of [src/silero-vad.ts], of the revision of the same
    class that carries the energy fallback, of [src/types.ts], of
    [createFrames], [resample], [normalize] and [bufferToFloat32Array] from
    [src/audio-utils.ts] and of [processWavFile] from [src/index.ts].

    Conventions of the embedding.
    - A JavaScript [number] that holds a sample, a probability, a duration or
      a timestamp is an exact rational [Q]; sample counts, sample rates and
      frame indices are integers [Z].  Rounding of IEEE doubles and NaN are
      outside this model.  Where a property of the segment filter depends
      on the rounded result of a subtraction of doubles, the subtraction is
      a parameter ([extractSpeechSegmentsWith]).
    - A [Float32Array] is a [list Q] (its length never changes once built).
    - A thrown exception is the [Throw] constructor of [result].
    - The ONNX inference session is an external capability: a function of the
      number of earlier [run] calls and of the feeds, returning [None] when
      the call throws.
    - [Math.sqrt] is a parameter of the energy heuristic. *)

From Stdlib Require Import String ZArith QArith Qround Qminmax Qabs List Bool Lia Lqa.
Import ListNotations.

Local Open Scope Z_scope.

(** ** Results of fallible operations *)

Inductive error : Type :=
| SampleRateError            (* 'Sample rate must be 8000 or 16000 Hz' *)
| ThresholdError             (* 'Threshold must be between 0 and 1' *)
| NotInitialized             (* 'VAD not initialized. Call initialize() first.' *)
| FrameSizeError (expected got : Z)  (* 'Audio frame size must be ..., got ...' *)
| ProcessingError            (* 'Error processing audio frame: ...' *)
| InitializeError            (* 'Failed to initialize Silero VAD: ...' *)
| TypeError                  (* property read on undefined *)
| RangeError.                (* typed-array offset out of bounds *)

Inductive result (A : Type) : Type :=
| Ok (a : A)
| Throw (e : error).
Arguments Ok {A} a.
Arguments Throw {A} e.

(** Lines written to the console. *)
Inductive console_line : Type :=
| WarnFrameSize (got : Z)    (* 'Frame size should be 1536 ..., got N. Setting to 1536.' *)
| LogModelLoaded             (* 'Silero VAD model loaded successfully' *)
| LogModelTestOk             (* 'ONNX model test successful' *)
| WarnModelTestFailed        (* 'ONNX model test failed:' *)
| WarnInitFailed             (* 'Failed to initialize Silero VAD ONNX model: ...' *)
| WarnFallingBack            (* 'Falling back to energy-based VAD...' *)
| WarnInferenceFailed.       (* 'ONNX inference failed, falling back to energy-based VAD:' *)

(** ** Typed arrays *)

Module TypedArray.

(** [new Float32Array(n)]: [n] zeros. *)
Definition zeros (n : Z) : list Q := repeat 0%Q (Z.to_nat n).

(** [a.fill(0)]. *)
Definition fill0 (a : list Q) : list Q := repeat 0%Q (length a).

(** [a.slice(start, stop)]: negative indices count from the end, both
    indices are clamped to the array. *)
Definition slice {A : Type} (a : list A) (start stop : Z) : list A :=
  let len := Z.of_nat (length a) in
  let k := if start <? 0 then Z.max (len + start) 0 else Z.min start len in
  let final := if stop <? 0 then Z.max (len + stop) 0 else Z.min stop len in
  firstn (Z.to_nat (final - k)) (skipn (Z.to_nat k) a).

(** [a.set(src)]: copies [src] over the front of [a]; a source longer than
    the target throws a RangeError before anything is written. *)
Definition set (a src : list Q) : result (list Q) :=
  if (length a <? length src)%nat then Throw RangeError
  else Ok (src ++ skipn (length src) a).

End TypedArray.

(** ** src/types.ts *)

Record VADOptions : Type := mkVADOptions {
  opt_sampleRate : option Z;
  opt_frameSize : option Z;
  opt_threshold : option Q;
  opt_minSpeechDurationMs : option Q;
  opt_maxSilenceDurationMs : option Q;
  opt_modelPath : option string
}.

(** [Required<VADOptions>] *)
Record RequiredVADOptions : Type := mkRequired {
  sampleRate : Z;
  frameSize : Z;
  threshold : Q;
  minSpeechDurationMs : Q;
  maxSilenceDurationMs : Q;
  modelPath : string
}.

Record VADResult : Type := mkVADResult {
  probability : Q;
  isSpeech : bool;
  frame : Z;
  timestamp : Q
}.

Record AudioSegment : Type := mkAudioSegment {
  seg_start : Q;
  seg_end : Q;
  audioData : list Q;
  confidence : Q
}.

Record VADState : Type := mkVADState {
  currentFrame : Z;
  speechActive : bool;
  speechStart : option Q;
  silenceDuration : Q;
  speechDuration : Q
}.

(** ** The inference backend (onnxruntime-node), external *)

Record RunOutput : Type := mkRunOutput {
  output : Q;                     (* results.output.data[0] *)
  stateN : option (list Q)        (* results.stateN, when the model returns it *)
}.

(** [session.run(feeds)]: the first argument is the number of [run] calls made
    before this one, so that a backend may fail on some calls only. *)
Definition InferenceSession : Type :=
  nat -> list Q -> list Q -> Z -> option RunOutput.

(** ** Parts of SileroVAD common to both revisions of silero-vad.ts *)

Definition initialState : VADState :=
  {| currentFrame := 0; speechActive := false; speechStart := None;
     silenceDuration := 0%Q; speechDuration := 0%Q |}.

Definition defaultOptions : RequiredVADOptions :=
  {| sampleRate := 16000; frameSize := 1536; threshold := 0.5%Q;
     minSpeechDurationMs := 250%Q; maxSilenceDurationMs := 2000%Q;
     modelPath := ""%string |}.

Definition orDefault {A : Type} (o : option A) (d : A) : A :=
  match o with Some a => a | None => d end.

(** [{ ...defaults, ...options }] *)
Definition mergeOptions (o : VADOptions) : RequiredVADOptions :=
  {| sampleRate := orDefault (opt_sampleRate o) (sampleRate defaultOptions);
     frameSize := orDefault (opt_frameSize o) (frameSize defaultOptions);
     threshold := orDefault (opt_threshold o) (threshold defaultOptions);
     minSpeechDurationMs :=
       orDefault (opt_minSpeechDurationMs o) (minSpeechDurationMs defaultOptions);
     maxSilenceDurationMs :=
       orDefault (opt_maxSilenceDurationMs o) (maxSilenceDurationMs defaultOptions);
     modelPath := orDefault (opt_modelPath o) (modelPath defaultOptions) |}.

Definition setFrameSize (o : RequiredVADOptions) (n : Z) : RequiredVADOptions :=
  {| sampleRate := sampleRate o; frameSize := n; threshold := threshold o;
     minSpeechDurationMs := minSpeechDurationMs o;
     maxSilenceDurationMs := maxSilenceDurationMs o;
     modelPath := modelPath o |}.

(** [a >= b] and [a < b] on numbers. *)
Definition geq (a b : Q) : bool := Qle_bool b a.
Definition less (a b : Q) : bool := negb (Qle_bool b a).

(** [validateOptions]: returns the options as it leaves them together with
    what it wrote to the console, or throws. *)
Definition validateOptions (o : RequiredVADOptions)
  : result (RequiredVADOptions * list console_line) :=
  if negb ((sampleRate o =? 8000) || (sampleRate o =? 16000)) then
    Throw SampleRateError
  else
    let '(o1, out) :=
      if negb (frameSize o =? 1536)
      then (setFrameSize o 1536, [WarnFrameSize (frameSize o)])
      else (o, []) in
    if less (threshold o) 0%Q || less 1%Q (threshold o) then
      Throw ThresholdError
    else Ok (o1, out).

(** [(frameSize / sampleRate) * 1000] *)
Definition frameDurationMs (o : RequiredVADOptions) : Q :=
  ((inject_Z (frameSize o) / inject_Z (sampleRate o)) * 1000)%Q.

Definition setSpeech (st : VADState) (active : bool) (start : option Q) : VADState :=
  {| currentFrame := currentFrame st; speechActive := active; speechStart := start;
     silenceDuration := silenceDuration st; speechDuration := speechDuration st |}.

Definition setSpeechDuration (st : VADState) (d : Q) : VADState :=
  {| currentFrame := currentFrame st; speechActive := speechActive st;
     speechStart := speechStart st;
     silenceDuration := silenceDuration st; speechDuration := d |}.

Definition setSilenceDuration (st : VADState) (d : Q) : VADState :=
  {| currentFrame := currentFrame st; speechActive := speechActive st;
     speechStart := speechStart st;
     silenceDuration := d; speechDuration := speechDuration st |}.

Definition setCurrentFrame (st : VADState) (n : Z) : VADState :=
  {| currentFrame := n; speechActive := speechActive st;
     speechStart := speechStart st;
     silenceDuration := silenceDuration st; speechDuration := speechDuration st |}.

(** [updateState(isSpeech, timestamp)] *)
Definition updateState (o : RequiredVADOptions) (st : VADState)
    (isSpeech : bool) (timestamp : Q) : VADState :=
  let fd := frameDurationMs o in
  if isSpeech then
    let st1 :=
      if negb (speechActive st)
      then setSpeechDuration (setSpeech st true (Some timestamp)) 0%Q
      else st in
    let st2 := setSpeechDuration st1 (speechDuration st1 + fd)%Q in
    setSilenceDuration st2 0%Q
  else
    if speechActive st then
      let st1 := setSilenceDuration st (silenceDuration st + fd)%Q in
      if geq (silenceDuration st1) (maxSilenceDurationMs o)
      then setSpeech st1 false None
      else st1
    else st.

(** [currentFrame * (frameSize / sampleRate) * 1000], taken exactly.  The code
    rounds after each operation, so that for some frames its timestamp
    differs from this one in the last place. *)
Definition timestampOf (o : RequiredVADOptions) (st : VADState) : Q :=
  ((inject_Z (currentFrame st)
    * (inject_Z (frameSize o) / inject_Z (sampleRate o))) * 1000)%Q.

(** The tail of [processFrame] once a probability is known: timestamp,
    threshold test, [updateState], the result record, [currentFrame++]. *)
Definition decide (o : RequiredVADOptions) (st : VADState) (p : Q)
  : VADResult * VADState :=
  let ts := timestampOf o st in
  let speech := geq p (threshold o) in
  let st1 := updateState o st speech ts in
  ({| probability := p; isSpeech := speech;
      frame := currentFrame st1; timestamp := ts |},
   setCurrentFrame st1 (currentFrame st1 + 1)).

(** *** [extractSpeechSegments] *)

(** The three variables of the scan: [segments], [segmentStart],
    [speechFrames]. *)
Record Scan : Type := mkScan {
  segments : list AudioSegment;
  segmentStart : option Q;
  speechFrames : list Z
}.

Definition scan0 : Scan :=
  {| segments := []; segmentStart := None; speechFrames := [] |}.

(** [vadResults[i]]: [None] stands for [undefined]. *)
Definition lookup (vadResults : list VADResult) (i : Z) : option VADResult :=
  if i <? 0 then None else nth_error vadResults (Z.to_nat i).

(** [speechFrames.reduce((sum, frame) => sum + vadResults[frame].probability, 0)]:
    reading [.probability] of [undefined] throws. *)
Fixpoint reduceProbability (vadResults : list VADResult) (frames : list Z)
    (sum : Q) : result Q :=
  match frames with
  | [] => Ok sum
  | f :: rest =>
      match lookup vadResults f with
      | None => Throw TypeError
      | Some r => reduceProbability vadResults rest (sum + probability r)%Q
      end
  end.

Definition confidenceOf (vadResults : list VADResult) (frames : list Z)
  : result Q :=
  match reduceProbability vadResults frames 0%Q with
  | Throw e => Throw e
  | Ok sum => Ok (sum / inject_Z (Z.of_nat (length frames)))%Q
  end.

(** [Math.floor((ms / 1000) * sampleRate)], the product taken exactly; the
    code floors the rounded product. *)
Definition sampleAt (o : RequiredVADOptions) (ms : Q) : Z :=
  Qfloor ((ms / 1000) * inject_Z (sampleRate o))%Q.

(** The segment pushed for a kept run. *)
Definition segmentOf (o : RequiredVADOptions) (audio : list Q)
    (segmentStart segmentEnd conf : Q) : AudioSegment :=
  {| seg_start := segmentStart; seg_end := segmentEnd;
     audioData := TypedArray.slice audio (sampleAt o segmentStart)
                                   (sampleAt o segmentEnd);
     confidence := conf |}.

(** One iteration of the [for (const result of vadResults)] loop. *)
Definition scanStep (o : RequiredVADOptions) (vadResults : list VADResult)
    (audio : list Q) (sc : Scan) (r : VADResult) : result Scan :=
  if isSpeech r then
    Ok {| segments := segments sc;
          segmentStart := match segmentStart sc with
                          | None => Some (timestamp r)
                          | Some s => Some s
                          end;
          speechFrames := speechFrames sc ++ [frame r] |}
  else
    match segmentStart sc with
    | Some start =>
        if (0 <? length (speechFrames sc))%nat then
          let segmentEnd := timestamp r in
          let duration := (segmentEnd - start)%Q in
          if geq duration (minSpeechDurationMs o) then
            match confidenceOf vadResults (speechFrames sc) with
            | Throw e => Throw e
            | Ok conf =>
                Ok {| segments :=
                        segments sc ++ [segmentOf o audio start segmentEnd conf];
                      segmentStart := None; speechFrames := [] |}
            end
          else
            Ok {| segments := segments sc;
                  segmentStart := None; speechFrames := [] |}
        else Ok sc
    | None => Ok sc
    end.

Fixpoint scanLoop (o : RequiredVADOptions) (vadResults : list VADResult)
    (audio : list Q) (rest : list VADResult) (sc : Scan) : result Scan :=
  match rest with
  | [] => Ok sc
  | r :: rest' =>
      match scanStep o vadResults audio sc r with
      | Throw e => Throw e
      | Ok sc' => scanLoop o vadResults audio rest' sc'
      end
  end.

Definition extractSpeechSegments (o : RequiredVADOptions)
    (vadResults : list VADResult) (audio : list Q)
  : result (list AudioSegment) :=
  match scanLoop o vadResults audio vadResults scan0 with
  | Throw e => Throw e
  | Ok sc => Ok (segments sc)
  end.

(** *** [extractSpeechSegments], the subtraction of doubles left open

    [const duration = segmentEnd - segmentStart] subtracts two doubles, and
    the result of a subtraction of doubles is rounded: it need not be the
    exact difference that [scanStep] takes.  Here the subtraction is the
    parameter [minus], about which nothing is assumed; the comparison
    [duration >= minSpeechDurationMs] rounds nothing.  With the exact
    subtraction for [minus] these are [scanStep], [scanLoop] and
    [extractSpeechSegments] again. *)

Section Subtraction.

Variable minus : Q -> Q -> Q.

Definition scanStepWith (o : RequiredVADOptions) (vadResults : list VADResult)
    (audio : list Q) (sc : Scan) (r : VADResult) : result Scan :=
  if isSpeech r then
    Ok {| segments := segments sc;
          segmentStart := match segmentStart sc with
                          | None => Some (timestamp r)
                          | Some s => Some s
                          end;
          speechFrames := speechFrames sc ++ [frame r] |}
  else
    match segmentStart sc with
    | Some start =>
        if (0 <? length (speechFrames sc))%nat then
          let segmentEnd := timestamp r in
          let duration := minus segmentEnd start in
          if geq duration (minSpeechDurationMs o) then
            match confidenceOf vadResults (speechFrames sc) with
            | Throw e => Throw e
            | Ok conf =>
                Ok {| segments :=
                        segments sc ++ [segmentOf o audio start segmentEnd conf];
                      segmentStart := None; speechFrames := [] |}
            end
          else
            Ok {| segments := segments sc;
                  segmentStart := None; speechFrames := [] |}
        else Ok sc
    | None => Ok sc
    end.

Fixpoint scanLoopWith (o : RequiredVADOptions) (vadResults : list VADResult)
    (audio : list Q) (rest : list VADResult) (sc : Scan) : result Scan :=
  match rest with
  | [] => Ok sc
  | r :: rest' =>
      match scanStepWith o vadResults audio sc r with
      | Throw e => Throw e
      | Ok sc' => scanLoopWith o vadResults audio rest' sc'
      end
  end.

Definition extractSpeechSegmentsWith (o : RequiredVADOptions)
    (vadResults : list VADResult) (audio : list Q)
  : result (list AudioSegment) :=
  match scanLoopWith o vadResults audio vadResults scan0 with
  | Throw e => Throw e
  | Ok sc => Ok (segments sc)
  end.

End Subtraction.

(** *** [processAudio], over the [processFrame] of either revision *)

Section ProcessAudio.

Context {T : Type}.
Variable processFrame : T -> list Q -> result VADResult * T.

(** The body of the [for (let i = 0; i < audioData.length; i += frameSize)]
    loop.  [None] is a loop that does not end. *)
Fixpoint processAudioLoop (fuel : nat) (frameSize : Z) (audio : list Q)
    (v : T) (i : Z) (results : list VADResult)
  : option (result (list VADResult) * T) :=
  match fuel with
  | O => None
  | S fuel' =>
      if i <? Z.of_nat (length audio) then
        let frame := TypedArray.slice audio i (i + frameSize) in
        if Z.of_nat (length frame) <? frameSize then
          match TypedArray.set (TypedArray.zeros frameSize) frame with
          | Throw e => Some (Throw e, v)
          | Ok paddedFrame =>
              match processFrame v paddedFrame with
              | (Throw e, v') => Some (Throw e, v')
              | (Ok r, v') =>
                  processAudioLoop fuel' frameSize audio v'
                                   (i + frameSize) (results ++ [r])
              end
          end
        else
          match processFrame v frame with
          | (Throw e, v') => Some (Throw e, v')
          | (Ok r, v') =>
              processAudioLoop fuel' frameSize audio v'
                               (i + frameSize) (results ++ [r])
          end
      else Some (Ok results, v)
  end.

Definition processAudioWith (frameSize : Z) (v : T) (audio : list Q)
  : option (result (list VADResult) * T) :=
  processAudioLoop (S (length audio)) frameSize audio v 0 [].

End ProcessAudio.

(** ** src/silero-vad.ts *)

Module SileroVAD.

(** The object.  [runs] and [console] are not fields of the class: they
    record how many times [session.run] was called and what was written to
    the console. *)
Record t : Type := mk {
  session : option InferenceSession;
  options : RequiredVADOptions;
  state : VADState;
  h : list Q;
  c : list Q;
  runs : nat;
  console : list console_line
}.

Definition constructor (o : VADOptions) : result t :=
  match validateOptions (mergeOptions o) with
  | Throw e => Throw e
  | Ok (o', out) =>
      Ok {| session := None; options := o'; state := initialState;
            h := TypedArray.fill0 (TypedArray.zeros (2 * 1 * 128));
            c := TypedArray.fill0 (TypedArray.zeros (2 * 1 * 128));
            runs := 0; console := out |}
  end.

(** [initialize()]: [loaded] is what [ModelManager] and
    [InferenceSession.create] deliver, [None] when any of them throws. *)
Definition initialize (v : t) (loaded : option InferenceSession)
  : result unit * t :=
  match loaded with
  | None => (Throw InitializeError, v)
  | Some s =>
      (Ok tt,
       {| session := Some s; options := options v; state := state v;
          h := h v; c := c v; runs := 0;
          console := console v ++ [LogModelLoaded] |})
  end.

Definition processFrame (v : t) (audioFrame : list Q) : result VADResult * t :=
  match session v with
  | None => (Throw NotInitialized, v)
  | Some run =>
      if negb (Z.of_nat (length audioFrame) =? frameSize (options v)) then
        (Throw (FrameSizeError (frameSize (options v))
                               (Z.of_nat (length audioFrame))), v)
      else
        let called :=
          {| session := session v; options := options v; state := state v;
             h := h v; c := c v; runs := S (runs v); console := console v |} in
        match run (runs v) audioFrame (h v) (sampleRate (options v)) with
        | None => (Throw ProcessingError, called)
        | Some results =>
            let newH :=
              match stateN results with
              | Some newState => TypedArray.set (h v) newState
              | None => Ok (h v)
              end in
            match newH with
            | Throw _ => (Throw ProcessingError, called)
            | Ok h' =>
                let '(result, st) :=
                  decide (options v) (state v) (output results) in
                (Ok result,
                 {| session := session v; options := options v; state := st;
                    h := h'; c := c v; runs := S (runs v);
                    console := console v |})
            end
        end
  end.

Definition processAudio (v : t) (audio : list Q)
  : option (result (list VADResult) * t) :=
  processAudioWith processFrame (frameSize (options v)) v audio.

Definition reset (v : t) : t :=
  {| session := session v; options := options v; state := initialState;
     h := TypedArray.fill0 (h v); c := TypedArray.fill0 (c v);
     runs := runs v; console := console v |}.

Definition getState (v : t) : VADState := state v.

Definition getOptions (v : t) : RequiredVADOptions := options v.

Definition dispose (v : t) : t :=
  {| session := None; options := options v; state := state v;
     h := h v; c := c v; runs := runs v; console := console v |}.

End SileroVAD.

(** ** The revision of silero-vad.ts with the energy fallback

    This revision of the class travels with [package.json] in the source
    tree.  [validateOptions], [updateState], [processAudio],
    [extractSpeechSegments], [reset], [getState] and [dispose] read the same
    as in [src/silero-vad.ts]; [initialize] and [processFrame] differ, and
    [testModel], [energyBasedVAD] and the field [useOnnxModel] are new. *)

Module SileroVADFallback.

Record t : Type := mk {
  session : option InferenceSession;
  options : RequiredVADOptions;
  state : VADState;
  h : list Q;
  c : list Q;
  useOnnxModel : bool;
  runs : nat;
  console : list console_line
}.

Definition constructor (o : VADOptions) : result t :=
  match validateOptions (mergeOptions o) with
  | Throw e => Throw e
  | Ok (o', out) =>
      Ok {| session := None; options := o'; state := initialState;
            h := TypedArray.fill0 (TypedArray.zeros (2 * 1 * 128));
            c := TypedArray.fill0 (TypedArray.zeros (2 * 1 * 128));
            useOnnxModel := true; runs := 0; console := out |}
  end.

(** [initialize()] with [testModel()] inlined: a failure to load or a failed
    dummy inference turns [useOnnxModel] off and throws nothing. *)
Definition initialize (v : t) (loaded : option InferenceSession) : t :=
  match loaded with
  | None =>
      {| session := session v; options := options v; state := state v;
         h := h v; c := c v; useOnnxModel := false; runs := runs v;
         console := console v ++ [WarnInitFailed; WarnFallingBack] |}
  | Some run =>
      let dummyAudio := TypedArray.fill0 (TypedArray.zeros (frameSize (options v))) in
      match run 0%nat dummyAudio (h v) (sampleRate (options v)) with
      | Some _ =>
          {| session := Some run; options := options v; state := state v;
             h := h v; c := c v; useOnnxModel := useOnnxModel v; runs := 1;
             console := console v ++ [LogModelLoaded; LogModelTestOk] |}
      | None =>
          {| session := Some run; options := options v; state := state v;
             h := h v; c := c v; useOnnxModel := false; runs := 1;
             console := console v ++ [LogModelLoaded; WarnModelTestFailed;
                                       WarnInitFailed; WarnFallingBack] |}
      end
  end.

Section Energy.

(** [Math.sqrt] *)
Variable sqrt : Q -> Q.

(** [energyBasedVAD(audioFrame)].  For an empty frame the code divides 0 by
    0 and returns NaN; the quotient is 0 here. *)
Definition energyBasedVAD (audioFrame : list Q) : Q :=
  let sum := fold_left (fun s x => s + x * x)%Q audioFrame 0%Q in
  let rms := sqrt (sum / inject_Z (Z.of_nat (length audioFrame)))%Q in
  let minEnergy := 0.001%Q in
  let maxEnergy := 0.1%Q in
  let normalizedEnergy := ((rms - minEnergy) / (maxEnergy - minEnergy))%Q in
  Qmax 0 (Qmin 1 normalizedEnergy).

(** The first half of [processFrame]: the probability, and the object as
    the attempt leaves it. *)
Definition probabilityOf (v : t) (audioFrame : list Q) : Q * t :=
  match useOnnxModel v, session v with
  | true, Some run =>
      let failed :=
        (energyBasedVAD audioFrame,
         {| session := session v; options := options v; state := state v;
            h := h v; c := c v; useOnnxModel := false; runs := S (runs v);
            console := console v ++ [WarnInferenceFailed] |}) in
      match run (runs v) audioFrame (h v) (sampleRate (options v)) with
      | None => failed
      | Some results =>
          let newH :=
            match stateN results with
            | Some newState => TypedArray.set (h v) newState
            | None => Ok (h v)
            end in
          match newH with
          | Throw _ => failed
          | Ok h' =>
              (output results,
               {| session := session v; options := options v;
                  state := state v; h := h'; c := c v;
                  useOnnxModel := useOnnxModel v; runs := S (runs v);
                  console := console v |})
          end
      end
  | _, _ => (energyBasedVAD audioFrame, v)
  end.

Definition processFrame (v : t) (audioFrame : list Q)
  : result VADResult * t :=
  if negb (Z.of_nat (length audioFrame) =? frameSize (options v)) then
    (Throw (FrameSizeError (frameSize (options v))
                           (Z.of_nat (length audioFrame))), v)
  else
    let '(p, v1) := probabilityOf v audioFrame in
    let '(result, st) := decide (options v1) (state v1) p in
    (Ok result,
     {| session := session v1; options := options v1; state := st;
        h := h v1; c := c v1; useOnnxModel := useOnnxModel v1;
        runs := runs v1; console := console v1 |}).

Definition processAudio (v : t) (audio : list Q)
  : option (result (list VADResult) * t) :=
  processAudioWith processFrame (frameSize (options v)) v audio.

End Energy.

Definition reset (v : t) : t :=
  {| session := session v; options := options v; state := initialState;
     h := TypedArray.fill0 (h v); c := TypedArray.fill0 (c v);
     useOnnxModel := useOnnxModel v; runs := runs v; console := console v |}.

Definition getState (v : t) : VADState := state v.

Definition dispose (v : t) : t :=
  {| session := None; options := options v; state := state v;
     h := h v; c := c v; useOnnxModel := useOnnxModel v;
     runs := runs v; console := console v |}.

End SileroVADFallback.

(** ** src/audio-utils.ts *)

Module AudioUtils.

(** The [for (let i = 0; i <= audioData.length - frameSize; i += hop)] loop
    of [createFrames].  [None] is a loop that does not end. *)
Fixpoint createFramesLoop (fuel : nat) (audio : list Q) (frameSize hop : Z)
    (i : Z) (frames : list (list Q)) : option (list (list Q)) :=
  match fuel with
  | O => None
  | S fuel' =>
      if i <=? Z.of_nat (length audio) - frameSize then
        createFramesLoop fuel' audio frameSize hop (i + hop)
          (frames ++ [TypedArray.slice audio i (i + frameSize)])
      else Some frames
  end.

(** [createFrames(audioData, frameSize, hopSize?)]; [hopSize || frameSize]
    takes [frameSize] when [hopSize] is absent or zero.  With a hop of at
    least one the loop makes at most [length - frameSize + 1] rounds, which
    the fuel covers; with a hop below one it either makes none or never
    ends. *)
Definition createFrames (audio : list Q) (frameSize : Z) (hopSize : option Z)
  : option (list (list Q)) :=
  let hop := match hopSize with
             | Some hp => if hp =? 0 then frameSize else hp
             | None => frameSize
             end in
  createFramesLoop
    (Z.to_nat (Z.of_nat (length audio) - frameSize) + 2)
    audio frameSize hop 0 [].

(** [audioData[i]] for an index [i]; [None] stands for [undefined]. *)
Definition item (audioData : list Q) (i : Z) : option Q :=
  if i <? 0 then None else nth_error audioData (Z.to_nat i).

(** A number stored into a [Float32Array].  Storing [undefined] stores NaN,
    which this model does not have: it is written 0 here, and
    [resampleIndex_in_bounds] shows that [resample] never stores it. *)
Definition stored (x : option Q) : Q :=
  match x with Some q => q | None => 0%Q end.

(** The body of the loop of [resample] for the output index [i]. *)
Definition resampleAt (audioData : list Q) (ratio : Q) (i : Z) : Q :=
  let sourceIndex := (inject_Z i * ratio)%Q in
  let index := Qfloor sourceIndex in
  let fraction := (sourceIndex - inject_Z index)%Q in
  if index + 1 <? Z.of_nat (length audioData) then
    (stored (item audioData index) * (1 - fraction)
     + stored (item audioData (index + 1)) * fraction)%Q
  else stored (item audioData index).

(** [resample(audioData, sourceSampleRate, targetSampleRate)].  Equal rates
    return the buffer itself.  The divisions by zero are written out as
    JavaScript computes them: a target rate of 0 makes the ratio infinite and
    the output empty; a source rate of 0 makes the ratio 0 and the output
    length infinite (a RangeError), or NaN, read as 0, for an empty buffer.
    A negative output length is a RangeError of [new Float32Array].  The
    quotients are taken exactly; the code floors the rounded quotient, so
    that its output can be one sample shorter. *)
Definition resample (audioData : list Q) (sourceSampleRate targetSampleRate : Q)
  : result (list Q) :=
  if Qeq_bool sourceSampleRate targetSampleRate then Ok audioData
  else if Qeq_bool targetSampleRate 0 then Ok []
  else if Qeq_bool sourceSampleRate 0 then
    match audioData with
    | [] => Ok []
    | _ :: _ => Throw RangeError
    end
  else
    let ratio := (sourceSampleRate / targetSampleRate)%Q in
    let outputLength :=
      Qfloor (inject_Z (Z.of_nat (length audioData)) / ratio)%Q in
    if outputLength <? 0 then Throw RangeError
    else
      Ok (map (fun i => resampleAt audioData ratio (Z.of_nat i))
              (seq 0 (Z.to_nat outputLength))).

(** The first loop of [normalize]: the largest absolute value. *)
Definition maxAbs (audioData : list Q) : Q :=
  fold_left (fun m x => Qmax m (Qabs x)) audioData 0%Q.

(** [normalize(audioData, targetPeak = 0.95)]: a buffer whose largest
    absolute value is 0 is returned itself.  The products are taken exactly;
    the code rounds each one to a float32 when it stores it. *)
Definition normalize (audioData : list Q) (targetPeak : option Q) : list Q :=
  let peak := orDefault targetPeak 0.95%Q in
  let m := maxAbs audioData in
  if Qeq_bool m 0 then audioData
  else
    let scale := (peak / m)%Q in
    map (fun x => x * scale)%Q audioData.

(** What [bufferToFloat32Array] throws: 'Unsupported bit depth: ...'. *)
Inductive formatError : Type :=
| UnsupportedBitDepth (bitDepth : Z).

(** The stereo branch of [bufferToFloat32Array]: [monoSamples[i]] is the mean
    of [samples[2 i]] and [samples[2 i + 1]], for [i] below
    [floor(samples.length / 2)]. *)
Fixpoint monoMix (samples : list Q) : list Q :=
  match samples with
  | l :: r :: rest => ((l + r) / 2)%Q :: monoMix rest
  | _ => []
  end.

(** [bufferToFloat32Array(buffer, format)] from the integers on: [ints] is
    what the [Int16Array] or [Int32Array] view over the buffer's bytes holds
    (how the bytes make up these integers is the platform's affair).  The
    integers are divided by 32768 or 2147483648, two channels are mixed down
    to one, and any other number of channels is returned interleaved. *)
Definition bufferToFloat32Array (ints : list Z) (bitDepth channels : Z)
  : formatError + list Q :=
  let normalized :=
    if bitDepth =? 16 then inr (map (fun n => inject_Z n / 32768)%Q ints)
    else if bitDepth =? 32 then inr (map (fun n => inject_Z n / 2147483648)%Q ints)
    else inl (UnsupportedBitDepth bitDepth) in
  match normalized with
  | inl e => inl e
  | inr samples =>
      if channels =? 2 then inr (monoMix samples) else inr samples
  end.

End AudioUtils.

(** * Definitions used by the statements *)

(** ** Sessions as sequences of calls *)

Module Session.

(** The calls a client makes on a [SileroVAD] object of src/silero-vad.ts. *)
Inductive call : Type :=
| Initialize (loaded : option InferenceSession)
| ProcessFrame (audioFrame : list Q)
| ProcessAudio (audio : list Q)
| Reset
| Dispose.

(** The object after one call, whatever the call returned or threw.  A
    [processAudio] that never returns leaves nothing to observe; the object
    is then taken as it was. *)
Definition perform (v : SileroVAD.t) (k : call) : SileroVAD.t :=
  match k with
  | Initialize loaded => snd (SileroVAD.initialize v loaded)
  | ProcessFrame f => snd (SileroVAD.processFrame v f)
  | ProcessAudio a =>
      match SileroVAD.processAudio v a with
      | Some (_, v') => v'
      | None => v
      end
  | Reset => SileroVAD.reset v
  | Dispose => SileroVAD.dispose v
  end.

Definition performAll (v : SileroVAD.t) (calls : list call) : SileroVAD.t :=
  fold_left perform calls v.

End Session.

Module FallbackSession.

Inductive call : Type :=
| Initialize (loaded : option InferenceSession)
| ProcessFrame (audioFrame : list Q)
| ProcessAudio (audio : list Q)
| Reset
| Dispose.

Section WithSqrt.

Variable sqrt : Q -> Q.

Definition perform (v : SileroVADFallback.t) (k : call)
  : SileroVADFallback.t :=
  match k with
  | Initialize loaded => SileroVADFallback.initialize v loaded
  | ProcessFrame f => snd (SileroVADFallback.processFrame sqrt v f)
  | ProcessAudio a =>
      match SileroVADFallback.processAudio sqrt v a with
      | Some (_, v') => v'
      | None => v
      end
  | Reset => SileroVADFallback.reset v
  | Dispose => SileroVADFallback.dispose v
  end.

Definition performAll (v : SileroVADFallback.t) (calls : list call)
  : SileroVADFallback.t :=
  fold_left perform calls v.

End WithSqrt.

End FallbackSession.

(** ** Activity states reachable by per-frame updates and resets *)

Inductive reachable : VADState -> Prop :=
| reach_initial : reachable initialState
| reach_update (o : RequiredVADOptions) (st : VADState) (speech : bool) (ts : Q) :
    reachable st -> reachable (updateState o st speech ts)
| reach_count (st : VADState) :
    reachable st -> reachable (setCurrentFrame st (currentFrame st + 1))
| reach_reset (st : VADState) :
    reachable st -> reachable initialState.

(** ** A run of consecutive non-speech frames *)

Fixpoint silentFrames (o : RequiredVADOptions) (st : VADState)
    (timestamps : list Q) : VADState :=
  match timestamps with
  | [] => st
  | ts :: rest => silentFrames o (updateState o st false ts) rest
  end.

(** The silence accumulated after [j] further silent frames. *)
Definition accumulated (o : RequiredVADOptions) (st : VADState) (j : nat) : Q :=
  (silenceDuration st + inject_Z (Z.of_nat j) * frameDurationMs o)%Q.

(** ** Concrete objects and inputs *)

Module Sample.

Definition constantBackend (p : Q) : InferenceSession :=
  fun _ _ _ _ => Some {| output := p; stateN := None |}.

Definition failingBackend : InferenceSession :=
  fun _ _ _ _ => None.

(** Fails on its call number [k] only (calls are counted from 0). *)
Definition failOnRun (k : nat) (p : Q) : InferenceSession :=
  fun n _ _ _ =>
    if (n =? k)%nat then None else Some {| output := p; stateN := None |}.

Definition options8k : RequiredVADOptions :=
  {| sampleRate := 8000; frameSize := 1536; threshold := 0.5%Q;
     minSpeechDurationMs := 250%Q; maxSilenceDurationMs := 2000%Q;
     modelPath := ""%string |}.

(** Options with a hangover of two frames (384 ms). *)
Definition optionsShort : RequiredVADOptions :=
  {| sampleRate := 8000; frameSize := 1536; threshold := 0.5%Q;
     minSpeechDurationMs := 384%Q; maxSilenceDurationMs := 384%Q;
     modelPath := ""%string |}.

(** What test-example.js passes: a frame size of 320. *)
Definition options320 : VADOptions :=
  {| opt_sampleRate := Some 8000; opt_frameSize := Some 320;
     opt_threshold := Some 0.5%Q;
     opt_minSpeechDurationMs := Some 250%Q;
     opt_maxSilenceDurationMs := Some 2000%Q;
     opt_modelPath := None |}.

Definition noOptions : VADOptions :=
  {| opt_sampleRate := None; opt_frameSize := None; opt_threshold := None;
     opt_minSpeechDurationMs := None; opt_maxSilenceDurationMs := None;
     opt_modelPath := None |}.

Definition zeros256 : list Q := TypedArray.zeros 256.

(** An object of src/silero-vad.ts as [initialize()] leaves it. *)
Definition vad (run : InferenceSession) : SileroVAD.t :=
  {| SileroVAD.session := Some run; SileroVAD.options := options8k;
     SileroVAD.state := initialState;
     SileroVAD.h := zeros256; SileroVAD.c := zeros256;
     SileroVAD.runs := 0; SileroVAD.console := [] |}.

(** An object of the revision with the fallback as [initialize()] leaves
    it: the model is loaded and has been run once, by [testModel]. *)
Definition vadFallback (run : InferenceSession) : SileroVADFallback.t :=
  {| SileroVADFallback.session := Some run;
     SileroVADFallback.options := options8k;
     SileroVADFallback.state := initialState;
     SileroVADFallback.h := zeros256; SileroVADFallback.c := zeros256;
     SileroVADFallback.useOnnxModel := true;
     SileroVADFallback.runs := 1; SileroVADFallback.console := [] |}.

(** A frame of 1536 zero samples. *)
Definition silence : list Q := TypedArray.zeros 1536.

(** A coarse stand-in for [Math.sqrt]. *)
Definition sqrtQ (x : Q) : Q :=
  (inject_Z (Z.sqrt (Qfloor (x * 1000000))) / 1000)%Q.

(** An active state: one speech frame seen at time 0. *)
Definition activeState : VADState :=
  updateState optionsShort initialState true 0%Q.

Definition decision (i : Z) (speech : bool) : VADResult :=
  {| probability := if speech then 0.9%Q else 0.1%Q; isSpeech := speech;
     frame := i; timestamp := (inject_Z i * 192)%Q |}.

End Sample.

Module SampleSession.

(** The object [new SileroVAD()] builds. *)
Definition fresh : SileroVAD.t :=
  {| SileroVAD.session := None; SileroVAD.options := defaultOptions;
     SileroVAD.state := initialState;
     SileroVAD.h := Sample.zeros256; SileroVAD.c := Sample.zeros256;
     SileroVAD.runs := 0; SileroVAD.console := [] |}.

(** Load a model that always answers 0.9, then process two frames. *)
Definition calls : list Session.call :=
  [Session.Initialize (Some (Sample.constantBackend 0.9));
   Session.ProcessFrame Sample.silence;
   Session.ProcessFrame Sample.silence].

End SampleSession.

(** ** Segment extraction as the specification words it *)



(** Every decision's [frame] is its position in the list. *)
Definition wellIndexed (vadResults : list VADResult) : Prop :=
  forall (i : nat) (r : VADResult),
    nth_error vadResults i = Some r -> frame r = Z.of_nat i.

(** The segments pushed once the loop over [vadResults] has consumed the
    decisions [consumed]. *)
Definition segmentsAfter (o : RequiredVADOptions) (vadResults : list VADResult)
    (audio : list Q) (consumed : list VADResult) : result (list AudioSegment) :=
  match scanLoop o vadResults audio consumed scan0 with
  | Throw e => Throw e
  | Ok sc => Ok (segments sc)
  end.

(** ** Closed runs as the specification words them *)

(** The start and the end of a segment. *)
Definition bounds (s : AudioSegment) : Q * Q := (seg_start s, seg_end s).

(** The closed runs of a decision sequence that are kept, each as the pair
    of its start and its end: a run opens at the timestamp of its first
    speech decision, is closed at the timestamp of the first non-speech
    decision after it, and is kept when the difference of the two, computed
    by [minus], is at least [minSpeechDurationMs].  [start] is the start of
    the run that is open, if one is. *)
Fixpoint keptRuns (minus : Q -> Q -> Q) (o : RequiredVADOptions)
    (rest : list VADResult) (start : option Q) : list (Q * Q) :=
  match rest with
  | [] => []
  | r :: rest' =>
      if isSpeech r then
        keptRuns minus o rest'
          (match start with Some s => Some s | None => Some (timestamp r) end)
      else
        match start with
        | None => keptRuns minus o rest' None
        | Some s =>
            if geq (minus (timestamp r) s) (minSpeechDurationMs o)
            then (s, timestamp r) :: keptRuns minus o rest' None
            else keptRuns minus o rest' None
        end
  end.

(** The frame index of every speech decision is an index of the list. *)
Definition speechFramesInRange (vadResults : list VADResult) : Prop :=
  Forall (fun r => isSpeech r = true -> lookup vadResults (frame r) <> None)
         vadResults.


(** ** The two tail policies as the specification words them *)

(** The [k]-th run of [f] samples of a buffer (shorter at the end). *)
Definition chunk (f : nat) (audio : list Q) (k : nat) : list Q :=
  firstn f (skipn (k * f) audio).

(** Zero-padding up to [f] samples. *)
Definition pad (f : nat) (frame : list Q) : list Q :=
  frame ++ repeat 0%Q (f - length frame).

(** [ceil(n / f)] and [floor(n / f)] *)
Definition ceilDiv (n f : nat) : nat := ((n + f - 1) / f)%nat.
Definition floorDiv (n f : nat) : nat := (n / f)%nat.

(** All the chunks, the last one padded. *)
Definition paddedChunks (f : nat) (audio : list Q) : list (list Q) :=
  map (fun k => pad f (chunk f audio k)) (seq 0 (ceilDiv (length audio) f)).

(** The whole chunks only. *)
Definition wholeChunks (f : nat) (audio : list Q) : list (list Q) :=
  map (chunk f audio) (seq 0 (floorDiv (length audio) f)).

(** Frames fed one after the other to [processFrame], stopping at the first
    one that throws. *)
Fixpoint processFrames {T : Type}
    (processFrame : T -> list Q -> result VADResult * T)
    (v : T) (frames : list (list Q)) (results : list VADResult)
  : result (list VADResult) * T :=
  match frames with
  | [] => (Ok results, v)
  | f :: rest =>
      match processFrame v f with
      | (Throw e, v') => (Throw e, v')
      | (Ok r, v') => processFrames processFrame v' rest (results ++ [r])
      end
  end.

(** A backend that answers every call and returns no new state. *)
Definition alwaysAnswers (run : InferenceSession) : Prop :=
  forall (n : nat) (input state : list Q) (sr : Z),
    exists out : RunOutput, run n input state sr = Some out /\ stateN out = None.

Module SampleAudio.

(** Two whole frames of 1536 samples and 100 samples more. *)
Definition buffer : list Q := repeat 0.25%Q 3172.

End SampleAudio.

(** ** Backend failures *)

(** The [try] block of [processFrame] throws on this call: [session.run]
    fails, or the state it returns does not fit into [h]. *)
Definition inferenceFails (run : InferenceSession) (runs : nat)
    (audioFrame h : list Q) (sr : Z) : bool :=
  match run runs audioFrame h sr with
  | None => true
  | Some results =>
      match stateN results with
      | Some newState => (length h <? length newState)%nat
      | None => false
      end
  end.

(** The probability the revision with the fallback produces for a frame,
    as the specification words it: the model's output when the model is in
    use and its inference succeeds, the energy probability otherwise. *)
Definition producedProbability (sqrt : Q -> Q) (v : SileroVADFallback.t)
    (audioFrame : list Q) : Q :=
  match SileroVADFallback.useOnnxModel v, SileroVADFallback.session v with
  | true, Some run =>
      match run (SileroVADFallback.runs v) audioFrame (SileroVADFallback.h v)
                (sampleRate (SileroVADFallback.options v)) with
      | Some results =>
          if inferenceFails run (SileroVADFallback.runs v) audioFrame
                            (SileroVADFallback.h v)
                            (sampleRate (SileroVADFallback.options v))
          then SileroVADFallback.energyBasedVAD sqrt audioFrame
          else output results
      | None => SileroVADFallback.energyBasedVAD sqrt audioFrame
      end
  | _, _ => SileroVADFallback.energyBasedVAD sqrt audioFrame
  end.

(** ** Invariants used in the proofs *)

(** No segment is open exactly when no frame index is collected. *)
Definition scanClosed (sc : Scan) : Prop :=
  segmentStart sc = None <-> speechFrames sc = [].

(** The recurrent buffers keep their 256 entries and the activity state stays
    reachable. *)
Definition sound (v : SileroVAD.t) : Prop :=
  length (SileroVAD.h v) = 256%nat
  /\ length (SileroVAD.c v) = 256%nat
  /\ reachable (SileroVAD.state v).

(** A decision that its own frame index finds again. *)
Definition selfIndexed (vs : list VADResult) (r : VADResult) : Prop :=
  lookup vs (frame r) = Some r.

Module SampleTwoBuffers.

(** Answers 0.9 on its calls 0 to 6 and 0.1 from call 7 on. *)
Definition backend : InferenceSession :=
  fun n _ _ _ =>
    Some {| output := if (n <? 7)%nat then 0.9%Q else 0.1%Q; stateN := None |}.

(** A first buffer of five frames and a second one of three. *)
Definition first : list Q := repeat 0.25%Q (5 * 1536).
Definition second : list Q := repeat 0.25%Q (3 * 1536).

(** The object once the first buffer is processed, with no [reset()]. *)
Definition afterFirst : SileroVAD.t :=
  Session.perform (Sample.vad backend) (Session.ProcessAudio first).

(** The decisions [processAudio] returns for the second buffer. *)
Definition decisions : list VADResult :=
  match SileroVAD.processAudio afterFirst second with
  | Some (Ok results, _) => results
  | _ => []
  end.

End SampleTwoBuffers.

(** * Definitions used by the further properties *)

Module SampleRuns.

(** What [processAudio] returns for the first buffer of [SampleTwoBuffers]
    on an initialized object, and for the second buffer after it. *)
Definition firstResults : list VADResult :=
  Eval vm_compute in
    match SileroVAD.processAudio (Sample.vad SampleTwoBuffers.backend)
                                 SampleTwoBuffers.first with
    | Some (Ok results, _) => results
    | _ => []
    end.

Definition afterFirst : SileroVAD.t :=
  Eval vm_compute in SampleTwoBuffers.afterFirst.

Definition secondResults : list VADResult :=
  Eval vm_compute in SampleTwoBuffers.decisions.

Definition afterSecond : SileroVAD.t :=
  Eval vm_compute in
    Session.perform SampleTwoBuffers.afterFirst
                    (Session.ProcessAudio SampleTwoBuffers.second).

(** Eight frames in one buffer, the decisions an initialized object returns
    for them, the object afterwards, and the segments of these decisions. *)
Definition eightFrames : list Q := repeat 0.25%Q (8 * 1536).

Definition eightResults : list VADResult :=
  Eval vm_compute in
    match SileroVAD.processAudio (Sample.vad SampleTwoBuffers.backend)
                                 eightFrames with
    | Some (Ok results, _) => results
    | _ => []
    end.

Definition afterEight : SileroVAD.t :=
  Eval vm_compute in
    Session.perform (Sample.vad SampleTwoBuffers.backend)
                    (Session.ProcessAudio eightFrames).

Definition eightSegments : list AudioSegment :=
  Eval vm_compute in
    match extractSpeechSegments Sample.options8k eightResults eightFrames with
    | Ok segs => segs
    | Throw _ => []
    end.

(** Four frames in one buffer, and the object after a [processAudio] on a
    backend that fails on its third call. *)
Definition fourFrames : list Q := repeat 0.25%Q (4 * 1536).

Definition afterFailure : SileroVAD.t :=
  Eval vm_compute in
    Session.perform (Sample.vad (Sample.failOnRun 2 0.9))
                    (Session.ProcessAudio fourFrames).

End SampleRuns.

(** ** Runs of speech frames, and states reached under fixed options *)

Fixpoint speechRun (o : RequiredVADOptions) (st : VADState)
    (timestamps : list Q) : VADState :=
  match timestamps with
  | [] => st
  | ts :: rest => speechRun o (updateState o st true ts) rest
  end.

(** The states one session passes through: its options do not change. *)
Inductive reachableWith (o : RequiredVADOptions) : VADState -> Prop :=
| reachWith_initial : reachableWith o initialState
| reachWith_update (st : VADState) (speech : bool) (ts : Q) :
    reachableWith o st -> reachableWith o (updateState o st speech ts)
| reachWith_count (st : VADState) :
    reachableWith o st ->
    reachableWith o (setCurrentFrame st (currentFrame st + 1)).

(** [initialize()] and [dispose()] *)
Definition isLifecycle (k : Session.call) : Prop :=
  match k with
  | Session.Initialize _ | Session.Dispose => True
  | _ => False
  end.

(** ** Notions used for AudioUtils *)

(** The number of frames of [f] samples taken every [hop] samples from a
    buffer of [n] samples, and these frames. *)
Definition frameCount (n f hop : nat) : nat :=
  if (f <=? n)%nat then ((n - f) / hop + 1)%nat else 0%nat.

Definition framesEvery (f hop : nat) (audio : list Q) : list (list Q) :=
  map (fun k => firstn f (skipn (k * hop) audio))
      (seq 0 (frameCount (length audio) f hop)).

(** ** src/index.ts *)

Module AVRVad.

(** [{}], the default of the constructor's parameter. *)
Definition emptyOptions : VADOptions :=
  {| opt_sampleRate := None; opt_frameSize := None; opt_threshold := None;
     opt_minSpeechDurationMs := None; opt_maxSilenceDurationMs := None;
     opt_modelPath := None |}.

(** What [processWavFile] resolves to. *)
Record Output : Type := mkOutput {
  results : list VADResult;
  segments : list AudioSegment;
  audioData : list Q
}.

(** What the promise of [AudioUtils.loadWavFile(filePath)] comes to.  It is
    resolved with the samples and the sample rate, or rejected, by the
    handlers of the WAV reader.  Nothing settles it when the file stream
    itself fails (no handler listens to it) or when the reader's 'end'
    handler throws (an unsupported bit depth). *)
Inductive Loading : Type :=
| Resolved (samples : list Q) (rate : Q)
| Rejected (e : error)
| NeverSettles.

(** What a call of [processWavFile] comes to: its promise is resolved or
    rejected, or stays pending for ever.  [vad] is the object the call
    built, as the call leaves it; there is none when the constructor threw. *)
Inductive Outcome : Type :=
| Settled (r : result Output) (vad : option SileroVAD.t)
| Pending (vad : option SileroVAD.t).

(** [AVRVad.processWavFile(filePath, options)].  [loaded] is what loading the
    model delivers to [initialize()], [wav] what
    [AudioUtils.loadWavFile(filePath)] comes to, and [minus] the subtraction
    of doubles in [extractSpeechSegments].  The constructor and
    [initialize()] run before the [try], everything else inside it, and
    [dispose()] in its [finally], which runs once the [try] block is left:
    not while an [await] inside it is pending. *)
Definition processWavFile (minus : Q -> Q -> Q)
    (loaded : option InferenceSession) (wav : Loading)
    (options : option VADOptions) : Outcome :=
  match SileroVAD.constructor (orDefault options emptyOptions) with
  | Throw e => Settled (Throw e) None
  | Ok vad =>
      match SileroVAD.initialize vad loaded with
      | (Throw e, vad1) => Settled (Throw e) (Some vad1)
      | (Ok _, vad1) =>
          match wav with
          | NeverSettles => Pending (Some vad1)
          | Rejected e => Settled (Throw e) (Some (SileroVAD.dispose vad1))
          | Resolved samples rate =>
              let targetSampleRate :=
                inject_Z (sampleRate (SileroVAD.getOptions vad1)) in
              let processed :=
                if negb (Qeq_bool rate targetSampleRate)
                then AudioUtils.resample samples rate targetSampleRate
                else Ok samples in
              match processed with
              | Throw e => Settled (Throw e) (Some (SileroVAD.dispose vad1))
              | Ok processedAudio =>
                  match SileroVAD.processAudio vad1 processedAudio with
                  | None => Pending (Some vad1)
                  | Some (Throw e, vad2) =>
                      Settled (Throw e) (Some (SileroVAD.dispose vad2))
                  | Some (Ok vadResults, vad2) =>
                      match extractSpeechSegmentsWith minus
                              (SileroVAD.options vad2) vadResults
                              processedAudio with
                      | Throw e =>
                          Settled (Throw e) (Some (SileroVAD.dispose vad2))
                      | Ok segs =>
                          Settled (Ok {| results := vadResults;
                                         segments := segs;
                                         audioData := processedAudio |})
                                  (Some (SileroVAD.dispose vad2))
                      end
                  end
              end
          end
      end
  end.

End AVRVad.

(** A backend that answers every call, and whose new recurrent state, when
    it returns one, fits into the 256 entries of [h]. *)
Definition answers (run : InferenceSession) : Prop :=
  forall (n : nat) (input state : list Q) (sr : Z),
    exists out : RunOutput,
      run n input state sr = Some out
      /\ match stateN out with
         | Some newState => (length newState <= 256)%nat
         | None => True
         end.

Module SampleWav.

(** A decoded file: 9216 samples at 16 kHz, which make three frames once
    resampled for an 8 kHz session. *)
Definition samples : list Q := repeat 0.25%Q (2 * (3 * 1536)).
Definition options : VADOptions :=
  {| opt_sampleRate := Some 8000; opt_frameSize := None;
     opt_threshold := None; opt_minSpeechDurationMs := None;
     opt_maxSilenceDurationMs := None; opt_modelPath := None |}.

(** The object the constructor builds from these options. *)
Definition built : SileroVAD.t :=
  {| SileroVAD.session := None; SileroVAD.options := Sample.options8k;
     SileroVAD.state := initialState;
     SileroVAD.h := Sample.zeros256; SileroVAD.c := Sample.zeros256;
     SileroVAD.runs := 0; SileroVAD.console := [] |}.

(** A backend that answers 0.9 twice and 0.1 from then on, each time with a
    new recurrent state. *)
Definition backend : InferenceSession :=
  fun n _ _ _ =>
    Some {| output := if (n <? 2)%nat then 0.9%Q else 0.1%Q;
            stateN := Some (repeat 0.5%Q 256) |}.

(** What [processWavFile] comes to for this file and this backend. *)
Definition outcome : AVRVad.Outcome :=
  Eval vm_compute in
    AVRVad.processWavFile Qminus (Some backend) (AVRVad.Resolved samples 16000)
                          (Some options).

End SampleWav.

(** * Properties *)

(** ** Numbers *)

Lemma geq_true_iff (a b : Q) : geq a b = true <-> (b <= a)%Q.
Proof. unfold geq. apply Qle_bool_iff. Qed.

Lemma geq_false_iff (a b : Q) : geq a b = false <-> (a < b)%Q.
Proof.
  unfold geq. split; intro H.
  - apply Qnot_le_lt. intro Hle. apply Qle_bool_iff in Hle. congruence.
  - destruct (Qle_bool b a) eqn:E; [|reflexivity].
    apply Qle_bool_iff in E. exfalso. exact (Qlt_not_le _ _ H E).
Qed.

Lemma less_true_iff (a b : Q) : less a b = true <-> (a < b)%Q.
Proof.
  unfold less. rewrite negb_true_iff. apply (geq_false_iff a b).
Qed.

Lemma less_false_iff (a b : Q) : less a b = false <-> (b <= a)%Q.
Proof.
  unfold less. rewrite negb_false_iff. apply (geq_true_iff a b).
Qed.

(** ** The threshold test *)

Lemma decide_result (o : RequiredVADOptions) (st : VADState) (p : Q) :
  probability (fst (decide o st p)) = p
  /\ isSpeech (fst (decide o st p)) = geq p (threshold o)
  /\ frame (fst (decide o st p)) = currentFrame st
  /\ timestamp (fst (decide o st p)) = timestampOf o st.
Proof.
  unfold decide, updateState. cbn.
  repeat split.
  destruct (geq p (threshold o)); cbn.
  - destruct (speechActive st); reflexivity.
  - destruct (speechActive st); cbn; [|reflexivity].
    destruct (geq _ _); reflexivity.
Qed.

Lemma processFrame_ok_inv (v v' : SileroVAD.t) (audioFrame : list Q)
    (r : VADResult) :
  SileroVAD.processFrame v audioFrame = (Ok r, v') ->
  exists run results,
    SileroVAD.session v = Some run
    /\ Z.of_nat (length audioFrame) = frameSize (SileroVAD.options v)
    /\ run (SileroVAD.runs v) audioFrame (SileroVAD.h v)
           (sampleRate (SileroVAD.options v)) = Some results
    /\ r = fst (decide (SileroVAD.options v) (SileroVAD.state v) (output results))
    /\ SileroVAD.state v'
       = snd (decide (SileroVAD.options v) (SileroVAD.state v) (output results))
    /\ SileroVAD.options v' = SileroVAD.options v.
Proof.
  unfold SileroVAD.processFrame. intro H.
  destruct (SileroVAD.session v) as [run|]; [|discriminate].
  destruct (Z.of_nat (length audioFrame) =? frameSize (SileroVAD.options v)) eqn:Hlen;
    cbn [negb] in H; [|discriminate].
  destruct (run _ _ _ _) as [results|] eqn:Hrun; [|discriminate].
  destruct (match stateN results with
            | Some newState => TypedArray.set (SileroVAD.h v) newState
            | None => Ok (SileroVAD.h v) end) as [h'|e]; [|discriminate].
  cbn in H. injection H as <- <-.
  exists run, results. cbn. apply Z.eqb_eq in Hlen. auto 10.
Qed.

Lemma probabilityOf_produced (sqrt : Q -> Q) (v : SileroVADFallback.t)
    (audioFrame : list Q) :
  fst (SileroVADFallback.probabilityOf sqrt v audioFrame)
  = producedProbability sqrt v audioFrame
  /\ SileroVADFallback.options
       (snd (SileroVADFallback.probabilityOf sqrt v audioFrame))
     = SileroVADFallback.options v.
Proof.
  unfold SileroVADFallback.probabilityOf, producedProbability, inferenceFails.
  destruct (SileroVADFallback.useOnnxModel v);
    destruct (SileroVADFallback.session v) as [run|]; try (split; reflexivity).
  destruct (run _ _ _ _) as [results|]; [|split; reflexivity].
  unfold TypedArray.set.
  destruct (stateN results) as [newState|]; [|split; reflexivity].
  destruct (length (SileroVADFallback.h v) <? length newState)%nat;
    split; reflexivity.
Qed.

(** C3.  Whenever [processFrame] returns a decision, its probability is the
    value produced for the frame (in src/silero-vad.ts the backend's output
    for this very call; in the revision with the fallback the backend's
    output or the energy probability), and its [isSpeech] flag is exactly
    the test of that value against the threshold, [value >= threshold]; in
    particular a value equal to the threshold is speech. *)
Theorem C3_isSpeech_is_probability_geq_threshold
    (sqrt : Q -> Q) (v v' : SileroVAD.t) (w w' : SileroVADFallback.t)
    (audioFrame : list Q) (r s : VADResult) :
  (SileroVAD.processFrame v audioFrame = (Ok r, v') ->
   exists (run : InferenceSession) (results : RunOutput),
     SileroVAD.session v = Some run
     /\ run (SileroVAD.runs v) audioFrame (SileroVAD.h v)
            (sampleRate (SileroVAD.options v)) = Some results
     /\ probability r = output results
     /\ isSpeech r = geq (output results) (threshold (SileroVAD.options v))
     /\ (isSpeech r = true
         <-> (threshold (SileroVAD.options v) <= output results)%Q)
     /\ ((output results == threshold (SileroVAD.options v))%Q ->
         isSpeech r = true))
  /\ (SileroVADFallback.processFrame sqrt w audioFrame = (Ok s, w') ->
      let p := producedProbability sqrt w audioFrame in
      probability s = p
      /\ isSpeech s = geq p (threshold (SileroVADFallback.options w))
      /\ (isSpeech s = true
          <-> (threshold (SileroVADFallback.options w) <= p)%Q)
      /\ ((p == threshold (SileroVADFallback.options w))%Q ->
          isSpeech s = true)).
Proof.
  split.
  - intro H. apply processFrame_ok_inv in H.
    destruct H as (run & results & Hs & _ & Hrun & -> & _).
    destruct (decide_result (SileroVAD.options v) (SileroVAD.state v)
                (output results)) as (Hp & Hsp & _).
    exists run, results.
    split; [exact Hs|]. split; [exact Hrun|]. split; [exact Hp|].
    split; [exact Hsp|]. rewrite Hsp. split.
    + apply geq_true_iff.
    + intro Heq. apply geq_true_iff. rewrite Heq. apply Qle_refl.
  - unfold SileroVADFallback.processFrame.
    destruct (negb _); [discriminate|].
    destruct (probabilityOf_produced sqrt w audioFrame) as (Hp & Ho).
    destruct (SileroVADFallback.probabilityOf sqrt w audioFrame) as [p w1].
    cbn [fst snd] in Hp, Ho.
    destruct (decide _ _ _) as [res st] eqn:Hd.
    intro H. injection H as <- _. cbv zeta. rewrite <- Hp.
    pose proof (decide_result (SileroVADFallback.options w1)
                  (SileroVADFallback.state w1) p) as (Hpr & Hsp & _).
    rewrite Hd in Hpr, Hsp. cbn [fst] in Hpr, Hsp. rewrite Ho in Hsp.
    split; [exact Hpr|]. split; [exact Hsp|]. rewrite Hsp. split.
    + apply geq_true_iff.
    + intro Heq. apply geq_true_iff. rewrite Heq. apply Qle_refl.
Qed.

(** Against the threshold 0.5: a backend that answers exactly 0.5 gives a
    speech decision, a backend that answers 0.1 gives a non-speech decision
    of probability 0.1, and in the revision with the fallback a failed
    inference on a silent frame gives the energy probability 0, which is not
    speech. *)
Lemma C3_witness :
  (exists (r : VADResult) (v' : SileroVAD.t),
      SileroVAD.processFrame (Sample.vad (Sample.constantBackend 0.5))
                             Sample.silence = (Ok r, v')
      /\ probability r = 0.5%Q /\ isSpeech r = true)
  /\ (exists (r : VADResult) (v' : SileroVAD.t),
         SileroVAD.processFrame (Sample.vad (Sample.constantBackend 0.1))
                                Sample.silence = (Ok r, v')
         /\ probability r = 0.1%Q /\ isSpeech r = false)
  /\ (exists (s : VADResult) (w' : SileroVADFallback.t),
         SileroVADFallback.processFrame Sample.sqrtQ
           (Sample.vadFallback Sample.failingBackend) Sample.silence
         = (Ok s, w')
         /\ (probability s == 0)%Q /\ isSpeech s = false).
Proof.
  split; [|split].
  - eexists. eexists. split; [vm_compute; reflexivity|].
    destruct (proj1 (C3_isSpeech_is_probability_geq_threshold Sample.sqrtQ
                       (Sample.vad (Sample.constantBackend 0.5)) _
                       (Sample.vadFallback Sample.failingBackend)
                       (Sample.vadFallback Sample.failingBackend)
                       Sample.silence _ (Sample.decision 0 false)) eq_refl)
      as (run & results & Hs & Hrun & Hp & Hsp & _).
    injection Hs as <-. injection Hrun as <-.
    split; [exact Hp|exact Hsp].
  - eexists. eexists. split; [vm_compute; reflexivity|].
    destruct (proj1 (C3_isSpeech_is_probability_geq_threshold Sample.sqrtQ
                       (Sample.vad (Sample.constantBackend 0.1)) _
                       (Sample.vadFallback Sample.failingBackend)
                       (Sample.vadFallback Sample.failingBackend)
                       Sample.silence _ (Sample.decision 0 false)) eq_refl)
      as (run & results & Hs & Hrun & Hp & Hsp & _).
    injection Hs as <-. injection Hrun as <-.
    split; [exact Hp|exact Hsp].
  - eexists. eexists. split; [vm_compute; reflexivity|].
    destruct (proj2 (C3_isSpeech_is_probability_geq_threshold Sample.sqrtQ
                       (Sample.vad (Sample.constantBackend 0.5))
                       (Sample.vad (Sample.constantBackend 0.5))
                       (Sample.vadFallback Sample.failingBackend) _
                       Sample.silence (Sample.decision 0 false) _) eq_refl)
      as (Hp & Hsp & _).
    assert (E : (producedProbability Sample.sqrtQ
                   (Sample.vadFallback Sample.failingBackend) Sample.silence
                 == 0)%Q) by (vm_compute; reflexivity).
    split; [exact (eq_ind_r (fun x => (x == 0)%Q) E Hp)|].
    refine (eq_trans Hsp _). vm_compute. reflexivity.
Defined.

(** ** The activity state machine *)

Lemma updateState_currentFrame (o : RequiredVADOptions) (st : VADState)
    (speech : bool) (ts : Q) :
  currentFrame (updateState o st speech ts) = currentFrame st.
Proof.
  unfold updateState.
  destruct speech, (speechActive st); cbn; try reflexivity.
  destruct (geq _ _); reflexivity.
Qed.

(** A silent frame in the active state: the silence grows by one frame
    duration, and the state stays active exactly when the new silence is
    below the maximum. *)
Lemma updateState_silent_active (o : RequiredVADOptions) (st : VADState) (ts : Q) :
  speechActive st = true ->
  let st' := updateState o st false ts in
  silenceDuration st' = (silenceDuration st + frameDurationMs o)%Q
  /\ speechDuration st' = speechDuration st
  /\ ((silenceDuration st' < maxSilenceDurationMs o)%Q ->
      speechActive st' = true /\ speechStart st' = speechStart st)
  /\ ((maxSilenceDurationMs o <= silenceDuration st')%Q ->
      speechActive st' = false /\ speechStart st' = None).
Proof.
  intros Ha. unfold updateState. rewrite Ha. cbn.
  destruct (geq (silenceDuration st + frameDurationMs o) (maxSilenceDurationMs o))
    eqn:E; cbn.
  - apply geq_true_iff in E.
    split; [reflexivity|]. split; [reflexivity|]. split.
    + intro Hlt. exfalso. exact (Qlt_not_le _ _ Hlt E).
    + intros _. split; reflexivity.
  - apply geq_false_iff in E.
    split; [reflexivity|]. split; [reflexivity|]. split.
    + intros _. split; [exact Ha|reflexivity].
    + intro Hle. exfalso. exact (Qlt_not_le _ _ E Hle).
Qed.

Lemma accumulated_0 (o : RequiredVADOptions) (st : VADState) :
  (accumulated o st 0 == silenceDuration st)%Q.
Proof. unfold accumulated. cbn. ring. Qed.

Lemma accumulated_step (o : RequiredVADOptions) (st : VADState) (ts : Q) (j : nat) :
  speechActive st = true ->
  (accumulated o (updateState o st false ts) j == accumulated o st (S j))%Q.
Proof.
  intro Ha.
  destruct (updateState_silent_active o st ts Ha) as (Hs & _).
  unfold accumulated. rewrite Hs, Nat2Z.inj_succ. unfold Z.succ.
  rewrite inject_Z_plus. ring.
Qed.

Lemma silentFrames_app (o : RequiredVADOptions) (st : VADState) (l1 l2 : list Q) :
  silentFrames o st (l1 ++ l2) = silentFrames o (silentFrames o st l1) l2.
Proof.
  revert st. induction l1 as [|ts l1 IH]; intro st; cbn; [reflexivity|apply IH].
Qed.

(** While every accumulated silence stays below the maximum, a run of silent
    frames leaves the machine active, with its start unchanged. *)
Lemma silentFrames_stay_active (o : RequiredVADOptions) (timestamps : list Q) :
  forall st : VADState,
    speechActive st = true ->
    (forall j : nat, (1 <= j <= length timestamps)%nat ->
                     (accumulated o st j < maxSilenceDurationMs o)%Q) ->
    speechActive (silentFrames o st timestamps) = true
    /\ speechStart (silentFrames o st timestamps) = speechStart st
    /\ (silenceDuration (silentFrames o st timestamps)
        == accumulated o st (length timestamps))%Q.
Proof.
  induction timestamps as [|ts rest IH]; intros st Ha Hbelow; cbn [silentFrames length].
  - repeat split; [assumption|]. symmetry. apply accumulated_0.
  - destruct (updateState_silent_active o st ts Ha) as (Hs & _ & Hlt & _).
    assert (H1 : (silenceDuration (updateState o st false ts)
                  < maxSilenceDurationMs o)%Q).
    { rewrite Hs. specialize (Hbelow 1%nat).
      unfold accumulated in Hbelow. cbn in Hbelow.
      assert (Hq : (silenceDuration st + frameDurationMs o
                    == silenceDuration st + inject_Z 1 * frameDurationMs o)%Q)
        by ring.
      rewrite Hq. apply Hbelow. cbn. lia. }
    destruct (Hlt H1) as (Ha' & Hst').
    destruct (IH (updateState o st false ts) Ha') as (A & B & C).
    + intros j Hj. rewrite (accumulated_step o st ts j Ha).
      apply Hbelow. cbn. lia.
    + split; [exact A|]. split; [congruence|].
      rewrite C. apply accumulated_step. exact Ha.
Qed.

(** C2.  From an active state, consecutive non-speech frames keep the machine
    active, with the same start, as long as the accumulated silence (one frame
    duration more per frame) is strictly below [maxSilenceDurationMs]; the
    silent frame on which the accumulated silence first reaches or exceeds it
    sets [speechActive] to false and [speechStart] to null. *)
Theorem C2_hangover_closes_at_max_silence
    (o : RequiredVADOptions) (st : VADState) (timestamps : list Q) (last : Q) :
  speechActive st = true ->
  (forall j : nat, (1 <= j <= length timestamps)%nat ->
                   (accumulated o st j < maxSilenceDurationMs o)%Q) ->
  (speechActive (silentFrames o st timestamps) = true
   /\ speechStart (silentFrames o st timestamps) = speechStart st)
  /\ ((maxSilenceDurationMs o <= accumulated o st (S (length timestamps)))%Q ->
      speechActive (silentFrames o st (timestamps ++ [last])) = false
      /\ speechStart (silentFrames o st (timestamps ++ [last])) = None)
  /\ ((accumulated o st (S (length timestamps)) < maxSilenceDurationMs o)%Q ->
      speechActive (silentFrames o st (timestamps ++ [last])) = true
      /\ speechStart (silentFrames o st (timestamps ++ [last])) = speechStart st).
Proof.
  intros Ha Hbelow.
  destruct (silentFrames_stay_active o timestamps st Ha Hbelow) as (A & B & C).
  split; [split; assumption|].
  rewrite silentFrames_app. cbn [silentFrames].
  destruct (updateState_silent_active o (silentFrames o st timestamps) last A)
    as (Hs & _ & Hlt & Hge).
  assert (Hacc : (silenceDuration
                    (updateState o (silentFrames o st timestamps) false last)
                  == accumulated o st (S (length timestamps)))%Q).
  { rewrite Hs, C. unfold accumulated.
    rewrite Nat2Z.inj_succ. unfold Z.succ. rewrite inject_Z_plus. ring. }
  split.
  - intro Hreach. apply Hge. rewrite Hacc. exact Hreach.
  - intro Hshort. destruct Hlt as (A' & B'); [rewrite Hacc; exact Hshort|].
    split; [exact A'|congruence].
Qed.

(** With 192 ms frames and a maximum silence of 384 ms: one silent frame
    keeps the segment open, the second closes it. *)
Lemma C2_witness :
  (speechActive (silentFrames Sample.optionsShort Sample.activeState [192%Q]) = true
   /\ speechStart (silentFrames Sample.optionsShort Sample.activeState [192%Q])
      = Some 0%Q)
  /\ speechActive (silentFrames Sample.optionsShort Sample.activeState
                                ([192%Q] ++ [384%Q])) = false
  /\ speechStart (silentFrames Sample.optionsShort Sample.activeState
                               ([192%Q] ++ [384%Q])) = None.
Proof.
  assert (Hbelow : forall j : nat, (1 <= j <= length [192%Q])%nat ->
            (accumulated Sample.optionsShort Sample.activeState j
             < maxSilenceDurationMs Sample.optionsShort)%Q).
  { intros j Hj. cbn in Hj. assert (j = 1%nat) as -> by lia. reflexivity. }
  destruct (C2_hangover_closes_at_max_silence Sample.optionsShort
              Sample.activeState [192%Q] 384%Q eq_refl Hbelow)
    as (Hopen & Hclose & _).
  split; [exact Hopen|].
  apply Hclose. cbn. discriminate.
Defined.

(** ** The invariant of the activity state *)

Lemma updateState_consistent (o : RequiredVADOptions) (st : VADState)
    (speech : bool) (ts : Q) :
  (speechActive st = true <-> speechStart st <> None) ->
  (speechActive (updateState o st speech ts) = true
   <-> speechStart (updateState o st speech ts) <> None).
Proof.
  intro H. unfold updateState.
  destruct speech.
  - destruct (speechActive st) eqn:Ea; cbn.
    + rewrite Ea. exact H.
    + split; [discriminate|reflexivity].
  - destruct (speechActive st) eqn:Ea; cbn.
    + destruct (geq _ _); cbn.
      * split; [discriminate|congruence].
      * rewrite Ea. exact H.
    + rewrite Ea. exact H.
Qed.

(** C9.  In every state reachable from the initial state by per-frame updates,
    frame counting and resets, [speechActive] is true if and only if
    [speechStart] is not null. *)
Theorem C9_speechActive_iff_speechStart (st : VADState) :
  reachable st ->
  (speechActive st = true <-> speechStart st <> None).
Proof.
  induction 1 as [|o st speech ts _ IH|st _ IH|st _ _].
  - cbn. split; [discriminate|congruence].
  - apply updateState_consistent. exact IH.
  - cbn. exact IH.
  - cbn. split; [discriminate|congruence].
Qed.

(** After a speech frame at 192 ms the state is active with that start. *)
Lemma C9_witness :
  speechActive (updateState Sample.options8k initialState true 192%Q) = true
  <-> speechStart (updateState Sample.options8k initialState true 192%Q) <> None.
Proof.
  apply (C9_speechActive_iff_speechStart
           (updateState Sample.options8k initialState true 192%Q)).
  apply reach_update. apply reach_initial.
Defined.

(** ** What every call preserves *)

Lemma set_length (a src a' : list Q) :
  TypedArray.set a src = Ok a' -> length a' = length a.
Proof.
  unfold TypedArray.set.
  destruct (length a <? length src)%nat eqn:E; [discriminate|].
  intro H. injection H as <-.
  apply Nat.ltb_ge in E.
  rewrite length_app, length_skipn. lia.
Qed.

Lemma fill0_length (a : list Q) : length (TypedArray.fill0 a) = length a.
Proof. unfold TypedArray.fill0. apply repeat_length. Qed.

Lemma zeros_length (n : Z) : length (TypedArray.zeros n) = Z.to_nat n.
Proof. unfold TypedArray.zeros. apply repeat_length. Qed.

Section ProcessAudioInvariant.

Context {T : Type}.
Variable processFrame : T -> list Q -> result VADResult * T.
Variable P : T -> Prop.
Hypothesis processFrame_keeps : forall v f, P v -> P (snd (processFrame v f)).

Lemma processAudioLoop_keeps (fuel : nat) :
  forall (frameSize : Z) (audio : list Q) (v : T) (i : Z)
         (results : list VADResult) (r : result (list VADResult)) (v' : T),
    P v ->
    processAudioLoop processFrame fuel frameSize audio v i results = Some (r, v') ->
    P v'.
Proof.
  induction fuel as [|fuel IH]; intros fs audio v i results r v' Hv H;
    cbn in H; [discriminate|].
  destruct (i <? Z.of_nat (length audio)).
  - destruct (Z.of_nat (length (TypedArray.slice audio i (i + fs))) <? fs).
    + destruct (TypedArray.set _ _) as [padded|e].
      * pose proof (processFrame_keeps v padded Hv) as Hk.
        destruct (processFrame v padded) as [[d|e] v1]; cbn in Hk.
        -- eapply IH; eassumption.
        -- injection H as _ <-. exact Hk.
      * injection H as _ <-. exact Hv.
    + pose proof (processFrame_keeps v (TypedArray.slice audio i (i + fs)) Hv)
        as Hk.
      destruct (processFrame v _) as [[d|e] v1]; cbn in Hk.
      * eapply IH; eassumption.
      * injection H as _ <-. exact Hk.
  - injection H as _ <-. exact Hv.
Qed.

End ProcessAudioInvariant.

Lemma constructor_sound (o : VADOptions) (v : SileroVAD.t) :
  SileroVAD.constructor o = Ok v -> sound v /\ SileroVAD.state v = initialState.
Proof.
  unfold SileroVAD.constructor.
  destruct (validateOptions (mergeOptions o)) as [[o' out]|e]; [|discriminate].
  intro H. injection H as <-. cbn.
  repeat split. apply reach_initial.
Qed.

Lemma processFrame_sound (v : SileroVAD.t) (f : list Q) :
  sound v -> sound (snd (SileroVAD.processFrame v f)).
Proof.
  intros (Hh & Hc & Hr). unfold SileroVAD.processFrame.
  destruct (SileroVAD.session v) as [run|]; [|repeat split; assumption].
  destruct (negb _); [repeat split; assumption|].
  destruct (run _ _ _ _) as [results|]; [|repeat split; assumption].
  destruct (match stateN results with
            | Some newState => TypedArray.set (SileroVAD.h v) newState
            | None => Ok (SileroVAD.h v) end) as [h'|e] eqn:Eh;
    [|repeat split; assumption].
  unfold sound. cbn. repeat split.
  - destruct (stateN results) as [newState|].
    + apply set_length in Eh. congruence.
    + injection Eh as <-. exact Hh.
  - exact Hc.
  - apply reach_count. apply reach_update. exact Hr.
Qed.

Lemma perform_sound (v : SileroVAD.t) (k : Session.call) :
  sound v -> sound (Session.perform v k).
Proof.
  intro Hv. destruct k as [loaded|f|a| |]; cbn [Session.perform].
  - destruct loaded; cbn; [|exact Hv]. exact Hv.
  - apply processFrame_sound. exact Hv.
  - unfold SileroVAD.processAudio, processAudioWith.
    destruct (processAudioLoop SileroVAD.processFrame _ _ _ _ _ _)
      as [[r v']|] eqn:E; [|exact Hv].
    eapply (processAudioLoop_keeps SileroVAD.processFrame sound
              processFrame_sound); eassumption.
  - destruct Hv as (Hh & Hc & Hr). repeat split; cbn.
    + rewrite fill0_length. exact Hh.
    + rewrite fill0_length. exact Hc.
    + apply reach_initial.
  - exact Hv.
Qed.

Lemma performAll_sound (calls : list Session.call) :
  forall v : SileroVAD.t, sound v -> sound (Session.performAll v calls).
Proof.
  unfold Session.performAll.
  induction calls as [|k calls IH]; intros v Hv; cbn; [exact Hv|].
  apply IH. apply perform_sound. exact Hv.
Qed.

(** The invariant of C9 on the objects themselves: it holds after any
    sequence of calls on a constructed object. *)
Corollary session_speechActive_iff_speechStart
    (o : VADOptions) (v0 : SileroVAD.t) (calls : list Session.call) :
  SileroVAD.constructor o = Ok v0 ->
  let st := SileroVAD.getState (Session.performAll v0 calls) in
  speechActive st = true <-> speechStart st <> None.
Proof.
  intros Hc st. apply C9_speechActive_iff_speechStart.
  apply (performAll_sound calls v0). apply (constructor_sound o v0 Hc).
Qed.

(** ** reset *)

(** C8.  After any sequence of calls on a constructed object, [reset()] makes
    [getState()] return the state the constructor left (frame 0, inactive,
    no start, both durations 0) and leaves the recurrent buffers [h] and [c]
    as 256 zeros. *)
Theorem C8_reset_restores_construction_state
    (o : VADOptions) (v0 : SileroVAD.t) (calls : list Session.call) :
  SileroVAD.constructor o = Ok v0 ->
  let v := SileroVAD.reset (Session.performAll v0 calls) in
  SileroVAD.getState v = SileroVAD.getState v0
  /\ SileroVAD.getState v
     = {| currentFrame := 0; speechActive := false; speechStart := None;
          silenceDuration := 0%Q; speechDuration := 0%Q |}
  /\ SileroVAD.h v = repeat 0%Q 256
  /\ SileroVAD.c v = repeat 0%Q 256.
Proof.
  intros Hc v.
  destruct (constructor_sound o v0 Hc) as (Hs & Hst).
  destruct (performAll_sound calls v0 Hs) as (Hh & Hcc & _).
  unfold v, SileroVAD.getState. cbn.
  split; [symmetry; exact Hst|]. split; [reflexivity|].
  unfold TypedArray.fill0. rewrite Hh, Hcc. split; reflexivity.
Qed.

(** After loading a model and processing two frames the frame counter is 2;
    [reset()] brings the construction state back. *)
Lemma C8_witness :
  currentFrame (SileroVAD.getState
                  (Session.performAll SampleSession.fresh SampleSession.calls)) = 2
  /\ SileroVAD.getState
       (SileroVAD.reset (Session.performAll SampleSession.fresh SampleSession.calls))
     = SileroVAD.getState SampleSession.fresh.
Proof.
  split; [vm_compute; reflexivity|].
  apply (C8_reset_restores_construction_state Sample.noOptions
           SampleSession.fresh SampleSession.calls).
  reflexivity.
Defined.

(** ** Construction *)

Lemma validateOptions_spec (m : RequiredVADOptions) :
  ((sampleRate m <> 8000 /\ sampleRate m <> 16000) ->
   validateOptions m = Throw SampleRateError)
  /\ ((sampleRate m = 8000 \/ sampleRate m = 16000) ->
      (threshold m < 0 \/ 1 < threshold m)%Q ->
      validateOptions m = Throw ThresholdError)
  /\ ((sampleRate m = 8000 \/ sampleRate m = 16000) ->
      (0 <= threshold m <= 1)%Q ->
      validateOptions m
      = Ok (if frameSize m =? 1536 then m else setFrameSize m 1536,
            if frameSize m =? 1536 then [] else [WarnFrameSize (frameSize m)])).
Proof.
  unfold validateOptions. repeat split.
  - intros (H8 & H16).
    apply Z.eqb_neq in H8, H16. rewrite H8, H16. reflexivity.
  - intros Hsr Hth.
    assert (E : (sampleRate m =? 8000) || (sampleRate m =? 16000) = true).
    { apply orb_true_iff. destruct Hsr as [H|H]; [left|right];
        apply Z.eqb_eq; exact H. }
    rewrite E. cbn [negb].
    assert (Et : less (threshold m) 0 || less 1 (threshold m) = true).
    { apply orb_true_iff. destruct Hth as [H|H]; [left|right];
        apply less_true_iff; exact H. }
    destruct (negb (frameSize m =? 1536)); rewrite Et; reflexivity.
  - intros Hsr (Hlo & Hhi).
    assert (E : (sampleRate m =? 8000) || (sampleRate m =? 16000) = true).
    { apply orb_true_iff. destruct Hsr as [H|H]; [left|right];
        apply Z.eqb_eq; exact H. }
    rewrite E. cbn [negb].
    assert (Et : less (threshold m) 0 || less 1 (threshold m) = false).
    { apply orb_false_iff. split; apply less_false_iff; assumption. }
    destruct (frameSize m =? 1536); cbn [negb]; rewrite Et; reflexivity.
Qed.

(** C7, as the code has it.  The constructor throws when the sample rate is
    neither 8000 nor 16000, and when the threshold is below 0 or above 1.
    Otherwise it succeeds whatever the frame size: a frame size other than
    1536 is replaced by 1536 with a console warning, and no error. *)
Theorem C7_constructor_validates_rate_and_threshold (o : VADOptions) :
  let m := mergeOptions o in
  ((sampleRate m <> 8000 /\ sampleRate m <> 16000) ->
   SileroVAD.constructor o = Throw SampleRateError)
  /\ ((sampleRate m = 8000 \/ sampleRate m = 16000) ->
      (threshold m < 0 \/ 1 < threshold m)%Q ->
      SileroVAD.constructor o = Throw ThresholdError)
  /\ ((sampleRate m = 8000 \/ sampleRate m = 16000) ->
      (0 <= threshold m <= 1)%Q ->
      exists v : SileroVAD.t,
        SileroVAD.constructor o = Ok v
        /\ SileroVAD.options v = (if frameSize m =? 1536 then m
                                  else setFrameSize m 1536)
        /\ frameSize (SileroVAD.options v) = 1536
        /\ SileroVAD.console v = (if frameSize m =? 1536 then []
                                  else [WarnFrameSize (frameSize m)])
        /\ SileroVAD.getState v = initialState).
Proof.
  intro m. unfold SileroVAD.constructor. fold m.
  destruct (validateOptions_spec m) as (Hsr & Hth & Hok).
  repeat split.
  - intro H. rewrite (Hsr H). reflexivity.
  - intros H1 H2. rewrite (Hth H1 H2). reflexivity.
  - intros H1 H2. rewrite (Hok H1 H2).
    eexists. split; [reflexivity|]. cbn [SileroVAD.options SileroVAD.console
      SileroVAD.getState SileroVAD.state].
    repeat split.
    destruct (frameSize m =? 1536) eqn:E; [apply Z.eqb_eq; exact E|reflexivity].
Qed.

(** The options of test-example.js, with a frame size of 320, build an object
    whose frame size is 1536. *)
Lemma C7_witness :
  exists v : SileroVAD.t,
    SileroVAD.constructor Sample.options320 = Ok v
    /\ frameSize (SileroVAD.options v) = 1536
    /\ SileroVAD.console v = [WarnFrameSize 320].
Proof.
  destruct (C7_constructor_validates_rate_and_threshold Sample.options320)
    as (_ & _ & H).
  destruct H as (v & Hv & _ & Hf & Hc & _).
  - left. reflexivity.
  - split; cbn; discriminate.
  - exists v. repeat split; assumption.
Defined.

(** The claim as written fails: a frame size of 320 differs from the 1536
    the model expects, yet construction succeeds and the size is replaced. *)
Lemma C7_counterexample :
  frameSize (mergeOptions Sample.options320) = 320
  /\ SileroVAD.constructor Sample.options320
     = Ok {| SileroVAD.session := None;
             SileroVAD.options := Sample.options8k;
             SileroVAD.state := initialState;
             SileroVAD.h := Sample.zeros256; SileroVAD.c := Sample.zeros256;
             SileroVAD.runs := 0;
             SileroVAD.console := [WarnFrameSize 320] |}.
Proof. split; reflexivity. Qed.

(** ** extractSpeechSegments *)

Lemma scanLoop_app (o : RequiredVADOptions) (vs : list VADResult)
    (audio : list Q) (l1 l2 : list VADResult) :
  forall sc : Scan,
    scanLoop o vs audio (l1 ++ l2) sc
    = match scanLoop o vs audio l1 sc with
      | Throw e => Throw e
      | Ok sc' => scanLoop o vs audio l2 sc'
      end.
Proof.
  induction l1 as [|r l1 IH]; intro sc; cbn [scanLoop app]; [reflexivity|].
  destruct (scanStep o vs audio sc r) as [sc'|e]; [apply IH|reflexivity].
Qed.

(** A run of speech decisions never throws and pushes nothing: it opens a
    segment at its first decision if none is open, and collects its frame
    indices. *)
Lemma scanLoop_speech_run (o : RequiredVADOptions) (vs : list VADResult)
    (audio : list Q) (run : list VADResult) :
  Forall (fun r => isSpeech r = true) run ->
  forall sc : Scan,
    exists sc' : Scan,
      scanLoop o vs audio run sc = Ok sc'
      /\ segments sc' = segments sc
      /\ segmentStart sc'
         = match segmentStart sc with
           | Some s => Some s
           | None => option_map timestamp (hd_error run)
           end
      /\ speechFrames sc' = speechFrames sc ++ map frame run.
Proof.
  induction 1 as [|r run Hr _ IH]; intro sc; cbn [scanLoop].
  - exists sc. rewrite app_nil_r. destruct (segmentStart sc); auto.
  - unfold scanStep. rewrite Hr.
    match goal with |- context [scanLoop _ _ _ _ ?s] => destruct (IH s)
      as (sc' & E & A & B & C) end.
    exists sc'. split; [exact E|]. cbn in A, B, C.
    split; [exact A|]. split.
    + rewrite B. destruct (segmentStart sc); reflexivity.
    + rewrite C, <- app_assoc. reflexivity.
Qed.

Lemma scanStep_closed (o : RequiredVADOptions) (vs : list VADResult)
    (audio : list Q) (sc sc' : Scan) (r : VADResult) :
  scanClosed sc -> scanStep o vs audio sc r = Ok sc' -> scanClosed sc'.
Proof.
  unfold scanClosed, scanStep. intros Hc.
  destruct (isSpeech r).
  - intro H. injection H as <-. cbn.
    split.
    + destruct (segmentStart sc); discriminate.
    + intro E. destruct (speechFrames sc); discriminate.
  - destruct (segmentStart sc) as [start|] eqn:Es.
    + destruct (0 <? length (speechFrames sc))%nat.
      * destruct (geq _ _).
        -- destruct (confidenceOf vs (speechFrames sc)); [|discriminate].
           intro H. injection H as <-. cbn. tauto.
        -- intro H. injection H as <-. cbn. tauto.
      * intro H. injection H as <-. rewrite Es. exact Hc.
    + intro H. injection H as <-. rewrite Es. exact Hc.
Qed.

Lemma scanLoop_closed (o : RequiredVADOptions) (vs : list VADResult)
    (audio : list Q) (l : list VADResult) :
  forall sc sc' : Scan,
    scanClosed sc -> scanLoop o vs audio l sc = Ok sc' -> scanClosed sc'.
Proof.
  induction l as [|r l IH]; intros sc sc' Hc H; cbn in H.
  - injection H as <-. exact Hc.
  - destruct (scanStep o vs audio sc r) as [sc1|e] eqn:E; [|discriminate].
    eapply IH; [|exact H]. eapply scanStep_closed; eassumption.
Qed.

Lemma scan0_closed : scanClosed scan0.
Proof. unfold scanClosed. cbn. tauto. Qed.

(** C5.  When the decision sequence ends with a run of speech decisions, the
    segments returned are those already pushed when the run began: the run
    adds none, whatever its length.  A sequence of speech decisions only
    yields no segment at all. *)
Theorem C5_trailing_run_is_not_emitted
    (o : RequiredVADOptions) (audio : list Q) (pre run : list VADResult) :
  Forall (fun r => isSpeech r = true) run ->
  extractSpeechSegments o (pre ++ run) audio
  = segmentsAfter o (pre ++ run) audio pre
  /\ extractSpeechSegments o run audio = Ok [].
Proof.
  intro Hrun. unfold extractSpeechSegments, segmentsAfter. split.
  - rewrite scanLoop_app.
    destruct (scanLoop o (pre ++ run) audio pre scan0) as [sc|e]; [|reflexivity].
    destruct (scanLoop_speech_run o (pre ++ run) audio run Hrun sc)
      as (sc' & E & A & _).
    rewrite E, A. reflexivity.
  - destruct (scanLoop_speech_run o run audio run Hrun scan0)
      as (sc' & E & A & _).
    rewrite E, A. reflexivity.
Qed.

(** Frames 0 and 1 close a segment at frame 2; the two speech frames that
    end the sequence add nothing, though they last as long. *)
Lemma C5_witness :
  extractSpeechSegments Sample.options8k
    ([Sample.decision 0 true; Sample.decision 1 true; Sample.decision 2 false]
     ++ [Sample.decision 3 true; Sample.decision 4 true]) []
  = Ok [{| seg_start := 0 * 192; seg_end := 2 * 192; audioData := [];
           confidence := (0 + 0.9 + 0.9) / 2 |}].
Proof.
  destruct (C5_trailing_run_is_not_emitted Sample.options8k []
              [Sample.decision 0 true; Sample.decision 1 true;
               Sample.decision 2 false]
              [Sample.decision 3 true; Sample.decision 4 true]) as (H & _).
  - repeat constructor.
  - rewrite H. reflexivity.
Defined.

Lemma reduceProbability_in_bounds (vs : list VADResult) (frames : list Z) :
  Forall (fun f => lookup vs f <> None) frames ->
  forall sum : Q, exists total : Q, reduceProbability vs frames sum = Ok total.
Proof.
  induction 1 as [|f frames Hf _ IH]; intro sum; cbn.
  - exists sum. reflexivity.
  - destruct (lookup vs f) as [r|]; [apply IH|congruence].
Qed.

Lemma confidenceOf_in_bounds (vs : list VADResult) (frames : list Z) :
  Forall (fun f => lookup vs f <> None) frames ->
  exists conf : Q, confidenceOf vs frames = Ok conf.
Proof.
  intro H. unfold confidenceOf.
  destruct (reduceProbability_in_bounds vs frames H 0%Q) as (total & ->).
  eexists. reflexivity.
Qed.

(** *** The loop with the subtraction left open *)

Lemma scanLoopWith_exact (o : RequiredVADOptions) (vs : list VADResult)
    (audio : list Q) (rest : list VADResult) :
  forall sc : Scan,
    scanLoopWith Qminus o vs audio rest sc = scanLoop o vs audio rest sc.
Proof.
  induction rest as [|r rest IH]; intro sc; cbn [scanLoopWith scanLoop];
    [reflexivity|].
  change (scanStepWith Qminus o vs audio sc r) with (scanStep o vs audio sc r).
  destruct (scanStep o vs audio sc r) as [sc'|e]; [apply IH|reflexivity].
Qed.

(** With the exact subtraction the two embeddings are one. *)
Lemma extractSpeechSegmentsWith_exact (o : RequiredVADOptions)
    (vs : list VADResult) (audio : list Q) :
  extractSpeechSegmentsWith Qminus o vs audio = extractSpeechSegments o vs audio.
Proof.
  unfold extractSpeechSegmentsWith, extractSpeechSegments.
  rewrite scanLoopWith_exact. reflexivity.
Qed.

(** When the frame indices of the speech decisions are indices of the
    scanned list, the loop does not throw, and the segments it pushes are,
    by their bounds, the kept runs of the specification. *)
Lemma scanLoopWith_keptRuns (minus : Q -> Q -> Q) (o : RequiredVADOptions)
    (vs : list VADResult) (audio : list Q) (rest : list VADResult) :
  Forall (fun r => isSpeech r = true -> lookup vs (frame r) <> None) rest ->
  forall sc : Scan,
    Forall (fun f => lookup vs f <> None) (speechFrames sc) ->
    scanClosed sc ->
    exists sc' : Scan,
      scanLoopWith minus o vs audio rest sc = Ok sc'
      /\ map bounds (segments sc')
         = map bounds (segments sc) ++ keptRuns minus o rest (segmentStart sc).
Proof.
  induction 1 as [|r rest Hr _ IH]; intros sc Hf Hc;
    cbn [scanLoopWith keptRuns].
  - exists sc. rewrite app_nil_r. auto.
  - unfold scanStepWith. destruct (isSpeech r) eqn:Er.
    + match goal with |- context [scanLoopWith _ _ _ _ _ ?s] =>
        destruct (IH s) as (sc' & E & A) end.
      * cbn. apply Forall_app. split; [exact Hf|].
        constructor; [apply Hr; reflexivity|constructor].
      * unfold scanClosed. cbn. split; intro H.
        -- destruct (segmentStart sc); discriminate.
        -- destruct (speechFrames sc); discriminate.
      * exists sc'. split; [exact E|exact A].
    + destruct (segmentStart sc) as [start|] eqn:Es.
      * destruct (speechFrames sc) as [|f fs] eqn:Ef.
        { exfalso. unfold scanClosed in Hc. rewrite Es, Ef in Hc.
          destruct Hc as (_ & Hc). specialize (Hc eq_refl). discriminate. }
        cbn [length Nat.ltb Nat.leb].
        destruct (geq (minus (timestamp r) start) (minSpeechDurationMs o)).
        -- destruct (confidenceOf_in_bounds vs (f :: fs) Hf) as (conf & ->).
           match goal with |- context [scanLoopWith _ _ _ _ _ ?s] =>
             destruct (IH s) as (sc' & E & A) end.
           ++ constructor.
           ++ unfold scanClosed. cbn. tauto.
           ++ exists sc'. split; [exact E|]. rewrite A. cbn [segments segmentStart].
              rewrite map_app, <- app_assoc. reflexivity.
        -- match goal with |- context [scanLoopWith _ _ _ _ _ ?s] =>
             destruct (IH s) as (sc' & E & A) end.
           ++ constructor.
           ++ unfold scanClosed. cbn. tauto.
           ++ exists sc'. split; [exact E|exact A].
      * destruct (IH sc Hf Hc) as (sc' & E & A).
        exists sc'. split; [exact E|]. rewrite A, Es. reflexivity.
Qed.







(** ** The confidence of a segment and the frame indices *)

Lemma wellIndexed_selfIndexed (vs : list VADResult) :
  wellIndexed vs -> Forall (selfIndexed vs) vs.
Proof.
  intro Hw. apply Forall_forall. intros r Hin.
  destruct (In_nth_error vs r Hin) as (i & Hi).
  unfold selfIndexed, lookup. rewrite (Hw i r Hi).
  destruct (Z.of_nat i <? 0) eqn:E; [apply Z.ltb_lt in E; lia|].
  rewrite Nat2Z.id. exact Hi.
Qed.






(** ** Slices and chunks *)

Lemma slice_nat {A : Type} (a : list A) (i n : nat) :
  TypedArray.slice a (Z.of_nat i) (Z.of_nat i + Z.of_nat n)
  = firstn n (skipn i a).
Proof.
  unfold TypedArray.slice.
  destruct (Z.of_nat i <? 0) eqn:E1; [apply Z.ltb_lt in E1; lia|].
  destruct (Z.of_nat i + Z.of_nat n <? 0) eqn:E2; [apply Z.ltb_lt in E2; lia|].
  destruct (Nat.le_gt_cases i (length a)) as [Hle|Hgt].
  - rewrite (Z.min_l (Z.of_nat i)) by lia. rewrite Nat2Z.id.
    destruct (Nat.le_gt_cases (i + n) (length a)) as [Hle'|Hgt'].
    + rewrite Z.min_l by lia. f_equal. lia.
    + rewrite Z.min_r by lia.
      rewrite !firstn_all2; try reflexivity; rewrite length_skipn; lia.
  - rewrite !Z.min_r by lia. rewrite Nat2Z.id, Z.sub_diag.
    rewrite (skipn_all2 a) by lia. rewrite (skipn_all2 a) by lia.
    cbn. rewrite firstn_nil. reflexivity.
Qed.

Lemma skipn_repeat_zero (k n : nat) :
  skipn k (repeat 0%Q n) = repeat 0%Q (n - k).
Proof.
  revert k. induction n as [|n IH]; intro k.
  - cbn. apply skipn_nil.
  - destruct k as [|k]; [reflexivity|]. cbn [repeat skipn]. apply IH.
Qed.

Lemma chunk_length (f : nat) (audio : list Q) (k : nat) :
  length (chunk f audio k) = Nat.min f (length audio - k * f).
Proof. unfold chunk. rewrite length_firstn, length_skipn. reflexivity. Qed.

Lemma pad_length (f : nat) (frame : list Q) :
  (length frame <= f)%nat -> length (pad f frame) = f.
Proof. intro H. unfold pad. rewrite length_app, repeat_length. lia. Qed.

Lemma ceilDiv_bounds (n f : nat) :
  (0 < f)%nat ->
  (n <= ceilDiv n f * f)%nat
  /\ (forall k : nat, (k < ceilDiv n f)%nat -> (k * f < n)%nat).
Proof.
  intro Hf. unfold ceilDiv.
  pose proof (Nat.div_mod_eq (n + f - 1) f) as Hdm.
  pose proof (Nat.mod_upper_bound (n + f - 1) f ltac:(lia)) as Hub.
  set (q := ((n + f - 1) / f)%nat) in *.
  set (r := ((n + f - 1) mod f)%nat) in *.
  split; [nia|]. intros k Hk. nia.
Qed.

Lemma floorDiv_bounds (n f : nat) :
  (0 < f)%nat ->
  (forall k : nat, (k < floorDiv n f)%nat <-> (k * f + f <= n)%nat).
Proof.
  intro Hf. unfold floorDiv. intro k. split; intro H.
  - pose proof (Nat.Div0.mul_div_le n f) as Hq.
    assert (Hm : (f * S k <= f * (n / f))%nat) by (apply Nat.mul_le_mono_l; lia).
    lia.
  - assert (Hs : (S k <= n / f)%nat)
      by (apply Nat.div_le_lower_bound; lia).
    lia.
Qed.

Lemma ceilDiv_Z (n f : nat) :
  (0 < f)%nat ->
  Z.of_nat (ceilDiv n f) = (Z.of_nat n + Z.of_nat f - 1) / Z.of_nat f.
Proof.
  intro Hf. unfold ceilDiv. rewrite Nat2Z.inj_div. f_equal. lia.
Qed.

Lemma floorDiv_Z (n f : nat) :
  Z.of_nat (floorDiv n f) = Z.of_nat n / Z.of_nat f.
Proof. unfold floorDiv. apply Nat2Z.inj_div. Qed.

(** ** processAudio feeds the padded chunks *)

Section ProcessAudioChunks.

Context {T : Type}.
Variable processFrame : T -> list Q -> result VADResult * T.

Lemma processAudioLoop_chunks (f : nat) (audio : list Q) :
  (0 < f)%nat ->
  forall (j k fuel : nat) (v : T) (results : list VADResult),
    (k + j = ceilDiv (length audio) f)%nat ->
    (j < fuel)%nat ->
    processAudioLoop processFrame fuel (Z.of_nat f) audio v
                     (Z.of_nat (k * f)) results
    = Some (processFrames processFrame v
              (map (fun k => pad f (chunk f audio k)) (seq k j)) results).
Proof.
  intros Hf.
  destruct (ceilDiv_bounds (length audio) f Hf) as (Hup & Hlow).
  induction j as [|j IH]; intros k fuel v results Hk Hfuel;
    (destruct fuel as [|fuel]; [lia|]); cbn [processAudioLoop seq map processFrames].
  - destruct (Z.of_nat (k * f) <? Z.of_nat (length audio)) eqn:E;
      [|reflexivity].
    apply Z.ltb_lt in E. rewrite Nat.add_0_r in Hk. subst k. lia.
  - assert (Hin : (k * f < length audio)%nat) by (apply Hlow; lia).
    destruct (Z.of_nat (k * f) <? Z.of_nat (length audio)) eqn:E;
      [|apply Z.ltb_ge in E; lia].
    rewrite slice_nat. fold (chunk f audio k).
    assert (Hnext : Z.of_nat (k * f) + Z.of_nat f = Z.of_nat (S k * f)) by lia.
    rewrite Hnext.
    pose proof (chunk_length f audio k) as Hlen.
    destruct (Z.of_nat (length (chunk f audio k)) <? Z.of_nat f) eqn:Eshort.
    + apply Z.ltb_lt in Eshort.
      unfold TypedArray.set, TypedArray.zeros.
      rewrite Nat2Z.id, repeat_length.
      destruct (f <? length (chunk f audio k))%nat eqn:E2;
        [apply Nat.ltb_lt in E2; lia|].
      rewrite skipn_repeat_zero. fold (pad f (chunk f audio k)).
      destruct (processFrame v (pad f (chunk f audio k))) as [[r|e] v'];
        [|reflexivity].
      apply IH; lia.
    + apply Z.ltb_ge in Eshort.
      assert (Hpad : pad f (chunk f audio k) = chunk f audio k).
      { unfold pad. replace (f - length (chunk f audio k))%nat with 0%nat by lia.
        apply app_nil_r. }
      rewrite Hpad.
      destruct (processFrame v (chunk f audio k)) as [[r|e] v'];
        [|reflexivity].
      apply IH; lia.
Qed.

Lemma processAudioWith_chunks (f : nat) (audio : list Q) (v : T) :
  (0 < f)%nat ->
  processAudioWith processFrame (Z.of_nat f) v audio
  = Some (processFrames processFrame v (paddedChunks f audio) []).
Proof.
  intro Hf. unfold processAudioWith, paddedChunks.
  apply (processAudioLoop_chunks f audio Hf
           (ceilDiv (length audio) f) 0 (S (length audio)) v []);
    [reflexivity|].
  destruct (ceilDiv_bounds (length audio) f Hf) as (_ & Hlow).
  destruct (ceilDiv (length audio) f) as [|m] eqn:Em; [lia|].
  specialize (Hlow m ltac:(lia)). nia.
Qed.

Lemma processFrames_ok_length (frames : list (list Q)) :
  forall (v v' : T) (acc results : list VADResult),
    processFrames processFrame v frames acc = (Ok results, v') ->
    length results = (length acc + length frames)%nat.
Proof.
  induction frames as [|fr frames IH]; intros v v' acc results H; cbn in H.
  - injection H as <- _. cbn. lia.
  - destruct (processFrame v fr) as [[r|e] v1]; [|discriminate].
    rewrite (IH _ _ _ _ H), length_app. cbn. lia.
Qed.

End ProcessAudioChunks.

(** The padded chunks are the buffer followed by the padding of the last
    chunk, cut every [f] samples. *)
Lemma paddedChunks_lengths (f : nat) (audio : list Q) :
  Forall (fun fr => length fr = f) (paddedChunks f audio).
Proof.
  unfold paddedChunks. apply Forall_map, Forall_forall. intros k _.
  apply pad_length. rewrite chunk_length. lia.
Qed.

Lemma concat_padded_from (f : nat) (audio : list Q) :
  (0 < f)%nat ->
  forall j k : nat,
    (k + S j = ceilDiv (length audio) f)%nat ->
    concat (map (fun k => pad f (chunk f audio k)) (seq k (S j)))
    = skipn (k * f) audio
      ++ repeat 0%Q (ceilDiv (length audio) f * f - length audio).
Proof.
  intro Hf.
  destruct (ceilDiv_bounds (length audio) f Hf) as (Hup & Hlow).
  induction j as [|j IH]; intros k Hk.
  - cbn [seq map concat]. rewrite app_nil_r. unfold pad.
    assert (Hall : chunk f audio k = skipn (k * f) audio).
    { unfold chunk. apply firstn_all2. rewrite length_skipn. nia. }
    rewrite Hall, length_skipn. f_equal. f_equal.
    specialize (Hlow k ltac:(lia)). nia.
  - change (seq k (S (S j))) with (k :: seq (S k) (S j)).
    cbn [map concat]. rewrite (IH (S k)) by lia.
    assert (Hfull : (k * f + f <= length audio)%nat).
    { specialize (Hlow (S k) ltac:(lia)). lia. }
    assert (Hpad : pad f (chunk f audio k) = chunk f audio k).
    { unfold pad. rewrite chunk_length.
      replace (f - Nat.min f (length audio - k * f))%nat with 0%nat by lia.
      apply app_nil_r. }
    rewrite Hpad, app_assoc. f_equal.
    unfold chunk.
    replace (S k * f)%nat with (f + k * f)%nat by lia.
    rewrite <- skipn_skipn. apply firstn_skipn.
Qed.

Lemma concat_paddedChunks (f : nat) (audio : list Q) :
  (0 < f)%nat ->
  concat (paddedChunks f audio)
  = audio ++ repeat 0%Q (ceilDiv (length audio) f * f - length audio).
Proof.
  intro Hf. unfold paddedChunks.
  destruct (ceilDiv (length audio) f) as [|m] eqn:Em.
  - destruct (ceilDiv_bounds (length audio) f Hf) as (Hup & _).
    rewrite Em in Hup. cbn in Hup.
    assert (Hnil : audio = []) by (destruct audio; [reflexivity|cbn in Hup; lia]).
    subst audio. reflexivity.
  - pose proof (concat_padded_from f audio Hf m 0) as H.
    rewrite Em in H. rewrite H by lia. reflexivity.
Qed.

(** ** createFrames keeps the whole chunks *)

Lemma createFramesLoop_chunks (f : nat) (audio : list Q) :
  (0 < f)%nat ->
  forall (j k fuel : nat) (frames : list (list Q)),
    (k + j = floorDiv (length audio) f)%nat ->
    (j < fuel)%nat ->
    AudioUtils.createFramesLoop fuel audio (Z.of_nat f) (Z.of_nat f)
                                (Z.of_nat (k * f)) frames
    = Some (frames ++ map (chunk f audio) (seq k j)).
Proof.
  intro Hf.
  pose proof (floorDiv_bounds (length audio) f Hf) as Hb.
  induction j as [|j IH]; intros k fuel frames Hk Hfuel;
    (destruct fuel as [|fuel]; [lia|]); cbn [AudioUtils.createFramesLoop seq map].
  - destruct (Z.of_nat (k * f) <=? Z.of_nat (length audio) - Z.of_nat f) eqn:E.
    + apply Z.leb_le in E.
      assert (Hlt : (k < floorDiv (length audio) f)%nat) by (apply Hb; lia).
      lia.
    + rewrite app_nil_r. reflexivity.
  - assert (Hin : (k * f + f <= length audio)%nat) by (apply Hb; lia).
    destruct (Z.of_nat (k * f) <=? Z.of_nat (length audio) - Z.of_nat f) eqn:E;
      [|apply Z.leb_gt in E; lia].
    rewrite slice_nat. fold (chunk f audio k).
    assert (Hnext : Z.of_nat (k * f) + Z.of_nat f = Z.of_nat (S k * f)) by lia.
    rewrite Hnext, (IH (S k)) by lia.
    rewrite <- app_assoc. reflexivity.
Qed.

Lemma createFrames_wholeChunks (f : nat) (audio : list Q) :
  (0 < f)%nat ->
  AudioUtils.createFrames audio (Z.of_nat f) None = Some (wholeChunks f audio).
Proof.
  intro Hf. unfold AudioUtils.createFrames, wholeChunks.
  rewrite (createFramesLoop_chunks f audio Hf (floorDiv (length audio) f) 0);
    [reflexivity|reflexivity|].
  pose proof (floorDiv_bounds (length audio) f Hf) as Hb.
  destruct (floorDiv (length audio) f) as [|q] eqn:Eq; [lia|].
  assert (Hq : (q * f + f <= length audio)%nat) by (apply Hb; lia).
  nia.
Qed.

Lemma wholeChunks_lengths (f : nat) (audio : list Q) :
  (0 < f)%nat ->
  Forall (fun fr => length fr = f) (wholeChunks f audio).
Proof.
  intro Hf. unfold wholeChunks. apply Forall_map, Forall_forall.
  intros k Hin. apply in_seq in Hin.
  rewrite chunk_length.
  pose proof (proj1 (floorDiv_bounds (length audio) f Hf k) ltac:(lia)). lia.
Qed.

Lemma concat_whole_from (f : nat) (audio : list Q) :
  (0 < f)%nat ->
  forall j k : nat,
    (k + j = floorDiv (length audio) f)%nat ->
    concat (map (chunk f audio) (seq k j))
    = firstn (j * f) (skipn (k * f) audio).
Proof.
  intro Hf.
  pose proof (floorDiv_bounds (length audio) f Hf) as Hb.
  induction j as [|j IH]; intros k Hk; [reflexivity|].
  cbn [seq map concat]. rewrite (IH (S k)) by lia.
  unfold chunk.
  replace (S k * f)%nat with (f + k * f)%nat by lia.
  rewrite <- skipn_skipn.
  replace (S j * f)%nat with (f + j * f)%nat by lia.
  set (l := skipn (k * f) audio).
  rewrite firstn_skipn_comm.
  replace (firstn f l) with (firstn f (firstn (f + j * f) l))
    by (rewrite firstn_firstn; f_equal; lia).
  apply firstn_skipn.
Qed.

Lemma concat_wholeChunks (f : nat) (audio : list Q) :
  (0 < f)%nat ->
  concat (wholeChunks f audio)
  = firstn (floorDiv (length audio) f * f) audio.
Proof.
  intro Hf. unfold wholeChunks.
  rewrite (concat_whole_from f audio Hf (floorDiv (length audio) f) 0);
    reflexivity.
Qed.

(** ** processFrame on a frame of the configured size *)

Lemma processFrame_answers (v : SileroVAD.t) (run : InferenceSession)
    (fr : list Q) :
  SileroVAD.session v = Some run ->
  alwaysAnswers run ->
  Z.of_nat (length fr) = frameSize (SileroVAD.options v) ->
  exists (r : VADResult) (v' : SileroVAD.t),
    SileroVAD.processFrame v fr = (Ok r, v')
    /\ SileroVAD.session v' = Some run
    /\ SileroVAD.options v' = SileroVAD.options v.
Proof.
  intros Hs Hrun Hlen. unfold SileroVAD.processFrame.
  rewrite Hs. apply Z.eqb_eq in Hlen. rewrite Hlen. cbn [negb].
  destruct (Hrun (SileroVAD.runs v) fr (SileroVAD.h v)
              (sampleRate (SileroVAD.options v))) as (out & -> & ->).
  cbn. eauto.
Qed.

Lemma processFrames_answers (run : InferenceSession) (fs : Z)
    (frames : list (list Q)) :
  alwaysAnswers run ->
  Forall (fun fr => Z.of_nat (length fr) = fs) frames ->
  forall (v : SileroVAD.t) (acc : list VADResult),
    SileroVAD.session v = Some run ->
    frameSize (SileroVAD.options v) = fs ->
    exists (results : list VADResult) (v' : SileroVAD.t),
      processFrames SileroVAD.processFrame v frames acc = (Ok results, v').
Proof.
  intros Hrun. induction 1 as [|fr frames Hfr _ IH]; intros v acc Hs Hfs; cbn.
  - eauto.
  - destruct (processFrame_answers v run fr Hs Hrun ltac:(congruence))
      as (r & v' & -> & Hs' & Ho').
    apply IH; congruence.
Qed.

Lemma probabilityOf_keeps (sqrt : Q -> Q) (v : SileroVADFallback.t)
    (fr : list Q) :
  SileroVADFallback.options (snd (SileroVADFallback.probabilityOf sqrt v fr))
  = SileroVADFallback.options v
  /\ SileroVADFallback.state (snd (SileroVADFallback.probabilityOf sqrt v fr))
     = SileroVADFallback.state v
  /\ SileroVADFallback.session (snd (SileroVADFallback.probabilityOf sqrt v fr))
     = SileroVADFallback.session v.
Proof.
  unfold SileroVADFallback.probabilityOf.
  destruct (SileroVADFallback.useOnnxModel v);
    destruct (SileroVADFallback.session v) as [run|] eqn:Es; cbn; auto.
  destruct (run _ _ _ _) as [results|]; cbn; auto.
  destruct (match stateN results with
            | Some newState => TypedArray.set (SileroVADFallback.h v) newState
            | None => Ok (SileroVADFallback.h v) end); cbn; auto.
Qed.

(** In the revision with the fallback, [processFrame] returns a decision for
    every frame of the configured size. *)
Lemma fallback_processFrame_total (sqrt : Q -> Q) (v : SileroVADFallback.t)
    (fr : list Q) :
  Z.of_nat (length fr) = frameSize (SileroVADFallback.options v) ->
  exists (r : VADResult) (v' : SileroVADFallback.t),
    SileroVADFallback.processFrame sqrt v fr = (Ok r, v')
    /\ SileroVADFallback.options v' = SileroVADFallback.options v.
Proof.
  intro Hlen. unfold SileroVADFallback.processFrame.
  apply Z.eqb_eq in Hlen. rewrite Hlen. cbn [negb].
  destruct (probabilityOf_keeps sqrt v fr) as (Ho & _).
  destruct (SileroVADFallback.probabilityOf sqrt v fr) as [p v1].
  cbn in Ho. cbn. eauto.
Qed.

Lemma fallback_processFrames_total (sqrt : Q -> Q) (fs : Z)
    (frames : list (list Q)) :
  Forall (fun fr => Z.of_nat (length fr) = fs) frames ->
  forall (v : SileroVADFallback.t) (acc : list VADResult),
    frameSize (SileroVADFallback.options v) = fs ->
    exists (results : list VADResult) (v' : SileroVADFallback.t),
      processFrames (SileroVADFallback.processFrame sqrt) v frames acc
      = (Ok results, v').
Proof.
  induction 1 as [|fr frames Hfr _ IH]; intros v acc Hfs; cbn.
  - eauto.
  - destruct (fallback_processFrame_total sqrt v fr ltac:(congruence))
      as (r & v' & -> & Ho').
    apply IH; congruence.
Qed.

Lemma Forall_length_Z (f : nat) (frames : list (list Q)) :
  Forall (fun fr => length fr = f) frames ->
  Forall (fun fr => Z.of_nat (length fr) = Z.of_nat f) frames.
Proof. apply Forall_impl. intros fr H. congruence. Qed.

(** ** The two tail policies *)

(** C6.  For a positive frame size, [processAudio] feeds [processFrame] the
    buffer cut every [frameSize] samples with the last short chunk padded with
    zeros, so that a call that returns gives [ceil(n / frameSize)] decisions
    (it returns whenever the backend answers, and always in the revision with
    the fallback); [createFrames] with the default hop returns the whole
    chunks only, [floor(n / frameSize)] frames of [frameSize] samples, the
    tail being dropped. *)
Theorem C6_processAudio_pads_createFrames_drops (audio : list Q) (fs : Z) :
  0 < fs ->
  let n := Z.of_nat (length audio) in
  let f := Z.to_nat fs in
  (forall v : SileroVAD.t,
      frameSize (SileroVAD.options v) = fs ->
      SileroVAD.processAudio v audio
      = Some (processFrames SileroVAD.processFrame v (paddedChunks f audio) [])
      /\ (forall (results : list VADResult) (v' : SileroVAD.t),
             SileroVAD.processAudio v audio = Some (Ok results, v') ->
             Z.of_nat (length results) = (n + fs - 1) / fs)
      /\ (forall run : InferenceSession,
             SileroVAD.session v = Some run -> alwaysAnswers run ->
             exists (results : list VADResult) (v' : SileroVAD.t),
               SileroVAD.processAudio v audio = Some (Ok results, v')))
  /\ (forall (sqrt : Q -> Q) (v : SileroVADFallback.t),
         frameSize (SileroVADFallback.options v) = fs ->
         exists (results : list VADResult) (v' : SileroVADFallback.t),
           SileroVADFallback.processAudio sqrt v audio = Some (Ok results, v')
           /\ Z.of_nat (length results) = (n + fs - 1) / fs)
  /\ (Z.of_nat (length (paddedChunks f audio)) = (n + fs - 1) / fs
      /\ Forall (fun fr => Z.of_nat (length fr) = fs) (paddedChunks f audio)
      /\ concat (paddedChunks f audio)
         = audio ++ repeat 0%Q (length (paddedChunks f audio) * f - length audio))
  /\ (AudioUtils.createFrames audio fs None = Some (wholeChunks f audio)
      /\ Z.of_nat (length (wholeChunks f audio)) = n / fs
      /\ Forall (fun fr => Z.of_nat (length fr) = fs) (wholeChunks f audio)
      /\ concat (wholeChunks f audio)
         = firstn (length (wholeChunks f audio) * f) audio).
Proof.
  intros Hfs n f.
  assert (Hf : (0 < f)%nat) by (unfold f; lia).
  assert (Efs : fs = Z.of_nat f) by (unfold f; lia).
  assert (Hcount : Z.of_nat (length (paddedChunks f audio)) = (n + fs - 1) / fs).
  { unfold paddedChunks. rewrite length_map, length_seq, ceilDiv_Z by exact Hf.
    rewrite <- Efs. reflexivity. }
  assert (Hlens : Forall (fun fr => Z.of_nat (length fr) = fs)
                         (paddedChunks f audio)).
  { rewrite Efs. apply Forall_length_Z, paddedChunks_lengths. }
  split; [|split; [|split]].
  - intros v Hv.
    assert (Hpa : SileroVAD.processAudio v audio
                  = Some (processFrames SileroVAD.processFrame v
                            (paddedChunks f audio) [])).
    { unfold SileroVAD.processAudio. rewrite Hv, Efs.
      apply processAudioWith_chunks. exact Hf. }
    split; [exact Hpa|]. split.
    + intros results v' H. rewrite Hpa in H. injection H as H.
      apply processFrames_ok_length in H. rewrite H. exact Hcount.
    + intros run Hs Hrun. rewrite Hpa.
      destruct (processFrames_answers run fs (paddedChunks f audio) Hrun Hlens
                  v [] Hs Hv) as (results & v' & ->).
      eauto.
  - intros sqrt v Hv.
    assert (Hpa : SileroVADFallback.processAudio sqrt v audio
                  = Some (processFrames (SileroVADFallback.processFrame sqrt) v
                            (paddedChunks f audio) [])).
    { unfold SileroVADFallback.processAudio. rewrite Hv, Efs.
      apply processAudioWith_chunks. exact Hf. }
    destruct (fallback_processFrames_total sqrt fs (paddedChunks f audio) Hlens
                v [] Hv) as (results & v' & H).
    exists results, v'. rewrite Hpa, H. split; [reflexivity|].
    apply processFrames_ok_length in H. rewrite H. exact Hcount.
  - split; [exact Hcount|]. split; [exact Hlens|].
    rewrite concat_paddedChunks by exact Hf.
    unfold paddedChunks. rewrite length_map, length_seq. reflexivity.
  - split; [rewrite Efs; apply createFrames_wholeChunks; exact Hf|].
    split; [|split].
    + unfold wholeChunks. rewrite length_map, length_seq, floorDiv_Z.
      rewrite <- Efs. reflexivity.
    + rewrite Efs. apply Forall_length_Z, wholeChunks_lengths. exact Hf.
    + rewrite concat_wholeChunks by exact Hf.
      unfold wholeChunks. rewrite length_map, length_seq. reflexivity.
Qed.

(** A buffer of 3172 samples with frames of 1536: [processAudio] gives three
    decisions, [createFrames] two frames. *)
Lemma C6_witness :
  (exists (results : list VADResult) (v' : SileroVAD.t),
      SileroVAD.processAudio (Sample.vad (Sample.constantBackend 0.9))
                             SampleAudio.buffer = Some (Ok results, v')
      /\ Z.of_nat (length results) = 3)
  /\ (exists frames : list (list Q),
         AudioUtils.createFrames SampleAudio.buffer 1536 None = Some frames
         /\ Z.of_nat (length frames) = 2).
Proof.
  destruct (C6_processAudio_pads_createFrames_drops SampleAudio.buffer 1536
              ltac:(lia)) as (Hstrict & _ & _ & Hcreate & Hfloor & _).
  split.
  - destruct (Hstrict (Sample.vad (Sample.constantBackend 0.9)) eq_refl)
      as (_ & Hceil & Htotal).
    destruct (Htotal (Sample.constantBackend 0.9) eq_refl) as (results & v' & H).
    + intros k input st sr. eexists. split; reflexivity.
    + exists results, v'. split; [exact H|].
      rewrite (Hceil results v' H). reflexivity.
  - eexists. split; [exact Hcreate|]. rewrite Hfloor. reflexivity.
Defined.

(** ** Backend failures *)

(** src/silero-vad.ts: a failing inference is thrown to the caller, the
    activity state is left as it was, and the model has been run. *)
Lemma processFrame_failure_throws (v : SileroVAD.t) (run : InferenceSession)
    (fr : list Q) :
  SileroVAD.session v = Some run ->
  Z.of_nat (length fr) = frameSize (SileroVAD.options v) ->
  inferenceFails run (SileroVAD.runs v) fr (SileroVAD.h v)
                 (sampleRate (SileroVAD.options v)) = true ->
  exists v' : SileroVAD.t,
    SileroVAD.processFrame v fr = (Throw ProcessingError, v')
    /\ SileroVAD.state v' = SileroVAD.state v
    /\ SileroVAD.h v' = SileroVAD.h v
    /\ SileroVAD.session v' = Some run
    /\ SileroVAD.options v' = SileroVAD.options v
    /\ SileroVAD.runs v' = S (SileroVAD.runs v).
Proof.
  intros Hs Hlen Hfail. unfold SileroVAD.processFrame, inferenceFails in *.
  rewrite Hs. apply Z.eqb_eq in Hlen. rewrite Hlen. cbn [negb].
  destruct (run _ _ _ _) as [results|].
  - destruct (stateN results) as [newState|]; [|discriminate].
    unfold TypedArray.set. rewrite Hfail. eexists. cbn. auto 10.
  - eexists. cbn. auto 10.
Qed.

(** src/silero-vad.ts: every call with a session and a frame of the
    configured size runs the model, whatever happened on earlier calls. *)
Lemma processFrame_runs_model (v : SileroVAD.t) (run : InferenceSession)
    (fr : list Q) :
  SileroVAD.session v = Some run ->
  Z.of_nat (length fr) = frameSize (SileroVAD.options v) ->
  SileroVAD.runs (snd (SileroVAD.processFrame v fr)) = S (SileroVAD.runs v).
Proof.
  intros Hs Hlen. unfold SileroVAD.processFrame.
  rewrite Hs. apply Z.eqb_eq in Hlen. rewrite Hlen. cbn [negb].
  destruct (run _ _ _ _) as [results|]; [|reflexivity].
  destruct (match stateN results with
            | Some newState => TypedArray.set (SileroVAD.h v) newState
            | None => Ok (SileroVAD.h v) end); reflexivity.
Qed.

(** The revision with the fallback, once [useOnnxModel] is off: a frame of
    the configured size gets a decision from the energy heuristic; the model
    is not run and nothing is written to the console. *)
Lemma fallback_processFrame_energy (sqrt : Q -> Q) (v : SileroVADFallback.t)
    (fr : list Q) :
  SileroVADFallback.useOnnxModel v = false ->
  Z.of_nat (length fr) = frameSize (SileroVADFallback.options v) ->
  exists (r : VADResult) (v' : SileroVADFallback.t),
    SileroVADFallback.processFrame sqrt v fr = (Ok r, v')
    /\ probability r = SileroVADFallback.energyBasedVAD sqrt fr
    /\ SileroVADFallback.runs v' = SileroVADFallback.runs v
    /\ SileroVADFallback.console v' = SileroVADFallback.console v
    /\ SileroVADFallback.useOnnxModel v' = false.
Proof.
  intros Hoff Hlen. unfold SileroVADFallback.processFrame.
  apply Z.eqb_eq in Hlen. rewrite Hlen. cbn [negb].
  unfold SileroVADFallback.probabilityOf. rewrite Hoff.
  eexists. eexists. cbn. split; [reflexivity|]. cbn. auto.
Qed.

Lemma fallback_processFrame_stays_off (sqrt : Q -> Q)
    (v : SileroVADFallback.t) (fr : list Q) :
  SileroVADFallback.useOnnxModel v = false ->
  SileroVADFallback.useOnnxModel
    (snd (SileroVADFallback.processFrame sqrt v fr)) = false.
Proof.
  intro Hoff. unfold SileroVADFallback.processFrame.
  destruct (negb _); [exact Hoff|].
  unfold SileroVADFallback.probabilityOf. rewrite Hoff. cbn. exact Hoff.
Qed.

(** No call turns [useOnnxModel] back on. *)
Lemma fallback_perform_stays_off (sqrt : Q -> Q) (v : SileroVADFallback.t)
    (k : FallbackSession.call) :
  SileroVADFallback.useOnnxModel v = false ->
  SileroVADFallback.useOnnxModel (FallbackSession.perform sqrt v k) = false.
Proof.
  intro Hoff. destruct k as [loaded|fr|a| |]; cbn [FallbackSession.perform].
  - unfold SileroVADFallback.initialize.
    destruct loaded as [run|]; [|reflexivity].
    destruct (run _ _ _ _); [exact Hoff|reflexivity].
  - apply fallback_processFrame_stays_off. exact Hoff.
  - unfold SileroVADFallback.processAudio, processAudioWith.
    destruct (processAudioLoop (SileroVADFallback.processFrame sqrt) _ _ _ _ _ _)
      as [[r v']|] eqn:E; [|exact Hoff].
    eapply (processAudioLoop_keeps (SileroVADFallback.processFrame sqrt)
              (fun w => SileroVADFallback.useOnnxModel w = false)
              (fallback_processFrame_stays_off sqrt)); eassumption.
  - exact Hoff.
  - exact Hoff.
Qed.

Lemma fallback_performAll_stays_off (sqrt : Q -> Q)
    (calls : list FallbackSession.call) :
  forall v : SileroVADFallback.t,
    SileroVADFallback.useOnnxModel v = false ->
    SileroVADFallback.useOnnxModel (FallbackSession.performAll sqrt v calls)
    = false.
Proof.
  unfold FallbackSession.performAll.
  induction calls as [|k calls IH]; intros v Hoff; cbn; [exact Hoff|].
  apply IH. apply fallback_perform_stays_off. exact Hoff.
Qed.

(** C1, as the code has it.  In the revision of the class that has the energy
    fallback, the first failing inference is answered with the energy
    heuristic, is logged, and turns the model off for good: after any further
    calls, [processFrame] on a frame of the configured size returns a
    decision computed from the energy probability, without running the model
    and without logging again.  In src/silero-vad.ts there is no fallback:
    a failing inference makes [processFrame] throw, with the activity state
    unchanged, and every later call runs the model again. *)
Theorem C1_inference_failure_fallback_or_throw (sqrt : Q -> Q) :
  (forall (v : SileroVADFallback.t) (run : InferenceSession) (fr : list Q),
      SileroVADFallback.useOnnxModel v = true ->
      SileroVADFallback.session v = Some run ->
      Z.of_nat (length fr) = frameSize (SileroVADFallback.options v) ->
      inferenceFails run (SileroVADFallback.runs v) fr (SileroVADFallback.h v)
                     (sampleRate (SileroVADFallback.options v)) = true ->
      exists (r : VADResult) (v' : SileroVADFallback.t),
        SileroVADFallback.processFrame sqrt v fr = (Ok r, v')
        /\ probability r = SileroVADFallback.energyBasedVAD sqrt fr
        /\ SileroVADFallback.useOnnxModel v' = false
        /\ SileroVADFallback.console v'
           = SileroVADFallback.console v ++ [WarnInferenceFailed]
        /\ forall (calls : list FallbackSession.call) (fr' : list Q),
             let w := FallbackSession.performAll sqrt v' calls in
             Z.of_nat (length fr') = frameSize (SileroVADFallback.options w) ->
             exists (r' : VADResult) (w' : SileroVADFallback.t),
               SileroVADFallback.processFrame sqrt w fr' = (Ok r', w')
               /\ probability r' = SileroVADFallback.energyBasedVAD sqrt fr'
               /\ SileroVADFallback.runs w' = SileroVADFallback.runs w
               /\ SileroVADFallback.console w' = SileroVADFallback.console w
               /\ SileroVADFallback.useOnnxModel w' = false)
  /\ (forall (v : SileroVAD.t) (run : InferenceSession) (fr : list Q),
         SileroVAD.session v = Some run ->
         Z.of_nat (length fr) = frameSize (SileroVAD.options v) ->
         inferenceFails run (SileroVAD.runs v) fr (SileroVAD.h v)
                        (sampleRate (SileroVAD.options v)) = true ->
         exists v' : SileroVAD.t,
           SileroVAD.processFrame v fr = (Throw ProcessingError, v')
           /\ SileroVAD.getState v' = SileroVAD.getState v
           /\ forall fr' : list Q,
                Z.of_nat (length fr') = frameSize (SileroVAD.options v') ->
                SileroVAD.runs (snd (SileroVAD.processFrame v' fr'))
                = S (SileroVAD.runs v')).
Proof.
  split.
  - intros v run fr Hon Hs Hlen Hfail.
    assert (Hfirst :
      SileroVADFallback.probabilityOf sqrt v fr
      = (SileroVADFallback.energyBasedVAD sqrt fr,
         {| SileroVADFallback.session := SileroVADFallback.session v;
            SileroVADFallback.options := SileroVADFallback.options v;
            SileroVADFallback.state := SileroVADFallback.state v;
            SileroVADFallback.h := SileroVADFallback.h v;
            SileroVADFallback.c := SileroVADFallback.c v;
            SileroVADFallback.useOnnxModel := false;
            SileroVADFallback.runs := S (SileroVADFallback.runs v);
            SileroVADFallback.console :=
              SileroVADFallback.console v ++ [WarnInferenceFailed] |})).
    { unfold SileroVADFallback.probabilityOf, inferenceFails in *.
      rewrite Hon, Hs.
      destruct (run _ _ _ _) as [results|]; [|reflexivity].
      destruct (stateN results) as [newState|]; [|discriminate].
      unfold TypedArray.set. rewrite Hfail. reflexivity. }
    unfold SileroVADFallback.processFrame.
    apply Z.eqb_eq in Hlen. rewrite Hlen. cbn [negb]. rewrite Hfirst.
    eexists. eexists. split; [reflexivity|]. cbn.
    split; [reflexivity|]. split; [reflexivity|]. split; [reflexivity|].
    intros calls fr' Hlen'.
    apply fallback_processFrame_energy; [|exact Hlen'].
    apply fallback_performAll_stays_off. reflexivity.
  - intros v run fr Hs Hlen Hfail.
    destruct (processFrame_failure_throws v run fr Hs Hlen Hfail)
      as (v' & H & Hst & _ & Hs' & _ & _).
    exists v'. split; [exact H|]. split; [exact Hst|].
    intros fr' Hlen'. apply (processFrame_runs_model v' run fr' Hs' Hlen').
Qed.

(** A backend that fails on the first frame only.  With the fallback the
    second frame is still decided by the energy heuristic and the model is
    not run again; in src/silero-vad.ts the first call throws. *)
Lemma C1_witness :
  (exists (r : VADResult) (v' : SileroVADFallback.t),
      SileroVADFallback.processFrame Sample.sqrtQ
        (Sample.vadFallback (Sample.failOnRun 1 0.9)) Sample.silence
      = (Ok r, v')
      /\ probability r
         = SileroVADFallback.energyBasedVAD Sample.sqrtQ Sample.silence
      /\ exists (r' : VADResult) (w' : SileroVADFallback.t),
           SileroVADFallback.processFrame Sample.sqrtQ v' Sample.silence
           = (Ok r', w')
           /\ probability r'
              = SileroVADFallback.energyBasedVAD Sample.sqrtQ Sample.silence
           /\ SileroVADFallback.runs w' = SileroVADFallback.runs v')
  /\ (exists v' : SileroVAD.t,
         SileroVAD.processFrame (Sample.vad (Sample.failOnRun 0 0.9))
                                Sample.silence
         = (Throw ProcessingError, v')).
Proof.
  destruct (C1_inference_failure_fallback_or_throw Sample.sqrtQ)
    as (Hfallback & Hthrow).
  split.
  - destruct (Hfallback (Sample.vadFallback (Sample.failOnRun 1 0.9))
                (Sample.failOnRun 1 0.9) Sample.silence
                eq_refl eq_refl eq_refl eq_refl)
      as (r & v' & H & Hp & Hoff & Hlog & Hlater).
    exists r, v'. split; [exact H|]. split; [exact Hp|].
    destruct (Hlater [] Sample.silence) as (r' & w' & H' & Hp' & Hr' & _).
    + cbn [FallbackSession.performAll fold_left].
      destruct (fallback_processFrame_total Sample.sqrtQ
                  (Sample.vadFallback (Sample.failOnRun 1 0.9)) Sample.silence
                  eq_refl) as (r0 & v0 & H0 & Ho).
      rewrite H0 in H. injection H as _ <-. rewrite Ho. reflexivity.
    + exists r', w'. cbn [FallbackSession.performAll fold_left] in H', Hr'. auto.
  - destruct (Hthrow (Sample.vad (Sample.failOnRun 0 0.9))
                (Sample.failOnRun 0 0.9) Sample.silence
                eq_refl eq_refl eq_refl) as (v' & H & _).
    exists v'. exact H.
Defined.

(** The claim as written fails on src/silero-vad.ts: with a backend that
    fails on every call, the second [processFrame] throws like the first, and
    the model has been run twice. *)
Lemma C1_counterexample :
  fst (SileroVAD.processFrame (Sample.vad Sample.failingBackend) Sample.silence)
  = Throw ProcessingError
  /\ fst (SileroVAD.processFrame
            (snd (SileroVAD.processFrame (Sample.vad Sample.failingBackend)
                                         Sample.silence))
            Sample.silence)
     = Throw ProcessingError
  /\ SileroVAD.runs
       (snd (SileroVAD.processFrame
               (snd (SileroVAD.processFrame (Sample.vad Sample.failingBackend)
                                            Sample.silence))
               Sample.silence))
     = 2%nat.
Proof. repeat split; vm_compute; reflexivity. Qed.

(** ** Remarks on the preconditions *)

Lemma processFrame_options (v : SileroVAD.t) (fr : list Q) :
  SileroVAD.options (snd (SileroVAD.processFrame v fr)) = SileroVAD.options v.
Proof.
  unfold SileroVAD.processFrame.
  destruct (SileroVAD.session v) as [run|]; [|reflexivity].
  destruct (negb _); [reflexivity|].
  destruct (run _ _ _ _) as [results|]; [|reflexivity].
  destruct (match stateN results with
            | Some newState => TypedArray.set (SileroVAD.h v) newState
            | None => Ok (SileroVAD.h v) end); reflexivity.
Qed.

Lemma perform_options (v : SileroVAD.t) (k : Session.call) :
  SileroVAD.options (Session.perform v k) = SileroVAD.options v.
Proof.
  destruct k as [loaded|fr|a| |]; cbn [Session.perform]; try reflexivity.
  - destruct loaded; reflexivity.
  - apply processFrame_options.
  - unfold SileroVAD.processAudio, processAudioWith.
    destruct (processAudioLoop SileroVAD.processFrame _ _ _ _ _ _)
      as [[r v']|] eqn:E; [|reflexivity].
    apply (processAudioLoop_keeps SileroVAD.processFrame
             (fun w => SileroVAD.options w = SileroVAD.options v)
             (fun w f H => eq_trans (processFrame_options w f) H)
             _ _ _ _ _ _ _ _ eq_refl E).
Qed.

Lemma performAll_options (calls : list Session.call) :
  forall v : SileroVAD.t,
    SileroVAD.options (Session.performAll v calls) = SileroVAD.options v.
Proof.
  unfold Session.performAll.
  induction calls as [|k calls IH]; intro v; cbn; [reflexivity|].
  rewrite IH. apply perform_options.
Qed.

(** The frame size of a constructed object is 1536 and stays so: the
    positive frame size that the tail-policy theorem asks for always holds. *)
Lemma session_frameSize (o : VADOptions) (v0 : SileroVAD.t)
    (calls : list Session.call) :
  SileroVAD.constructor o = Ok v0 ->
  frameSize (SileroVAD.options (Session.performAll v0 calls)) = 1536.
Proof.
  intro Hc. rewrite performAll_options.
  unfold SileroVAD.constructor, validateOptions in Hc.
  destruct (negb _); [discriminate|].
  destruct (frameSize (mergeOptions o) =? 1536) eqn:E; cbn [negb] in Hc;
    destruct (less _ _ || less _ _); try discriminate;
    injection Hc as <-; cbn; [apply Z.eqb_eq; exact E|reflexivity].
Qed.

(** With a frame size of zero [createFrames] never returns. *)
Example createFrames_zero_frameSize :
  AudioUtils.createFrames [1; 2; 3]%Q 0 None = None.
Proof. reflexivity. Qed.

(** Decisions collected by a second [processAudio] without a [reset()]
    carry the frame indices 5, 6, 7; handing them to
    [extractSpeechSegments] throws. *)
Example decisions_after_earlier_frames :
  map frame SampleTwoBuffers.decisions = [5; 6; 7]
  /\ map isSpeech SampleTwoBuffers.decisions = [true; true; false]
  /\ extractSpeechSegments (SileroVAD.getOptions SampleTwoBuffers.afterFirst)
       SampleTwoBuffers.decisions SampleTwoBuffers.second
     = Throw TypeError.
Proof. repeat split; vm_compute; reflexivity. Qed.

(** * Further properties of the code *)

(** ** processFrame: failures and successes *)

(** X1.  A [processFrame] call that throws, for whatever reason, leaves the
    activity state, the recurrent buffers, the options and the session as
    they were. *)
Theorem processFrame_throw_changes_nothing
    (v v' : SileroVAD.t) (audioFrame : list Q) (e : error) :
  SileroVAD.processFrame v audioFrame = (Throw e, v') ->
  SileroVAD.getState v' = SileroVAD.getState v
  /\ SileroVAD.h v' = SileroVAD.h v
  /\ SileroVAD.c v' = SileroVAD.c v
  /\ SileroVAD.getOptions v' = SileroVAD.getOptions v
  /\ SileroVAD.session v' = SileroVAD.session v
  /\ (SileroVAD.session v = None -> e = NotInitialized)
  /\ (SileroVAD.session v <> None ->
      Z.of_nat (length audioFrame) <> frameSize (SileroVAD.options v) ->
      e = FrameSizeError (frameSize (SileroVAD.options v))
                         (Z.of_nat (length audioFrame))).
Proof.
  unfold SileroVAD.processFrame, SileroVAD.getState, SileroVAD.getOptions.
  destruct (SileroVAD.session v) as [run|] eqn:Es.
  - destruct (Z.of_nat (length audioFrame) =? frameSize (SileroVAD.options v))
      eqn:Elen; cbn [negb].
    + apply Z.eqb_eq in Elen.
      destruct (run _ _ _ _) as [results|].
      * destruct (match stateN results with
                  | Some newState => TypedArray.set (SileroVAD.h v) newState
                  | None => Ok (SileroVAD.h v) end) as [h'|e'].
        -- cbn. discriminate.
        -- intro H. injection H as <- <-. cbn.
           repeat split; try assumption; try reflexivity; try discriminate.
           intros _ Hne. contradiction.
      * intro H. injection H as <- <-. cbn.
        repeat split; try assumption; try reflexivity; try discriminate.
        intros _ Hne. contradiction.
    + intro H. injection H as <- <-.
      repeat split; try assumption; try reflexivity; discriminate.
  - intro H. injection H as <- <-.
    repeat split; try assumption; try reflexivity. intro Hne. congruence.
Qed.

(** Before [initialize()] a frame of the right size is refused and nothing
    changes. *)
Lemma processFrame_throw_changes_nothing_witness :
  SileroVAD.getState
    (snd (SileroVAD.processFrame SampleSession.fresh Sample.silence))
  = SileroVAD.getState SampleSession.fresh
  /\ fst (SileroVAD.processFrame SampleSession.fresh Sample.silence)
     = Throw NotInitialized.
Proof.
  destruct (processFrame_throw_changes_nothing SampleSession.fresh
              SampleSession.fresh Sample.silence NotInitialized eq_refl)
    as (Hst & _).
  split; [exact Hst|reflexivity].
Defined.

(** What a returned decision carries. *)
Lemma processFrame_ok_frame_and_counter
    (v v' : SileroVAD.t) (audioFrame : list Q) (r : VADResult) :
  SileroVAD.processFrame v audioFrame = (Ok r, v') ->
  frame r = currentFrame (SileroVAD.state v)
  /\ currentFrame (SileroVAD.state v') = currentFrame (SileroVAD.state v) + 1.
Proof.
  intro H. apply processFrame_ok_inv in H.
  destruct H as (run & results & _ & _ & _ & Hr & Hst & _).
  destruct (decide_result (SileroVAD.options v) (SileroVAD.state v)
              (output results)) as (_ & _ & Hf & _).
  subst r. rewrite Hf, Hst.
  split; [reflexivity|].
  unfold decide. cbn. rewrite updateState_currentFrame. reflexivity.
Qed.

(** X2.  A [processFrame] call that returns: the decision carries the frame
    counter as it was, its probability is what the backend produced on this
    call, the model has been run exactly once, and the counter has advanced
    by exactly one. *)
Theorem processFrame_ok_counts_one_frame
    (v v' : SileroVAD.t) (audioFrame : list Q) (r : VADResult) :
  SileroVAD.processFrame v audioFrame = (Ok r, v') ->
  frame r = currentFrame (SileroVAD.getState v)
  /\ currentFrame (SileroVAD.getState v')
     = currentFrame (SileroVAD.getState v) + 1
  /\ SileroVAD.runs v' = S (SileroVAD.runs v)
  /\ exists (run : InferenceSession) (results : RunOutput),
       SileroVAD.session v = Some run
       /\ run (SileroVAD.runs v) audioFrame (SileroVAD.h v)
              (sampleRate (SileroVAD.options v)) = Some results
       /\ probability r = output results.
Proof.
  intro H.
  destruct (processFrame_ok_frame_and_counter v v' audioFrame r H)
    as (Hf & Hc).
  unfold SileroVAD.getState.
  split; [exact Hf|]. split; [exact Hc|]. split.
  - unfold SileroVAD.processFrame in H.
    destruct (SileroVAD.session v) as [run|]; [|discriminate].
    destruct (negb _); [discriminate|].
    destruct (run _ _ _ _) as [results|]; [|discriminate].
    destruct (match stateN results with
              | Some newState => TypedArray.set (SileroVAD.h v) newState
              | None => Ok (SileroVAD.h v) end) as [h'|e]; [|discriminate].
    cbn in H. injection H as _ <-. reflexivity.
  - apply processFrame_ok_inv in H.
    destruct H as (run & results & Hs & _ & Hrun & Hr & _).
    exists run, results. split; [exact Hs|]. split; [exact Hrun|].
    subst r. apply (decide_result (SileroVAD.options v) (SileroVAD.state v)
                      (output results)).
Qed.

Lemma processFrame_ok_counts_one_frame_witness :
  exists (r : VADResult) (v' : SileroVAD.t),
    SileroVAD.processFrame (Sample.vad (Sample.constantBackend 0.9)) Sample.silence
    = (Ok r, v')
    /\ frame r = 0
    /\ currentFrame (SileroVAD.getState v') = 1
    /\ SileroVAD.runs v' = 1%nat.
Proof.
  eexists. eexists. split; [vm_compute; reflexivity|].
  destruct (processFrame_ok_counts_one_frame
              (Sample.vad (Sample.constantBackend 0.9)) _ Sample.silence _
              eq_refl) as (Hf & Hc & Hr & _).
  split; [exact Hf|]. split; [exact Hc|exact Hr].
Defined.

(** ** processAudio: the decisions are numbered consecutively *)

Lemma processFrames_numbering (frames : list (list Q)) :
  forall (v v' : SileroVAD.t) (acc results : list VADResult),
    processFrames SileroVAD.processFrame v frames acc = (Ok results, v') ->
    exists fresh : list VADResult,
      results = acc ++ fresh
      /\ length fresh = length frames
      /\ (forall (i : nat) (r : VADResult),
             nth_error fresh i = Some r ->
             frame r = currentFrame (SileroVAD.state v) + Z.of_nat i)
      /\ currentFrame (SileroVAD.state v')
         = currentFrame (SileroVAD.state v) + Z.of_nat (length frames)
      /\ SileroVAD.options v' = SileroVAD.options v.
Proof.
  induction frames as [|fr frames IH]; intros v v' acc results H; cbn in H.
  - injection H as <- <-. exists []. rewrite app_nil_r.
    repeat split; try reflexivity.
    + destruct i; discriminate.
    + cbn. lia.
  - destruct (SileroVAD.processFrame v fr) as [[r|e] v1] eqn:E; [|discriminate].
    destruct (processFrame_ok_frame_and_counter v v1 fr r E) as (Hf & Hc).
    pose proof (processFrame_options v fr) as Ho. rewrite E in Ho. cbn in Ho.
    destruct (IH v1 v' (acc ++ [r]) results H)
      as (fresh & Hres & Hlen & Hnum & Hcount & Hopt).
    exists (r :: fresh). split; [rewrite Hres, <- app_assoc; reflexivity|].
    split; [cbn; lia|]. split; [|split].
    + intros i d Hi. destruct i as [|i]; cbn in Hi.
      * injection Hi as <-. lia.
      * pose proof (Hnum i d Hi) as A. lia.
    + rewrite Hcount, Hc. cbn [length]. lia.
    + congruence.
Qed.

Lemma processAudio_as_processFrames (v : SileroVAD.t) (audio : list Q) :
  0 < frameSize (SileroVAD.options v) ->
  SileroVAD.processAudio v audio
  = Some (processFrames SileroVAD.processFrame v
            (paddedChunks (Z.to_nat (frameSize (SileroVAD.options v))) audio) []).
Proof.
  intro Hfs. unfold SileroVAD.processAudio.
  rewrite <- (Z2Nat.id (frameSize (SileroVAD.options v))) at 1 by lia.
  apply processAudioWith_chunks. lia.
Qed.

(** X3.  The decisions a [processAudio] call returns carry consecutive frame
    indices that start at the frame counter the object had, and the counter
    ends advanced by their number: without [reset()], the decisions of a
    second buffer do not start at 0. *)
Theorem processAudio_numbers_frames_consecutively
    (v v' : SileroVAD.t) (audio : list Q) (results : list VADResult) :
  0 < frameSize (SileroVAD.options v) ->
  SileroVAD.processAudio v audio = Some (Ok results, v') ->
  (forall (i : nat) (r : VADResult),
      nth_error results i = Some r ->
      frame r = currentFrame (SileroVAD.getState v) + Z.of_nat i)
  /\ currentFrame (SileroVAD.getState v')
     = currentFrame (SileroVAD.getState v) + Z.of_nat (length results).
Proof.
  intros Hfs H. rewrite (processAudio_as_processFrames v audio Hfs) in H.
  injection H as H.
  destruct (processFrames_numbering _ _ _ _ _ H)
    as (fresh & Hres & Hlen & Hnum & Hcount & _).
  cbn in Hres. subst results. unfold SileroVAD.getState.
  split; [exact Hnum|]. rewrite Hcount, Hlen. reflexivity.
Qed.

(** The second buffer of [SampleTwoBuffers] is processed from frame 5 on:
    its first decision carries the frame index 5, and its three decisions
    leave the counter at 8. *)
Lemma processAudio_numbers_frames_consecutively_witness :
  SileroVAD.processAudio SampleTwoBuffers.afterFirst SampleTwoBuffers.second
  = Some (Ok SampleRuns.secondResults, SampleRuns.afterSecond)
  /\ option_map frame (nth_error SampleRuns.secondResults 0) = Some (5 + 0)
  /\ currentFrame (SileroVAD.getState SampleRuns.afterSecond) = 5 + 3.
Proof.
  assert (H : SileroVAD.processAudio SampleTwoBuffers.afterFirst
                                     SampleTwoBuffers.second
              = Some (Ok SampleRuns.secondResults, SampleRuns.afterSecond))
    by (vm_compute; reflexivity).
  split; [exact H|].
  destruct (processAudio_numbers_frames_consecutively
              SampleTwoBuffers.afterFirst SampleRuns.afterSecond
              SampleTwoBuffers.second SampleRuns.secondResults
              ltac:(reflexivity) H) as (Hn & Hc).
  split; [|exact Hc].
  destruct (nth_error SampleRuns.secondResults 0) as [r|] eqn:E;
    [|discriminate].
  cbn [option_map]. f_equal. exact (Hn 0%nat r E).
Defined.

(** From a frame counter of 0 the decisions of [processAudio] carry their
    positions. *)
Lemma processAudio_wellIndexed
    (v v' : SileroVAD.t) (audio : list Q) (results : list VADResult) :
  currentFrame (SileroVAD.state v) = 0 ->
  0 < frameSize (SileroVAD.options v) ->
  SileroVAD.processAudio v audio = Some (Ok results, v') ->
  wellIndexed results /\ SileroVAD.options v' = SileroVAD.options v.
Proof.
  intros H0 Hfs H. rewrite (processAudio_as_processFrames v audio Hfs) in H.
  injection H as H.
  destruct (processFrames_numbering _ _ _ _ _ H)
    as (fresh & Hres & _ & Hnum & _ & Ho).
  cbn in Hres. subst results. split; [|exact Ho].
  intros i r Hi. rewrite (Hnum i r Hi), H0. lia.
Qed.

Lemma processAudio_numbers_from_zero
    (v v' : SileroVAD.t) (audio : list Q) (results : list VADResult) :
  currentFrame (SileroVAD.state v) = 0 ->
  0 < frameSize (SileroVAD.options v) ->
  SileroVAD.processAudio v audio = Some (Ok results, v') ->
  wellIndexed results
  /\ SileroVAD.options v' = SileroVAD.options v
  /\ currentFrame (SileroVAD.state v') = Z.of_nat (length results).
Proof.
  intros H0 Hfs H.
  destruct (processAudio_wellIndexed v v' audio results H0 Hfs H) as (Hw & Ho).
  split; [exact Hw|]. split; [exact Ho|].
  rewrite (processAudio_as_processFrames v audio Hfs) in H.
  injection H as H.
  destruct (processFrames_numbering _ _ _ _ _ H)
    as (fresh & Hres & Hlen & _ & Hcount & _).
  cbn in Hres. subst results. rewrite Hcount, H0, Hlen. reflexivity.
Qed.

(** Being well indexed is a matter of the frame indices only. *)
Lemma wellIndexed_same_frames (vs ws : list VADResult) :
  map frame vs = map frame ws -> wellIndexed ws -> wellIndexed vs.
Proof.
  intros Hmap Hw i r Hi.
  pose proof (map_nth_error frame i vs Hi) as Hf. rewrite Hmap in Hf.
  rewrite nth_error_map in Hf.
  destruct (nth_error ws i) as [r'|] eqn:Hr'; [|discriminate].
  cbn in Hf. injection Hf as Heq. rewrite <- Heq. exact (Hw i r' Hr').
Qed.

Lemma wellIndexed_speechFramesInRange (vs : list VADResult) :
  wellIndexed vs -> speechFramesInRange vs.
Proof.
  intro Hw. unfold speechFramesInRange.
  eapply Forall_impl; [|exact (wellIndexed_selfIndexed vs Hw)].
  intros r Hr _. unfold selfIndexed in Hr. rewrite Hr. discriminate.
Qed.

(** X4.  On an object whose frame counter is 0 (fresh, or after [reset()]), the
    decisions of [processAudio] carry their positions as frame indices, so
    they can be handed to [extractSpeechSegments]: for decisions with these
    frame indices, whatever their timestamps and probabilities, the call
    does not throw, and the segments it returns run from the start to the
    end of the kept runs. *)
Theorem processAudio_then_extractSpeechSegments
    (minus : Q -> Q -> Q) (v v' : SileroVAD.t) (audio : list Q)
    (results : list VADResult) :
  currentFrame (SileroVAD.getState v) = 0 ->
  0 < frameSize (SileroVAD.options v) ->
  SileroVAD.processAudio v audio = Some (Ok results, v') ->
  wellIndexed results
  /\ forall (vadResults : list VADResult) (o : RequiredVADOptions)
            (audioData : list Q),
       map frame vadResults = map frame results ->
       exists segs : list AudioSegment,
         extractSpeechSegmentsWith minus o vadResults audioData = Ok segs
         /\ map bounds segs = keptRuns minus o vadResults None.
Proof.
  intros H0 Hfs H.
  destruct (processAudio_wellIndexed v v' audio results H0 Hfs H) as (Hw & _).
  split; [exact Hw|].
  intros vadResults o audioData Hmap.
  pose proof (wellIndexed_speechFramesInRange vadResults
                (wellIndexed_same_frames vadResults results Hmap Hw)) as Hin.
  destruct (scanLoopWith_keptRuns minus o vadResults audioData vadResults Hin
              scan0) as (sc & Hscan & Hsegs);
    [constructor|exact scan0_closed|].
  exists (segments sc). unfold extractSpeechSegmentsWith. rewrite Hscan.
  split; [reflexivity|exact Hsegs].
Qed.

(** Eight frames processed by an initialized object whose backend answers
    0.9 seven times and then 0.1: the run of the first seven decisions is
    closed by the eighth, and its confidence is read through the frame
    indices 0 to 6. *)
Lemma processAudio_then_extractSpeechSegments_witness :
  SileroVAD.processAudio (Sample.vad SampleTwoBuffers.backend)
                         SampleRuns.eightFrames
  = Some (Ok SampleRuns.eightResults, SampleRuns.afterEight)
  /\ exists s : AudioSegment,
       extractSpeechSegmentsWith Qminus Sample.options8k
         SampleRuns.eightResults SampleRuns.eightFrames = Ok [s]
       /\ (seg_start s == 0)%Q /\ (seg_end s == 7 * 192)%Q
       /\ (confidence s == 0.9)%Q.
Proof.
  assert (H : SileroVAD.processAudio (Sample.vad SampleTwoBuffers.backend)
                                     SampleRuns.eightFrames
              = Some (Ok SampleRuns.eightResults, SampleRuns.afterEight))
    by (vm_compute; reflexivity).
  split; [exact H|].
  destruct (processAudio_then_extractSpeechSegments Qminus
              (Sample.vad SampleTwoBuffers.backend) SampleRuns.afterEight
              SampleRuns.eightFrames SampleRuns.eightResults
              eq_refl ltac:(reflexivity) H) as (_ & He).
  destruct (He SampleRuns.eightResults Sample.options8k SampleRuns.eightFrames
              eq_refl) as (segs & Hs & _).
  assert (E : extractSpeechSegmentsWith Qminus Sample.options8k
                SampleRuns.eightResults SampleRuns.eightFrames
              = Ok SampleRuns.eightSegments) by (vm_compute; reflexivity).
  rewrite E in Hs. injection Hs as <-.
  eexists. split; [exact E|]. repeat split; vm_compute; reflexivity.
Defined.

(** ** updateState: speech frames *)

Lemma speechRun_active (o : RequiredVADOptions) (timestamps : list Q) :
  forall st : VADState,
    speechActive st = true ->
    speechActive (speechRun o st timestamps) = true
    /\ speechStart (speechRun o st timestamps) = speechStart st
    /\ (timestamps <> [] -> silenceDuration (speechRun o st timestamps) = 0%Q)
    /\ (speechDuration (speechRun o st timestamps)
        == speechDuration st
           + inject_Z (Z.of_nat (length timestamps)) * frameDurationMs o)%Q.
Proof.
  induction timestamps as [|ts rest IH]; intros st Ha; cbn [speechRun length].
  - repeat split; try assumption; try congruence. cbn. ring.
  - assert (Hstep : updateState o st true ts
                    = setSilenceDuration
                        (setSpeechDuration st (speechDuration st + frameDurationMs o))
                        0).
    { unfold updateState. rewrite Ha. reflexivity. }
    destruct (IH (updateState o st true ts)) as (A & B & C & D).
    { rewrite Hstep. exact Ha. }
    split; [exact A|]. split; [rewrite B, Hstep; reflexivity|]. split.
    + intros _. destruct rest as [|ts' rest'].
      * cbn [speechRun]. rewrite Hstep. reflexivity.
      * apply C. discriminate.
    + rewrite D, Hstep. cbn [speechDuration setSilenceDuration setSpeechDuration].
      rewrite Nat2Z.inj_succ. unfold Z.succ. rewrite inject_Z_plus. ring.
Qed.

(** X5.  A run of speech frames met in the inactive state opens a segment at the
    first frame's timestamp; after [k] frames the speech duration is
    [k * frameDurationMs], counted from zero, and the silence counter is 0. *)
Theorem speech_run_opens_and_accumulates
    (o : RequiredVADOptions) (st : VADState) (first : Q) (more : list Q) :
  speechActive st = false ->
  let st' := speechRun o st (first :: more) in
  speechActive st' = true
  /\ speechStart st' = Some first
  /\ silenceDuration st' = 0%Q
  /\ (speechDuration st'
      == inject_Z (Z.of_nat (length (first :: more))) * frameDurationMs o)%Q.
Proof.
  intros Hin st'. unfold st'. cbn [speechRun].
  assert (Hstep : updateState o st true first
                  = setSilenceDuration
                      (setSpeechDuration
                         (setSpeechDuration (setSpeech st true (Some first)) 0)
                         (0 + frameDurationMs o))
                      0).
  { unfold updateState. rewrite Hin. reflexivity. }
  destruct (speechRun_active o more (updateState o st true first))
    as (A & B & C & D).
  { rewrite Hstep. reflexivity. }
  split; [exact A|]. split; [rewrite B, Hstep; reflexivity|]. split.
  - destruct more as [|ts more'].
    + cbn [speechRun]. rewrite Hstep. reflexivity.
    + apply C. discriminate.
  - rewrite D, Hstep. cbn [speechDuration setSilenceDuration setSpeechDuration length].
    rewrite Nat2Z.inj_succ. unfold Z.succ. rewrite inject_Z_plus. ring.
Qed.

(** Three speech frames from the initial state, 192 ms each. *)
Lemma speech_run_opens_and_accumulates_witness :
  speechStart (speechRun Sample.options8k initialState [0; 192; 384]%Q)
  = Some 0%Q
  /\ (speechDuration (speechRun Sample.options8k initialState [0; 192; 384]%Q)
      == 576)%Q.
Proof.
  destruct (speech_run_opens_and_accumulates Sample.options8k initialState
              0%Q [192; 384]%Q eq_refl) as (_ & Hs & _ & Hd).
  split; [exact Hs|]. rewrite Hd. reflexivity.
Defined.

(** ** updateState: what a session's states satisfy *)

(** X6.  In every state a session with a positive maximum silence passes through,
    the silence counter of an active state is below the maximum: an active
    state whose silence has reached it does not exist.  With a non-negative
    frame duration both counters are never negative. *)
Theorem active_state_silence_below_max
    (o : RequiredVADOptions) (st : VADState) :
  (0 < maxSilenceDurationMs o)%Q ->
  (0 <= frameDurationMs o)%Q ->
  reachableWith o st ->
  (speechActive st = true ->
   (silenceDuration st < maxSilenceDurationMs o)%Q)
  /\ (0 <= silenceDuration st)%Q
  /\ (0 <= speechDuration st)%Q.
Proof.
  intros Hmax Hfd. induction 1 as [|st speech ts _ IH|st _ IH].
  - cbn. repeat split; try discriminate; apply Qle_refl.
  - destruct IH as (Hact & Hsil & Hsp).
    unfold updateState. destruct speech.
    + destruct (speechActive st) eqn:Ea; cbn.
      * repeat split; [intros _; exact Hmax|apply Qle_refl|lra].
      * repeat split; [intros _; exact Hmax|apply Qle_refl|lra].
    + destruct (speechActive st) eqn:Ea; cbn.
      * destruct (geq (silenceDuration st + frameDurationMs o)
                      (maxSilenceDurationMs o)) eqn:E; cbn.
        -- repeat split; [discriminate|lra|exact Hsp].
        -- apply geq_false_iff in E.
           repeat split; [intros _; exact E|lra|exact Hsp].
      * rewrite Ea. repeat split; [discriminate|exact Hsil|exact Hsp].
  - cbn. exact IH.
Qed.

Lemma active_state_silence_below_max_witness :
  (silenceDuration
     (updateState Sample.optionsShort
        (updateState Sample.optionsShort initialState true 0%Q) false 192%Q)
   < 384)%Q.
Proof.
  destruct (active_state_silence_below_max Sample.optionsShort
              (updateState Sample.optionsShort
                 (updateState Sample.optionsShort initialState true 0%Q)
                 false 192%Q)) as (H & _).
  - reflexivity.
  - cbn. discriminate.
  - apply reachWith_update. apply reachWith_update. apply reachWith_initial.
  - apply H. reflexivity.
Defined.

(** ** initialize and dispose do not touch the activity state *)

(** X7.  [initialize()] and [dispose()], in any number and order, leave the
    activity state, the frame counter and the recurrent buffers as they
    were: only [reset()] clears them.  After [dispose()], [processFrame]
    throws the not-initialized error until [initialize()] succeeds again. *)
Theorem lifecycle_calls_keep_state
    (v : SileroVAD.t) (calls : list Session.call) :
  Forall isLifecycle calls ->
  SileroVAD.getState (Session.performAll v calls) = SileroVAD.getState v
  /\ SileroVAD.h (Session.performAll v calls) = SileroVAD.h v
  /\ SileroVAD.c (Session.performAll v calls) = SileroVAD.c v
  /\ forall audioFrame : list Q,
       SileroVAD.processFrame
         (SileroVAD.dispose (Session.performAll v calls)) audioFrame
       = (Throw NotInitialized,
          SileroVAD.dispose (Session.performAll v calls)).
Proof.
  intro Hall. split; [|split; [|split]].
  - revert v. unfold Session.performAll.
    induction Hall as [|k calls Hk _ IH]; intro v; cbn; [reflexivity|].
    rewrite IH. destruct k as [[run|]| | | |]; cbn in Hk; try contradiction;
      reflexivity.
  - revert v. unfold Session.performAll.
    induction Hall as [|k calls Hk _ IH]; intro v; cbn; [reflexivity|].
    rewrite IH. destruct k as [[run|]| | | |]; cbn in Hk; try contradiction;
      reflexivity.
  - revert v. unfold Session.performAll.
    induction Hall as [|k calls Hk _ IH]; intro v; cbn; [reflexivity|].
    rewrite IH. destruct k as [[run|]| | | |]; cbn in Hk; try contradiction;
      reflexivity.
  - intro fr. reflexivity.
Qed.

(** Two frames processed, then dispose and a new initialize: the counter is
    still 2. *)
Lemma lifecycle_calls_keep_state_witness :
  currentFrame
    (SileroVAD.getState
       (Session.performAll
          (Session.performAll SampleSession.fresh SampleSession.calls)
          [Session.Dispose;
           Session.Initialize (Some (Sample.constantBackend 0.9))]))
  = 2.
Proof.
  destruct (lifecycle_calls_keep_state
              (Session.performAll SampleSession.fresh SampleSession.calls)
              [Session.Dispose;
               Session.Initialize (Some (Sample.constantBackend 0.9))])
    as (H & _).
  - repeat constructor.
  - rewrite H. vm_compute. reflexivity.
Defined.

(** ** extractSpeechSegments: what every returned segment satisfies *)

Lemma scanLoopWith_segments_invariant (minus : Q -> Q -> Q)
    (o : RequiredVADOptions) (vs : list VADResult) (audio : list Q)
    (opens closes : Q -> Prop) (P : AudioSegment -> Prop) :
  (forall (start stop conf : Q),
      opens start -> closes stop ->
      geq (minus stop start) (minSpeechDurationMs o) = true ->
      P (segmentOf o audio start stop conf)) ->
  forall (rest : list VADResult) (sc sc' : Scan),
    Forall (fun r => if isSpeech r then opens (timestamp r)
                     else closes (timestamp r)) rest ->
    Forall P (segments sc) ->
    (forall s : Q, segmentStart sc = Some s -> opens s) ->
    scanLoopWith minus o vs audio rest sc = Ok sc' ->
    Forall P (segments sc')
    /\ (length (segments sc')
        <= length (segments sc)
           + length (filter (fun r => negb (isSpeech r)) rest))%nat.
Proof.
  intro HP. induction rest as [|r rest IH]; intros sc sc' Hrest Hsc Hopen H;
    cbn in H.
  - injection H as <-. split; [exact Hsc|cbn; lia].
  - inversion Hrest as [|? ? Hr Hrest']; subst.
    destruct (scanStepWith minus o vs audio sc r) as [sc1|e] eqn:E;
      [|discriminate].
    assert (H1 : Forall P (segments sc1)
                 /\ (forall s : Q, segmentStart sc1 = Some s -> opens s)
                 /\ (length (segments sc1)
                     <= length (segments sc)
                        + (if isSpeech r then 0 else 1))%nat).
    { unfold scanStepWith in E. destruct (isSpeech r).
      - injection E as <-. cbn. split; [exact Hsc|]. split; [|lia].
        intros s Hs. destruct (segmentStart sc) as [s0|] eqn:Es.
        + injection Hs as <-. apply Hopen. reflexivity.
        + injection Hs as <-. exact Hr.
      - destruct (segmentStart sc) as [start|] eqn:Es.
        + destruct (0 <? length (speechFrames sc))%nat.
          * destruct (geq (minus (timestamp r) start) (minSpeechDurationMs o))
              eqn:Eg.
            -- destruct (confidenceOf vs (speechFrames sc)) as [conf|e];
                 [|discriminate].
               injection E as <-. cbn. split; [|split; [discriminate|]].
               ++ apply Forall_app. split; [exact Hsc|].
                  constructor; [|constructor].
                  apply HP; [apply Hopen; reflexivity|exact Hr|exact Eg].
               ++ rewrite length_app. cbn. lia.
            -- injection E as <-. cbn.
               split; [exact Hsc|split; [discriminate|lia]].
          * injection E as <-. split; [exact Hsc|]. split; [|lia].
            intros s Hs. apply Hopen. congruence.
        + injection E as <-. split; [exact Hsc|]. split; [|lia].
          intros s Hs. congruence. }
    destruct H1 as (HP1 & Hopen1 & Hlen1).
    destruct (IH sc1 sc' Hrest' HP1 Hopen1 H) as (A & B).
    split; [exact A|]. cbn [filter].
    destruct (isSpeech r); cbn [negb length]; lia.
Qed.

(** X8.  Every segment [extractSpeechSegments] returns starts at the timestamp of
    a speech decision of the list and ends at the timestamp of a non-speech
    decision of the list, and the difference of the two, as the code
    computes it, is at least [minSpeechDurationMs]; there are at most as
    many segments as non-speech decisions. *)
Theorem extractSpeechSegments_segments_last_min_duration
    (minus : Q -> Q -> Q) (o : RequiredVADOptions) (vs : list VADResult)
    (audio : list Q) (segs : list AudioSegment) :
  extractSpeechSegmentsWith minus o vs audio = Ok segs ->
  Forall (fun s =>
            (minSpeechDurationMs o <= minus (seg_end s) (seg_start s))%Q
            /\ (exists first : VADResult,
                   In first vs /\ isSpeech first = true
                   /\ seg_start s = timestamp first)
            /\ (exists d : VADResult,
                   In d vs /\ isSpeech d = false /\ seg_end s = timestamp d))
         segs
  /\ (length segs <= length (filter (fun r => negb (isSpeech r)) vs))%nat.
Proof.
  unfold extractSpeechSegmentsWith.
  destruct (scanLoopWith minus o vs audio vs scan0) as [sc|e] eqn:E;
    [|discriminate].
  intro H. injection H as <-.
  apply (scanLoopWith_segments_invariant minus o vs audio
           (fun t => exists first : VADResult,
                       In first vs /\ isSpeech first = true
                       /\ t = timestamp first)
           (fun t => exists d : VADResult,
                       In d vs /\ isSpeech d = false /\ t = timestamp d))
    with (sc := scan0) (rest := vs).
  - intros start stop conf Hstart Hstop Hg. cbn.
    split; [apply geq_true_iff; exact Hg|]. split; assumption.
  - apply Forall_forall. intros r Hr.
    destruct (isSpeech r) eqn:Er; exists r; auto.
  - constructor.
  - intros s Hs. discriminate.
  - exact E.
Qed.

Lemma extractSpeechSegments_segments_last_min_duration_witness :
  Forall (fun s => (250 <= seg_end s - seg_start s)%Q)
         [{| seg_start := 0 * 192; seg_end := 2 * 192; audioData := [];
             confidence := (0 + 0.9 + 0.9) / 2 |}].
Proof.
  destruct (extractSpeechSegments_segments_last_min_duration Qminus
              Sample.options8k
              [Sample.decision 0 true; Sample.decision 1 true;
               Sample.decision 2 false] []
              [{| seg_start := 0 * 192; seg_end := 2 * 192; audioData := [];
                  confidence := (0 + 0.9 + 0.9) / 2 |}] eq_refl) as (H & _).
  eapply Forall_impl; [|exact H]. intros s (Hs & _). exact Hs.
Defined.

(** ** The energy heuristic of the revision with the fallback *)

(** X9.  For a frame that is not empty and holds numbers, whatever [Math.sqrt]
    returns, the energy probability lies between 0 and 1: the value is
    clamped on both sides.  (For an empty frame the code divides 0 by 0 and
    returns NaN, which the model does not have; hence the hypothesis.) *)
Theorem energyBasedVAD_between_0_and_1 (sqrt : Q -> Q) (audioFrame : list Q) :
  audioFrame <> [] ->
  (0 <= SileroVADFallback.energyBasedVAD sqrt audioFrame <= 1)%Q.
Proof.
  intros _. unfold SileroVADFallback.energyBasedVAD. cbv zeta. split.
  - apply Q.le_max_l.
  - apply Q.max_lub; [discriminate|apply Q.le_min_l].
Qed.

Lemma energyBasedVAD_between_0_and_1_witness :
  (0 <= SileroVADFallback.energyBasedVAD Sample.sqrtQ SampleAudio.buffer <= 1)%Q.
Proof.
  apply (energyBasedVAD_between_0_and_1 Sample.sqrtQ SampleAudio.buffer).
  discriminate.
Defined.

(** X10.  Without a loaded model (before [initialize()], or after [dispose()]) the
    revision with the fallback does not refuse frames: a frame of the
    configured size (a positive one, so that the frame is not empty) gets a
    decision whose probability is what [energyBasedVAD] returns for it,
    numbered by the frame counter, and the model is not run. *)
Theorem fallback_processFrame_without_session
    (sqrt : Q -> Q) (v : SileroVADFallback.t) (audioFrame : list Q) :
  SileroVADFallback.session v = None ->
  0 < frameSize (SileroVADFallback.options v) ->
  Z.of_nat (length audioFrame) = frameSize (SileroVADFallback.options v) ->
  exists (r : VADResult) (v' : SileroVADFallback.t),
    SileroVADFallback.processFrame sqrt v audioFrame = (Ok r, v')
    /\ probability r = SileroVADFallback.energyBasedVAD sqrt audioFrame
    /\ isSpeech r
       = geq (SileroVADFallback.energyBasedVAD sqrt audioFrame)
             (threshold (SileroVADFallback.options v))
    /\ frame r = currentFrame (SileroVADFallback.state v)
    /\ currentFrame (SileroVADFallback.state v')
       = currentFrame (SileroVADFallback.state v) + 1
    /\ SileroVADFallback.session v' = None
    /\ SileroVADFallback.runs v' = SileroVADFallback.runs v
    /\ SileroVADFallback.useOnnxModel v' = SileroVADFallback.useOnnxModel v.
Proof.
  intros Hs _ Hlen. unfold SileroVADFallback.processFrame.
  apply Z.eqb_eq in Hlen. rewrite Hlen. cbn [negb].
  assert (Hp : SileroVADFallback.probabilityOf sqrt v audioFrame
               = (SileroVADFallback.energyBasedVAD sqrt audioFrame, v)).
  { unfold SileroVADFallback.probabilityOf. rewrite Hs.
    destruct (SileroVADFallback.useOnnxModel v); reflexivity. }
  rewrite Hp.
  eexists. eexists. split; [reflexivity|]. cbn.
  split; [reflexivity|]. split; [reflexivity|].
  split; [apply updateState_currentFrame|].
  split; [rewrite updateState_currentFrame; reflexivity|].
  split; [exact Hs|]. split; reflexivity.
Qed.

(** An object of the revision with the fallback that has been disposed. *)
Lemma fallback_processFrame_without_session_witness :
  exists (r : VADResult) (v' : SileroVADFallback.t),
    SileroVADFallback.processFrame Sample.sqrtQ
      (SileroVADFallback.dispose (Sample.vadFallback Sample.failingBackend))
      Sample.silence = (Ok r, v')
    /\ frame r = 0
    /\ SileroVADFallback.runs v' = 1%nat.
Proof.
  destruct (fallback_processFrame_without_session Sample.sqrtQ
              (SileroVADFallback.dispose (Sample.vadFallback Sample.failingBackend))
              Sample.silence eq_refl eq_refl eq_refl)
    as (r & v' & H & _ & _ & Hf & _ & _ & Hr & _).
  exists r, v'. split; [exact H|]. split; [exact Hf|exact Hr].
Defined.

(** X11.  [initialize()] of the revision with the fallback, when the model cannot
    be loaded or its test inference fails: nothing is thrown, the activity
    state and recurrent buffers are untouched, and from then on, whatever is
    called, frames of the configured size are decided by the energy
    heuristic without running the model. *)
Theorem fallback_initialize_failure_turns_model_off
    (sqrt : Q -> Q) (v : SileroVADFallback.t) (loaded : option InferenceSession) :
  match loaded with
  | None => True
  | Some run =>
      run 0%nat
          (TypedArray.fill0 (TypedArray.zeros (frameSize (SileroVADFallback.options v))))
          (SileroVADFallback.h v) (sampleRate (SileroVADFallback.options v))
      = None
  end ->
  let w := SileroVADFallback.initialize v loaded in
  SileroVADFallback.useOnnxModel w = false
  /\ SileroVADFallback.getState w = SileroVADFallback.getState v
  /\ SileroVADFallback.h w = SileroVADFallback.h v
  /\ forall (calls : list FallbackSession.call) (audioFrame : list Q),
       let u := FallbackSession.performAll sqrt w calls in
       Z.of_nat (length audioFrame) = frameSize (SileroVADFallback.options u) ->
       exists (r : VADResult) (u' : SileroVADFallback.t),
         SileroVADFallback.processFrame sqrt u audioFrame = (Ok r, u')
         /\ probability r = SileroVADFallback.energyBasedVAD sqrt audioFrame
         /\ SileroVADFallback.runs u' = SileroVADFallback.runs u.
Proof.
  intros Hfail w.
  assert (Hoff : SileroVADFallback.useOnnxModel w = false).
  { unfold w, SileroVADFallback.initialize.
    destruct loaded as [run|]; [|reflexivity]. rewrite Hfail. reflexivity. }
  split; [exact Hoff|]. split; [|split].
  - unfold w, SileroVADFallback.initialize, SileroVADFallback.getState.
    destruct loaded as [run|]; [|reflexivity]. rewrite Hfail. reflexivity.
  - unfold w, SileroVADFallback.initialize.
    destruct loaded as [run|]; [|reflexivity]. rewrite Hfail. reflexivity.
  - intros calls fr u Hlen.
    destruct (fallback_processFrame_energy sqrt u fr) as (r & u' & H & Hp & Hr & _).
    + apply fallback_performAll_stays_off. exact Hoff.
    + exact Hlen.
    + eauto.
Qed.

Lemma fallback_initialize_failure_turns_model_off_witness :
  SileroVADFallback.useOnnxModel
    (SileroVADFallback.initialize
       (SileroVADFallback.dispose (Sample.vadFallback Sample.failingBackend))
       (Some Sample.failingBackend)) = false.
Proof.
  destruct (fallback_initialize_failure_turns_model_off Sample.sqrtQ
              (SileroVADFallback.dispose (Sample.vadFallback Sample.failingBackend))
              (Some Sample.failingBackend) eq_refl) as (H & _).
  exact H.
Defined.

(** ** processAudio that throws *)

Lemma processFrame_throw_state (v v' : SileroVAD.t) (fr : list Q) (e : error) :
  SileroVAD.processFrame v fr = (Throw e, v') ->
  SileroVAD.state v' = SileroVAD.state v.
Proof.
  unfold SileroVAD.processFrame.
  destruct (SileroVAD.session v) as [run|];
    [|intro H; injection H as _ <-; reflexivity].
  destruct (negb _); [intro H; injection H as _ <-; reflexivity|].
  destruct (run _ _ _ _) as [results|];
    [|intro H; injection H as _ <-; reflexivity].
  destruct (match stateN results with
            | Some newState => TypedArray.set (SileroVAD.h v) newState
            | None => Ok (SileroVAD.h v) end);
    [cbn; discriminate|intro H; injection H as _ <-; reflexivity].
Qed.

Lemma processFrames_throw_progress (frames : list (list Q)) :
  forall (v v' : SileroVAD.t) (acc : list VADResult) (e : error),
    processFrames SileroVAD.processFrame v frames acc = (Throw e, v') ->
    exists (k : nat) (fr : list Q) (rs : list VADResult) (vk : SileroVAD.t),
      nth_error frames k = Some fr
      /\ processFrames SileroVAD.processFrame v (firstn k frames) acc
         = (Ok (acc ++ rs), vk)
      /\ length rs = k
      /\ SileroVAD.processFrame vk fr = (Throw e, v')
      /\ currentFrame (SileroVAD.state v')
         = currentFrame (SileroVAD.state v) + Z.of_nat k.
Proof.
  induction frames as [|fr frames IH]; intros v v' acc e H; cbn in H;
    [discriminate|].
  destruct (SileroVAD.processFrame v fr) as [[r|e1] v1] eqn:E.
  - destruct (processFrame_ok_frame_and_counter v v1 fr r E) as (_ & Hc).
    destruct (IH v1 v' _ e H) as (k & fr' & rs & vk & Hk & Hok & Hlen & Hth & Hcount).
    exists (S k), fr', (r :: rs), vk.
    split; [exact Hk|]. split; [|split; [cbn; lia|split; [exact Hth|]]].
    + cbn [firstn processFrames]. rewrite E, Hok, <- app_assoc. reflexivity.
    + rewrite Hcount, Hc. lia.
  - injection H as <- <-. exists 0%nat, fr, [], v.
    split; [reflexivity|]. split; [cbn; rewrite app_nil_r; reflexivity|].
    split; [reflexivity|]. split; [exact E|].
    rewrite (processFrame_throw_state v v1 fr e1 E). lia.
Qed.

(** X12.  A [processAudio] call that throws has lost the decisions of the frames
    before the failing one, but not their effect.  If chunk [k] of the
    buffer is the one on which [processFrame] threw, the [k] chunks before
    it were processed and each got its decision, the error is the one that
    [processFrame] threw on chunk [k], and the frame counter has advanced by
    exactly [k]. *)
Theorem processAudio_throw_keeps_progress
    (v v' : SileroVAD.t) (audio : list Q) (e : error) :
  0 < frameSize (SileroVAD.options v) ->
  SileroVAD.processAudio v audio = Some (Throw e, v') ->
  let chunks := paddedChunks (Z.to_nat (frameSize (SileroVAD.options v))) audio in
  exists (k : nat) (fr : list Q) (rs : list VADResult) (vk : SileroVAD.t),
    nth_error chunks k = Some fr
    /\ Z.of_nat k < (Z.of_nat (length audio) + frameSize (SileroVAD.options v) - 1)
                    / frameSize (SileroVAD.options v)
    /\ processFrames SileroVAD.processFrame v (firstn k chunks) [] = (Ok rs, vk)
    /\ length rs = k
    /\ SileroVAD.processFrame vk fr = (Throw e, v')
    /\ currentFrame (SileroVAD.getState v')
       = currentFrame (SileroVAD.getState v) + Z.of_nat k.
Proof.
  intros Hfs H chunks. rewrite (processAudio_as_processFrames v audio Hfs) in H.
  injection H as H. fold chunks in H.
  destruct (processFrames_throw_progress _ _ _ _ _ H)
    as (k & fr & rs & vk & Hk & Hok & Hlen & Hth & Hc).
  exists k, fr, rs, vk.
  split; [exact Hk|]. split; [|split; [exact Hok|]].
  - assert (Hlt : (k < length chunks)%nat).
    { apply nth_error_Some. rewrite Hk. discriminate. }
    unfold chunks, paddedChunks in Hlt. rewrite length_map, length_seq in Hlt.
    apply Nat2Z.inj_lt in Hlt. rewrite ceilDiv_Z in Hlt by lia.
    rewrite Z2Nat.id in Hlt by lia. exact Hlt.
  - split; [exact Hlen|]. split; [exact Hth|exact Hc].
Qed.

(** A backend that fails on its third call, and a buffer of four frames: the
    failing chunk is chunk 2, two decisions were made and lost, and the
    counter stays at 2. *)
Lemma processAudio_throw_keeps_progress_witness :
  SileroVAD.processAudio (Sample.vad (Sample.failOnRun 2 0.9))
                         SampleRuns.fourFrames
  = Some (Throw ProcessingError, SampleRuns.afterFailure)
  /\ currentFrame (SileroVAD.getState SampleRuns.afterFailure) = 2
  /\ exists (rs : list VADResult) (vk : SileroVAD.t),
       processFrames SileroVAD.processFrame (Sample.vad (Sample.failOnRun 2 0.9))
         (firstn 2 (paddedChunks 1536 SampleRuns.fourFrames)) [] = (Ok rs, vk)
       /\ length rs = 2%nat
       /\ SileroVAD.processFrame vk (repeat 0.25%Q 1536)
          = (Throw ProcessingError, SampleRuns.afterFailure).
Proof.
  assert (H : SileroVAD.processAudio (Sample.vad (Sample.failOnRun 2 0.9))
                                     SampleRuns.fourFrames
              = Some (Throw ProcessingError, SampleRuns.afterFailure))
    by (vm_compute; reflexivity).
  split; [exact H|].
  destruct (processAudio_throw_keeps_progress
              (Sample.vad (Sample.failOnRun 2 0.9)) SampleRuns.afterFailure
              SampleRuns.fourFrames ProcessingError ltac:(reflexivity) H)
    as (k & fr & rs & vk & Hk & _ & Hok & Hlen & Hth & Hc).
  assert (E : k = 2%nat).
  { change (currentFrame (SileroVAD.getState SampleRuns.afterFailure)) with 2 in Hc.
    change (currentFrame (SileroVAD.getState (Sample.vad (Sample.failOnRun 2 0.9))))
      with 0 in Hc. lia. }
  rewrite E in Hk, Hok, Hlen. clear E Hc. split; [reflexivity|].
  exists rs, vk. split; [exact Hok|]. split; [exact Hlen|].
  assert (Efr : fr = repeat 0.25%Q 1536).
  { assert (E2 : nth_error (paddedChunks 1536 SampleRuns.fourFrames) 2
                 = Some (repeat 0.25%Q 1536)) by (vm_compute; reflexivity).
    change (Z.to_nat (frameSize (SileroVAD.options
                                   (Sample.vad (Sample.failOnRun 2 0.9)))))
      with 1536%nat in Hk.
    rewrite E2 in Hk. injection Hk as <-. reflexivity. }
  rewrite <- Efr. exact Hth.
Defined.

(** ** extractSpeechSegments without speech *)

(** X14.  A decision sequence without any speech decision, the empty one included,
    yields no segment and does not throw, whatever frame indices the
    decisions carry. *)
Theorem extractSpeechSegments_without_speech
    (o : RequiredVADOptions) (vs : list VADResult) (audio : list Q) :
  Forall (fun r => isSpeech r = false) vs ->
  extractSpeechSegments o vs audio = Ok [].
Proof.
  intro Hall. unfold extractSpeechSegments.
  assert (H : forall rest : list VADResult,
             Forall (fun r => isSpeech r = false) rest ->
             scanLoop o vs audio rest scan0 = Ok scan0).
  { induction 1 as [|r rest Hr _ IH]; cbn; [reflexivity|].
    unfold scanStep. rewrite Hr. cbn. exact IH. }
  rewrite (H vs Hall). reflexivity.
Qed.

Lemma extractSpeechSegments_without_speech_witness :
  extractSpeechSegments Sample.options8k
    [Sample.decision 40 false; Sample.decision (-3) false] []
  = Ok [].
Proof.
  apply (extractSpeechSegments_without_speech Sample.options8k
           [Sample.decision 40 false; Sample.decision (-3) false] []).
  repeat constructor.
Defined.

(** ** AudioUtils.resample *)

Lemma Qdiv_pos (a b : Q) : (0 < a)%Q -> (0 < b)%Q -> (0 < a / b)%Q.
Proof.
  intros Ha Hb. unfold Qdiv. apply Qmult_lt_0_compat; [exact Ha|].
  apply Qinv_lt_0_compat. exact Hb.
Qed.

Lemma Qeq_bool_false (a b : Q) : ~ (a == b)%Q -> Qeq_bool a b = false.
Proof.
  intro H. destruct (Qeq_bool a b) eqn:E; [|reflexivity].
  apply Qeq_bool_eq in E. contradiction.
Qed.

(** For an output index below the output length, the source index read lies
    inside the buffer. *)
Lemma resampleIndex_in_bounds (len : nat) (ratio : Q) (i : Z) :
  (0 < ratio)%Q ->
  0 <= i < Qfloor (inject_Z (Z.of_nat len) / ratio) ->
  0 <= Qfloor (inject_Z i * ratio) < Z.of_nat len.
Proof.
  intros Hr (Hi0 & Hi).
  set (L := inject_Z (Z.of_nat len)) in *.
  assert (H1 : (inject_Z (i + 1) <= L / ratio)%Q).
  { apply Qle_trans with (inject_Z (Qfloor (L / ratio))); [|apply Qfloor_le].
    rewrite <- Zle_Qle. lia. }
  assert (H2 : (inject_Z i * ratio + ratio <= L)%Q).
  { apply (Qmult_le_compat_r _ _ ratio) in H1; [|apply Qlt_le_weak; exact Hr].
    assert (E : (L / ratio * ratio == L)%Q)
      by (field; intro E0; rewrite E0 in Hr; exact (Qlt_irrefl _ Hr)).
    rewrite E in H1. rewrite inject_Z_plus in H1.
    assert (E2 : ((inject_Z i + inject_Z 1) * ratio
                  == inject_Z i * ratio + ratio)%Q) by ring.
    rewrite E2 in H1. exact H1. }
  split.
  - change 0 with (Qfloor 0). apply Qfloor_resp_le.
    apply Qmult_le_0_compat; [|apply Qlt_le_weak; exact Hr].
    change 0%Q with (inject_Z 0). rewrite <- Zle_Qle. exact Hi0.
  - rewrite Zlt_Qlt. fold L.
    apply Qle_lt_trans with (inject_Z i * ratio)%Q; [apply Qfloor_le|].
    lra.
Qed.

Lemma item_in_bounds (audio : list Q) (i : Z) :
  0 <= i < Z.of_nat (length audio) ->
  exists x : Q, AudioUtils.item audio i = Some x /\ In x audio.
Proof.
  intros (H0 & H1). unfold AudioUtils.item.
  destruct (i <? 0) eqn:E; [apply Z.ltb_lt in E; lia|].
  destruct (nth_error audio (Z.to_nat i)) as [x|] eqn:En.
  - exists x. split; [reflexivity|]. eapply nth_error_In. exact En.
  - apply nth_error_None in En. lia.
Qed.

Lemma resample_main_branch (audio : list Q) (s t : Q) :
  (0 < s)%Q -> (0 < t)%Q -> ~ (s == t)%Q ->
  AudioUtils.resample audio s t
  = Ok (map (fun i => AudioUtils.resampleAt audio (s / t) (Z.of_nat i))
            (seq 0 (Z.to_nat
                      (Qfloor (inject_Z (Z.of_nat (length audio)) / (s / t))))))
  /\ 0 <= Qfloor (inject_Z (Z.of_nat (length audio)) / (s / t)).
Proof.
  intros Hs Ht Hne.
  assert (Hpos : 0 <= Qfloor (inject_Z (Z.of_nat (length audio)) / (s / t))).
  { change 0 with (Qfloor 0). apply Qfloor_resp_le.
    unfold Qdiv at 1. apply Qmult_le_0_compat.
    - change 0%Q with (inject_Z 0). rewrite <- Zle_Qle. lia.
    - apply Qlt_le_weak, Qinv_lt_0_compat, Qdiv_pos; assumption. }
  split; [|exact Hpos].
  unfold AudioUtils.resample.
  rewrite (Qeq_bool_false s t Hne).
  rewrite (Qeq_bool_false t 0) by (intro E; rewrite E in Ht; exact (Qlt_irrefl _ Ht)).
  rewrite (Qeq_bool_false s 0) by (intro E; rewrite E in Hs; exact (Qlt_irrefl _ Hs)).
  cbv zeta.
  destruct (Qfloor (inject_Z (Z.of_nat (length audio)) / (s / t)) <? 0) eqn:E;
    [apply Z.ltb_lt in E; lia|reflexivity].
Qed.

(** X16.  Resampling to the same rate returns the buffer itself, and an empty
    buffer gives an empty buffer whatever the rates, zero and negative ones
    included. *)
Theorem resample_same_rate_and_empty
    (audio : list Q) (sourceSampleRate targetSampleRate : Q) :
  AudioUtils.resample audio sourceSampleRate sourceSampleRate = Ok audio
  /\ AudioUtils.resample [] sourceSampleRate targetSampleRate = Ok [].
Proof.
  split.
  - unfold AudioUtils.resample.
    rewrite (Qeq_eq_bool _ _ (Qeq_refl sourceSampleRate)). reflexivity.
  - unfold AudioUtils.resample.
    destruct (Qeq_bool sourceSampleRate targetSampleRate); [reflexivity|].
    destruct (Qeq_bool targetSampleRate 0); [reflexivity|].
    destruct (Qeq_bool sourceSampleRate 0); [reflexivity|].
    cbv zeta. cbn [length Z.of_nat].
    assert (E : (inject_Z 0 / (sourceSampleRate / targetSampleRate) == 0)%Q).
    { unfold Qdiv. change (inject_Z 0) with 0%Q. ring. }
    rewrite (Qfloor_comp _ _ E). reflexivity.
Qed.

(** X17.  A source rate of 0 or a target rate of the opposite sign, with samples to
    read, is a RangeError; a target rate of 0 gives an empty buffer. *)
Theorem resample_degenerate_rates (x : Q) (rest : list Q) (rate : Q) :
  ~ (rate == 0)%Q ->
  AudioUtils.resample (x :: rest) 0 rate = Throw RangeError
  /\ AudioUtils.resample (x :: rest) rate 0 = Ok []
  /\ ((0 < rate)%Q ->
      AudioUtils.resample (x :: rest) rate (- rate) = Throw RangeError).
Proof.
  intro Hr. unfold AudioUtils.resample.
  assert (E1 : Qeq_bool 0 rate = false)
    by (apply Qeq_bool_false; intro E; apply Hr; symmetry; exact E).
  assert (E2 : Qeq_bool rate 0 = false) by (apply Qeq_bool_false; exact Hr).
  rewrite E1, E2. cbn [Qeq_bool Qnum Qden Z.eqb Z.mul].
  split; [reflexivity|]. split; [reflexivity|].
  intro Hpos.
  assert (E3 : Qeq_bool rate (- rate) = false) by (apply Qeq_bool_false; lra).
  assert (E4 : Qeq_bool (- rate) 0 = false) by (apply Qeq_bool_false; lra).
  rewrite E3, E4. cbv zeta.
  set (n := inject_Z (Z.of_nat (length (x :: rest)))).
  assert (Hn : (1 <= n)%Q).
  { unfold n. change 1%Q with (inject_Z 1). rewrite <- Zle_Qle. cbn [length]. lia. }
  assert (E : (n / (rate / - rate) == - n)%Q) by (field; repeat split; lra).
  rewrite (Qfloor_comp _ _ E).
  assert (Hneg : Qfloor (- n) < 0).
  { rewrite Zlt_Qlt. change (inject_Z 0) with 0%Q.
    apply Qle_lt_trans with (- n)%Q; [apply Qfloor_le|]. lra. }
  apply Z.ltb_lt in Hneg. rewrite Hneg. reflexivity.
Qed.

Lemma resample_degenerate_rates_witness :
  AudioUtils.resample [0.5%Q; 0.25%Q] 0 8000 = Throw RangeError
  /\ AudioUtils.resample [0.5%Q; 0.25%Q] 8000 0 = Ok [].
Proof.
  destruct (resample_degenerate_rates 0.5%Q [0.25%Q] 8000) as (H1 & H2 & _).
  - discriminate.
  - split; assumption.
Defined.

(** ** The largest absolute value of a buffer *)

Lemma maxFold_ge_start (l : list Q) :
  forall m : Q, (m <= fold_left (fun m x => Qmax m (Qabs x)) l m)%Q.
Proof.
  induction l as [|x l IH]; intro m; cbn; [apply Qle_refl|].
  apply Qle_trans with (Qmax m (Qabs x)); [apply Q.le_max_l|apply IH].
Qed.

Lemma maxFold_ge_elem (l : list Q) :
  forall (m x : Q),
    In x l -> (Qabs x <= fold_left (fun m x => Qmax m (Qabs x)) l m)%Q.
Proof.
  induction l as [|y l IH]; intros m x Hin; cbn; [contradiction|].
  destruct Hin as [->|Hin].
  - apply Qle_trans with (Qmax m (Qabs x)); [apply Q.le_max_r|].
    apply maxFold_ge_start.
  - apply IH. exact Hin.
Qed.

Lemma maxFold_le (l : list Q) (bound : Q) :
  forall m : Q,
    (m <= bound)%Q ->
    (forall x : Q, In x l -> (Qabs x <= bound)%Q) ->
    (fold_left (fun m x => Qmax m (Qabs x)) l m <= bound)%Q.
Proof.
  induction l as [|y l IH]; intros m Hm Hall; cbn; [exact Hm|].
  apply IH.
  - apply Q.max_lub; [exact Hm|apply Hall; left; reflexivity].
  - intros x Hin. apply Hall. right. exact Hin.
Qed.

Lemma maxAbs_nonneg (audio : list Q) : (0 <= AudioUtils.maxAbs audio)%Q.
Proof. apply maxFold_ge_start. Qed.

Lemma maxAbs_ge (audio : list Q) (x : Q) :
  In x audio -> (Qabs x <= AudioUtils.maxAbs audio)%Q.
Proof. apply maxFold_ge_elem. Qed.

Lemma maxAbs_zero_iff (audio : list Q) :
  (AudioUtils.maxAbs audio == 0)%Q <-> Forall (fun x => x == 0)%Q audio.
Proof.
  split.
  - intro E. apply Forall_forall. intros x Hin.
    pose proof (maxAbs_ge audio x Hin) as Hle. rewrite E in Hle.
    pose proof (Qabs_nonneg x) as H0.
    assert (Ha : (Qabs x == 0)%Q) by (apply Qle_antisym; assumption).
    apply Qabs_Qle_condition in Hle. lra.
  - intro Hall. apply Qle_antisym; [|apply maxAbs_nonneg].
    apply maxFold_le; [apply Qle_refl|].
    intros x Hin. rewrite Forall_forall in Hall.
    rewrite (Hall x Hin). discriminate.
Qed.

(** ** resample keeps constants and never exceeds the peak *)

Lemma resampleAt_fraction (ratio : Q) (i : Z) :
  let sourceIndex := (inject_Z i * ratio)%Q in
  (0 <= sourceIndex - inject_Z (Qfloor sourceIndex) < 1)%Q.
Proof.
  intro x. pose proof (Qfloor_le x) as H1. pose proof (Qlt_floor x) as H2.
  rewrite inject_Z_plus in H2. change (inject_Z 1) with 1%Q in H2.
  split; lra.
Qed.

Lemma resampleAt_between (audio : list Q) (ratio : Q) (i : Z) (bound : Q) :
  0 <= Qfloor (inject_Z i * ratio) < Z.of_nat (length audio) ->
  (forall x : Q, In x audio -> (- bound <= x <= bound)%Q) ->
  (- bound <= AudioUtils.resampleAt audio ratio i <= bound)%Q.
Proof.
  intros Hin Hall. unfold AudioUtils.resampleAt. cbv zeta.
  destruct (item_in_bounds audio _ Hin) as (a & Ea & Ha).
  pose proof (resampleAt_fraction ratio i) as Hf. cbv zeta in Hf.
  set (f := (inject_Z i * ratio - inject_Z (Qfloor (inject_Z i * ratio)))%Q) in *.
  rewrite Ea. cbn [AudioUtils.stored].
  destruct (Qfloor (inject_Z i * ratio) + 1 <? Z.of_nat (length audio)) eqn:E.
  - apply Z.ltb_lt in E.
    destruct (item_in_bounds audio (Qfloor (inject_Z i * ratio) + 1)
                ltac:(lia)) as (b & Eb & Hb).
    rewrite Eb. cbn [AudioUtils.stored].
    pose proof (Hall a Ha) as Ba. pose proof (Hall b Hb) as Bb.
    split; nra.
  - apply Hall. exact Ha.
Qed.

(** X18.  With positive rates the output of [resample] never exceeds the peak of
    its input: every output sample is at most the largest absolute value of
    the buffer, in absolute value. *)
Theorem resample_keeps_within_peak
    (audio : list Q) (sourceSampleRate targetSampleRate : Q) :
  (0 < sourceSampleRate)%Q -> (0 < targetSampleRate)%Q ->
  exists out : list Q,
    AudioUtils.resample audio sourceSampleRate targetSampleRate = Ok out
    /\ Forall (fun y => Qabs y <= AudioUtils.maxAbs audio)%Q out.
Proof.
  intros Hs Ht.
  destruct (Qeq_dec sourceSampleRate targetSampleRate) as [Heq|Hne].
  - exists audio. unfold AudioUtils.resample.
    rewrite (Qeq_eq_bool _ _ Heq). split; [reflexivity|].
    apply Forall_forall. intros x Hin. apply maxAbs_ge. exact Hin.
  - destruct (resample_main_branch audio _ _ Hs Ht Hne) as (Hres & Hpos).
    eexists. split; [exact Hres|].
    apply Forall_map, Forall_forall. intros i Hi. apply in_seq in Hi.
    apply Qabs_Qle_condition. apply resampleAt_between.
    + apply resampleIndex_in_bounds; [apply Qdiv_pos; assumption|]. lia.
    + intros x Hin. apply Qabs_Qle_condition. apply maxAbs_ge. exact Hin.
Qed.

Lemma resample_keeps_within_peak_witness :
  exists out : list Q,
    AudioUtils.resample [0.5; -0.25; 0.125; 0.75]%Q 8000 16000 = Ok out
    /\ Forall (fun y => Qabs y <= 0.75)%Q out.
Proof.
  destruct (resample_keeps_within_peak [0.5; -0.25; 0.125; 0.75]%Q 8000 16000)
    as (out & H & Hall); [reflexivity|reflexivity|].
  exists out. split; [exact H|].
  eapply Forall_impl; [|exact Hall]. intros y Hy.
  eapply Qle_trans; [exact Hy|]. vm_compute. discriminate.
Defined.

(** X19.  Resampling a constant buffer gives a constant buffer of the same value. *)
Theorem resample_constant_buffer
    (value : Q) (n : nat) (sourceSampleRate targetSampleRate : Q) :
  (0 < sourceSampleRate)%Q -> (0 < targetSampleRate)%Q ->
  exists out : list Q,
    AudioUtils.resample (repeat value n) sourceSampleRate targetSampleRate
    = Ok out
    /\ Forall (fun y => y == value)%Q out.
Proof.
  intros Hs Ht.
  destruct (Qeq_dec sourceSampleRate targetSampleRate) as [Heq|Hne].
  - exists (repeat value n). unfold AudioUtils.resample.
    rewrite (Qeq_eq_bool _ _ Heq). split; [reflexivity|].
    apply Forall_forall. intros x Hin. apply repeat_spec in Hin. subst x.
    reflexivity.
  - destruct (resample_main_branch (repeat value n) _ _ Hs Ht Hne)
      as (Hres & Hpos).
    eexists. split; [exact Hres|].
    apply Forall_map, Forall_forall. intros i Hi. apply in_seq in Hi.
    assert (Hin : 0 <= Qfloor (inject_Z (Z.of_nat i)
                               * (sourceSampleRate / targetSampleRate))
                  < Z.of_nat (length (repeat value n))).
    { apply resampleIndex_in_bounds; [apply Qdiv_pos; assumption|]. lia. }
    unfold AudioUtils.resampleAt. cbv zeta.
    destruct (item_in_bounds _ _ Hin) as (a & Ea & Ha).
    apply repeat_spec in Ha. subst a. rewrite Ea. cbn [AudioUtils.stored].
    destruct (_ <? _) eqn:E; [|reflexivity].
    apply Z.ltb_lt in E.
    destruct (item_in_bounds (repeat value n)
                (Qfloor (inject_Z (Z.of_nat i)
                         * (sourceSampleRate / targetSampleRate)) + 1)
                ltac:(lia)) as (b & Eb & Hb').
    apply repeat_spec in Hb'. subst b. rewrite Eb. cbn [AudioUtils.stored].
    ring.
Qed.

Lemma resample_constant_buffer_witness :
  exists out : list Q,
    AudioUtils.resample (repeat 0.5%Q 10) 16000 8000 = Ok out
    /\ Forall (fun y => y == 0.5)%Q out.
Proof.
  apply (resample_constant_buffer 0.5%Q 10 16000 8000); reflexivity.
Defined.

(** ** AudioUtils.normalize *)

(** X20.  A buffer of zeros, the empty buffer included, is returned as it is,
    whatever the target peak. *)
Theorem normalize_zero_buffer_unchanged
    (audio : list Q) (targetPeak : option Q) :
  Forall (fun x => x == 0)%Q audio ->
  AudioUtils.normalize audio targetPeak = audio.
Proof.
  intro Hall. unfold AudioUtils.normalize. cbv zeta.
  rewrite (Qeq_eq_bool _ _ (proj2 (maxAbs_zero_iff audio) Hall)). reflexivity.
Qed.

Lemma normalize_zero_buffer_unchanged_witness :
  AudioUtils.normalize [0; 0; 0]%Q (Some 0.5%Q) = [0; 0; 0]%Q.
Proof.
  apply (normalize_zero_buffer_unchanged [0; 0; 0]%Q (Some 0.5%Q)).
  repeat constructor.
Defined.

(** ** AudioUtils.createFrames with a hop *)

Lemma frameCount_bounds (n f hop : nat) :
  (0 < hop)%nat ->
  forall k : nat,
    (k < frameCount n f hop)%nat <-> (k * hop + f <= n)%nat.
Proof.
  intros Hh k. unfold frameCount.
  destruct (f <=? n)%nat eqn:E.
  - apply Nat.leb_le in E.
    pose proof (Nat.Div0.mul_div_le (n - f) hop) as Hq.
    split; intro H.
    + assert (Hk : (k <= (n - f) / hop)%nat) by lia.
      assert (Hm : (hop * k <= hop * ((n - f) / hop))%nat)
        by (apply Nat.mul_le_mono_l; exact Hk).
      lia.
    + assert (Hk : (k <= (n - f) / hop)%nat)
        by (apply Nat.div_le_lower_bound; lia).
      lia.
  - apply Nat.leb_gt in E. split; intro H; lia.
Qed.

Lemma createFramesLoop_every (f hop : nat) (audio : list Q) :
  (0 < hop)%nat ->
  forall (j k fuel : nat) (frames : list (list Q)),
    (k + j = frameCount (length audio) f hop)%nat ->
    (j < fuel)%nat ->
    AudioUtils.createFramesLoop fuel audio (Z.of_nat f) (Z.of_nat hop)
                                (Z.of_nat (k * hop)) frames
    = Some (frames
            ++ map (fun k => firstn f (skipn (k * hop) audio)) (seq k j)).
Proof.
  intro Hh.
  pose proof (frameCount_bounds (length audio) f hop Hh) as Hb.
  induction j as [|j IH]; intros k fuel frames Hk Hfuel;
    (destruct fuel as [|fuel]; [lia|]); cbn [AudioUtils.createFramesLoop seq map].
  - destruct (Z.of_nat (k * hop) <=? Z.of_nat (length audio) - Z.of_nat f) eqn:E.
    + apply Z.leb_le in E.
      assert (Hlt : (k < frameCount (length audio) f hop)%nat) by (apply Hb; lia).
      lia.
    + rewrite app_nil_r. reflexivity.
  - assert (Hin : (k * hop + f <= length audio)%nat) by (apply Hb; lia).
    destruct (Z.of_nat (k * hop) <=? Z.of_nat (length audio) - Z.of_nat f) eqn:E;
      [|apply Z.leb_gt in E; lia].
    rewrite slice_nat.
    assert (Hnext : Z.of_nat (k * hop) + Z.of_nat hop = Z.of_nat (S k * hop))
      by lia.
    rewrite Hnext, (IH (S k)) by lia.
    rewrite <- app_assoc. reflexivity.
Qed.

(** X26.  With a hop of at least one, [createFrames] returns the frames that start
    every [hopSize] samples and fit entirely into the buffer: there are
    [floor((n - frameSize) / hopSize) + 1] of them when the buffer holds at
    least one frame and none otherwise, and each has [frameSize] samples. *)
Theorem createFrames_with_hop (audio : list Q) (f hop : nat) :
  (0 < hop)%nat ->
  AudioUtils.createFrames audio (Z.of_nat f) (Some (Z.of_nat hop))
  = Some (framesEvery f hop audio)
  /\ length (framesEvery f hop audio)
     = (if (f <=? length audio)%nat
        then ((length audio - f) / hop + 1)%nat else 0%nat)
  /\ Forall (fun fr => length fr = f) (framesEvery f hop audio)
  /\ forall (k : nat) (fr : list Q),
       nth_error (framesEvery f hop audio) k = Some fr ->
       fr = firstn f (skipn (k * hop) audio).
Proof.
  intro Hh.
  pose proof (frameCount_bounds (length audio) f hop Hh) as Hb.
  split; [|split; [|split]].
  - unfold AudioUtils.createFrames, framesEvery.
    destruct (Z.of_nat hop =? 0) eqn:E; [apply Z.eqb_eq in E; lia|].
    rewrite (createFramesLoop_every f hop audio Hh
               (frameCount (length audio) f hop) 0); [reflexivity|reflexivity|].
    unfold frameCount. destruct (f <=? length audio)%nat eqn:El; [|lia].
    apply Nat.leb_le in El.
    pose proof (Nat.Div0.div_le_upper_bound (length audio - f) hop
                  (length audio - f)) as Hd.
    assert (Hq : ((length audio - f) / hop <= length audio - f)%nat)
      by (apply Hd; nia).
    lia.
  - unfold framesEvery, frameCount. rewrite length_map, length_seq. reflexivity.
  - unfold framesEvery. apply Forall_map, Forall_forall. intros k Hin.
    apply in_seq in Hin.
    assert (Hk : (k * hop + f <= length audio)%nat) by (apply Hb; lia).
    rewrite length_firstn, length_skipn. lia.
  - intros k fr H. unfold framesEvery in H.
    rewrite nth_error_map in H.
    destruct (nth_error (seq 0 _) k) as [k'|] eqn:Ek; [|discriminate].
    cbn in H. injection H as <-.
    assert (Hlt : (k < frameCount (length audio) f hop)%nat).
    { assert (Hs : nth_error (seq 0 (frameCount (length audio) f hop)) k <> None)
        by congruence.
      apply nth_error_Some in Hs. rewrite length_seq in Hs. exact Hs. }
    rewrite nth_error_seq in Ek.
    destruct (k <? frameCount (length audio) f hop)%nat eqn:El;
      [|apply Nat.ltb_ge in El; lia].
    injection Ek as <-. reflexivity.
Qed.

(** Seven samples, frames of three, a hop of two: three overlapping frames. *)
Lemma createFrames_with_hop_witness :
  AudioUtils.createFrames [1; 2; 3; 4; 5; 6; 7]%Q 3 (Some 2)
  = Some [[1; 2; 3]; [3; 4; 5]; [5; 6; 7]]%Q.
Proof.
  destruct (createFrames_with_hop [1; 2; 3; 4; 5; 6; 7]%Q 3 2) as (H & _).
  - lia.
  - exact H.
Defined.

Lemma createFramesLoop_never_ends (audio : list Q) (frameSize hop : Z) :
  hop <= 0 ->
  forall (fuel : nat) (i : Z) (frames : list (list Q)),
    i <= Z.of_nat (length audio) - frameSize ->
    AudioUtils.createFramesLoop fuel audio frameSize hop i frames = None.
Proof.
  intro Hh. induction fuel as [|fuel IH]; intros i frames Hi; cbn;
    [reflexivity|].
  destruct (i <=? Z.of_nat (length audio) - frameSize) eqn:E;
    [|apply Z.leb_gt in E; lia].
  apply IH. lia.
Qed.

(** X27.  When the hop in force is zero or negative and the buffer holds at least
    one frame, the loop of [createFrames] has no end, whatever the number of
    rounds allowed: so it is for a frame size of zero or below with the
    default hop, and for a negative [hopSize]. *)
Theorem createFrames_never_returns
    (audio : list Q) (frameSize : Z) (hopSize : option Z) :
  frameSize <= Z.of_nat (length audio) ->
  match hopSize with
  | Some hp => hp < 0 \/ (hp = 0 /\ frameSize <= 0)
  | None => frameSize <= 0
  end ->
  AudioUtils.createFrames audio frameSize hopSize = None
  /\ forall (fuel : nat) (frames : list (list Q)),
       AudioUtils.createFramesLoop fuel audio frameSize
         (match hopSize with
          | Some hp => if hp =? 0 then frameSize else hp
          | None => frameSize
          end) 0 frames
       = None.
Proof.
  intros Hfit Hhop.
  assert (Hle : match hopSize with
                | Some hp => if hp =? 0 then frameSize else hp
                | None => frameSize
                end <= 0).
  { destruct hopSize as [hp|]; [|exact Hhop].
    destruct (hp =? 0) eqn:E.
    - apply Z.eqb_eq in E. lia.
    - apply Z.eqb_neq in E. lia. }
  split.
  - unfold AudioUtils.createFrames.
    apply createFramesLoop_never_ends; [exact Hle|lia].
  - intros fuel frames.
    apply createFramesLoop_never_ends; [exact Hle|lia].
Qed.

Lemma createFrames_never_returns_witness :
  AudioUtils.createFrames [1; 2; 3]%Q 2 (Some (-1)) = None.
Proof.
  destruct (createFrames_never_returns [1; 2; 3]%Q 2 (Some (-1))) as (H & _).
  - cbn. lia.
  - left. lia.
  - exact H.
Defined.

(** ** AVRVad.processWavFile *)

Lemma constructor_inv (o : VADOptions) (v : SileroVAD.t) :
  SileroVAD.constructor o = Ok v ->
  SileroVAD.session v = None
  /\ SileroVAD.state v = initialState
  /\ frameSize (SileroVAD.options v) = 1536
  /\ (sampleRate (SileroVAD.options v) = 8000
      \/ sampleRate (SileroVAD.options v) = 16000).
Proof.
  unfold SileroVAD.constructor, validateOptions.
  destruct ((sampleRate (mergeOptions o) =? 8000)
            || (sampleRate (mergeOptions o) =? 16000)) eqn:Esr;
    cbn [negb]; [|discriminate].
  assert (Hsr : sampleRate (mergeOptions o) = 8000
                \/ sampleRate (mergeOptions o) = 16000).
  { apply orb_true_iff in Esr. destruct Esr as [E|E]; apply Z.eqb_eq in E; auto. }
  destruct (frameSize (mergeOptions o) =? 1536) eqn:Ef; cbn [negb];
    destruct (less _ _ || less _ _); try discriminate;
    intro H; injection H as <-; cbn; repeat split; auto.
  apply Z.eqb_eq. exact Ef.
Qed.

Lemma resample_positive_ok (audio : list Q) (s t : Q) :
  (0 < s)%Q -> (0 < t)%Q ->
  exists out : list Q, AudioUtils.resample audio s t = Ok out.
Proof.
  intros Hs Ht. destruct (Qeq_dec s t) as [Heq|Hne].
  - exists audio. unfold AudioUtils.resample.
    rewrite (Qeq_eq_bool _ _ Heq). reflexivity.
  - destruct (resample_main_branch audio s t Hs Ht Hne) as (H & _).
    eexists. exact H.
Qed.

(** A backend that answers, on an object whose [h] has its 256 entries:
    [processFrame] returns on a frame of the configured size, and [h] keeps
    its length. *)
Lemma processFrame_answers_with_state (v : SileroVAD.t)
    (run : InferenceSession) (fr : list Q) :
  SileroVAD.session v = Some run ->
  answers run ->
  length (SileroVAD.h v) = 256%nat ->
  Z.of_nat (length fr) = frameSize (SileroVAD.options v) ->
  exists (r : VADResult) (v' : SileroVAD.t),
    SileroVAD.processFrame v fr = (Ok r, v')
    /\ SileroVAD.session v' = Some run
    /\ SileroVAD.options v' = SileroVAD.options v
    /\ length (SileroVAD.h v') = 256%nat.
Proof.
  intros Hs Hrun Hh Hlen. unfold SileroVAD.processFrame.
  rewrite Hs. apply Z.eqb_eq in Hlen. rewrite Hlen. cbn [negb].
  destruct (Hrun (SileroVAD.runs v) fr (SileroVAD.h v)
              (sampleRate (SileroVAD.options v))) as (out & -> & Hfit).
  destruct (stateN out) as [newState|].
  - unfold TypedArray.set. rewrite Hh.
    destruct (256 <? length newState)%nat eqn:E;
      [apply Nat.ltb_lt in E; lia|].
    apply Nat.ltb_ge in E. cbn. eexists. eexists.
    split; [reflexivity|]. cbn. repeat split.
    rewrite length_app, length_skipn. lia.
  - cbn. eexists. eexists. split; [reflexivity|]. cbn. auto.
Qed.

Lemma processFrames_answers_with_state (run : InferenceSession) (fs : Z)
    (frames : list (list Q)) :
  answers run ->
  Forall (fun fr => Z.of_nat (length fr) = fs) frames ->
  forall (v : SileroVAD.t) (acc : list VADResult),
    SileroVAD.session v = Some run ->
    length (SileroVAD.h v) = 256%nat ->
    frameSize (SileroVAD.options v) = fs ->
    exists (results : list VADResult) (v' : SileroVAD.t),
      processFrames SileroVAD.processFrame v frames acc = (Ok results, v').
Proof.
  intros Hrun. induction 1 as [|fr frames Hfr _ IH]; intros v acc Hs Hh Hfs; cbn.
  - eauto.
  - destruct (processFrame_answers_with_state v run fr Hs Hrun Hh
                ltac:(congruence)) as (r & v' & -> & Hs' & Ho' & Hh').
    apply IH; congruence.
Qed.

(** X28.  [processWavFile] with valid options, a model that loads and answers
    every inference, and a file decoded at a positive rate: the call
    resolves; when the file's rate is the session's, the audio returned is
    the file's; there are [ceil(n / 1536)] decisions for the [n] samples
    returned, numbered from 0; the segments run from the start to the end of
    the kept runs of these decisions; and the object has been disposed, its
    frame counter at the number of decisions. *)
Theorem processWavFile_returns
    (minus : Q -> Q -> Q) (run : InferenceSession) (samples : list Q)
    (rate : Q) (options : option VADOptions) (vad : SileroVAD.t) :
  SileroVAD.constructor (orDefault options AVRVad.emptyOptions) = Ok vad ->
  answers run ->
  (0 < rate)%Q ->
  exists (out : AVRVad.Output) (final : SileroVAD.t),
    AVRVad.processWavFile minus (Some run) (AVRVad.Resolved samples rate) options
    = AVRVad.Settled (Ok out) (Some final)
    /\ SileroVAD.session final = None
    /\ ((rate == inject_Z (sampleRate (SileroVAD.options vad)))%Q ->
        AVRVad.audioData out = samples)
    /\ Z.of_nat (length (AVRVad.results out))
       = (Z.of_nat (length (AVRVad.audioData out)) + 1536 - 1) / 1536
    /\ wellIndexed (AVRVad.results out)
    /\ currentFrame (SileroVAD.getState final)
       = Z.of_nat (length (AVRVad.results out))
    /\ map bounds (AVRVad.segments out)
       = keptRuns minus (SileroVAD.options vad) (AVRVad.results out) None.
Proof.
  intros Hc Hrun Hrate.
  destruct (constructor_inv _ _ Hc) as (Hs0 & Hst & Hfs & Hsr).
  destruct (constructor_sound _ _ Hc) as ((Hh & _) & _).
  unfold AVRVad.processWavFile. rewrite Hc.
  cbn [SileroVAD.initialize].
  set (vad1 := {| SileroVAD.session := Some run;
                  SileroVAD.options := SileroVAD.options vad;
                  SileroVAD.state := SileroVAD.state vad;
                  SileroVAD.h := SileroVAD.h vad; SileroVAD.c := SileroVAD.c vad;
                  SileroVAD.runs := 0;
                  SileroVAD.console := SileroVAD.console vad ++ [LogModelLoaded] |}).
  cbv zeta. unfold SileroVAD.getOptions.
  change (SileroVAD.options vad1) with (SileroVAD.options vad).
  set (target := inject_Z (sampleRate (SileroVAD.options vad))).
  assert (Htarget : (0 < target)%Q).
  { unfold target. change 0%Q with (inject_Z 0). rewrite <- Zlt_Qlt.
    destruct Hsr as [->| ->]; lia. }
  destruct (resample_positive_ok samples rate target Hrate Htarget)
    as (resampled & Hres).
  assert (Hproc : exists processed : list Q,
             (if negb (Qeq_bool rate target)
              then AudioUtils.resample samples rate target
              else Ok samples) = Ok processed
             /\ ((rate == target)%Q -> processed = samples)).
  { destruct (Qeq_bool rate target) eqn:E; cbn [negb].
    - exists samples. split; [reflexivity|]. intros _. reflexivity.
    - exists resampled. split; [exact Hres|]. intro Heq.
      apply Qeq_eq_bool in Heq. congruence. }
  destruct Hproc as (processed & -> & Hsame).
  assert (Hfs1 : 0 < frameSize (SileroVAD.options vad1)) by (cbn; lia).
  assert (Hlens : Forall (fun fr => Z.of_nat (length fr) = 1536)
                         (paddedChunks (Z.to_nat 1536) processed)).
  { apply (Forall_length_Z (Z.to_nat 1536)), paddedChunks_lengths. }
  destruct (processFrames_answers_with_state run 1536 _ Hrun Hlens vad1 []
              eq_refl Hh Hfs) as (vadResults & vad2 & Hpf).
  assert (Hpa : SileroVAD.processAudio vad1 processed
                = Some (Ok vadResults, vad2)).
  { rewrite (processAudio_as_processFrames vad1 processed Hfs1).
    change (frameSize (SileroVAD.options vad1))
      with (frameSize (SileroVAD.options vad)).
    rewrite Hfs. f_equal. exact Hpf. }
  rewrite Hpa.
  destruct (processAudio_numbers_from_zero vad1 vad2 processed vadResults)
    as (Hw & Ho & Hcount); [cbn; rewrite Hst; reflexivity|exact Hfs1|exact Hpa|].
  change (SileroVAD.options vad1) with (SileroVAD.options vad) in Ho.
  destruct (scanLoopWith_keptRuns minus (SileroVAD.options vad2) vadResults
              processed vadResults
              (wellIndexed_speechFramesInRange vadResults Hw) scan0)
    as (sc & Hscan & Hsegs); [constructor|exact scan0_closed|].
  unfold extractSpeechSegmentsWith. rewrite Hscan.
  eexists. eexists. split; [reflexivity|]. cbn.
  split; [reflexivity|]. split; [exact Hsame|].
  split; [|split; [exact Hw|split; [exact Hcount|rewrite <- Ho; exact Hsegs]]].
  apply processFrames_ok_length in Hpf. rewrite Hpf. cbn [length Nat.add].
  unfold paddedChunks. rewrite length_map, length_seq.
  rewrite (ceilDiv_Z (length processed) (Z.to_nat 1536)) by lia.
  reflexivity.
Qed.

(** A file of 9216 samples at 16 kHz for an 8 kHz session, with a backend
    that returns a recurrent state and answers 0.9 twice, then 0.1: 4608
    samples after resampling, three decisions, and one segment, closed by
    the third decision. *)
Lemma processWavFile_returns_witness :
  exists (out : AVRVad.Output) (final : SileroVAD.t),
    AVRVad.processWavFile Qminus (Some SampleWav.backend)
      (AVRVad.Resolved SampleWav.samples 16000) (Some SampleWav.options)
    = AVRVad.Settled (Ok out) (Some final)
    /\ SileroVAD.session final = None
    /\ length (AVRVad.audioData out) = 4608%nat
    /\ length (AVRVad.results out) = 3%nat
    /\ length (AVRVad.segments out) = 1%nat
    /\ SileroVAD.h final = repeat 0.5%Q 256.
Proof.
  destruct (processWavFile_returns Qminus SampleWav.backend
              SampleWav.samples 16000%Q (Some SampleWav.options)
              SampleWav.built)
    as (out & final & H & Hs & _).
  - reflexivity.
  - intros k input st sr. eexists. split; [reflexivity|].
    exact (Nat.le_refl 256).
  - reflexivity.
  - exists out, final. split; [exact H|]. split; [exact Hs|].
    assert (E : AVRVad.processWavFile Qminus (Some SampleWav.backend)
                  (AVRVad.Resolved SampleWav.samples 16000)
                  (Some SampleWav.options) = SampleWav.outcome)
      by (vm_compute; reflexivity).
    rewrite E in H. unfold SampleWav.outcome in H. injection H as <- <-.
    repeat split; vm_compute; reflexivity.
Defined.

(** X29.  Whenever [processWavFile] settles, the object it built holds no session
    afterwards: the [finally] has disposed it, or it was never initialized;
    when the model cannot be loaded the call throws the initialization
    error, whatever the file, and when the model is loaded and
    [loadWavFile] rejects, it throws the file's error unchanged.  The call
    stays pending only when [loadWavFile] never settles; then the [finally]
    is never reached and the object keeps the session that [initialize()]
    created. *)
Theorem processWavFile_leaves_no_session
    (minus : Q -> Q -> Q) (loaded : option InferenceSession)
    (wav : AVRVad.Loading) (options : option VADOptions) (vad : SileroVAD.t) :
  SileroVAD.constructor (orDefault options AVRVad.emptyOptions) = Ok vad ->
  (forall (r : result AVRVad.Output) (final : option SileroVAD.t),
      AVRVad.processWavFile minus loaded wav options = AVRVad.Settled r final ->
      (exists v : SileroVAD.t, final = Some v /\ SileroVAD.session v = None)
      /\ (loaded = None -> r = Throw InitializeError)
      /\ (forall e : error,
             loaded <> None -> wav = AVRVad.Rejected e -> r = Throw e))
  /\ (forall final : option SileroVAD.t,
         AVRVad.processWavFile minus loaded wav options = AVRVad.Pending final ->
         wav = AVRVad.NeverSettles
         /\ exists (run : InferenceSession) (v : SileroVAD.t),
              loaded = Some run /\ final = Some v
              /\ SileroVAD.session v = Some run)
  /\ (forall run : InferenceSession,
         loaded = Some run -> wav = AVRVad.NeverSettles ->
         exists v : SileroVAD.t,
           AVRVad.processWavFile minus loaded wav options
           = AVRVad.Pending (Some v)
           /\ SileroVAD.session v = Some run
           /\ SileroVAD.getState v = initialState).
Proof.
  intro Hc.
  destruct (constructor_inv _ _ Hc) as (Hs0 & Hst & Hfs & _).
  unfold AVRVad.processWavFile. rewrite Hc.
  destruct loaded as [run|]; cbn [SileroVAD.initialize].
  - set (vad1 := {| SileroVAD.session := Some run;
                    SileroVAD.options := SileroVAD.options vad;
                    SileroVAD.state := SileroVAD.state vad;
                    SileroVAD.h := SileroVAD.h vad;
                    SileroVAD.c := SileroVAD.c vad;
                    SileroVAD.runs := 0;
                    SileroVAD.console :=
                      SileroVAD.console vad ++ [LogModelLoaded] |}).
    assert (Hfs1 : 0 < frameSize (SileroVAD.options vad1)) by (cbn; lia).
    destruct wav as [samples rate|e1|]; cbv zeta.
    + destruct (if negb _ then _ else _) as [processed|e2].
      * rewrite (processAudio_as_processFrames vad1 processed Hfs1).
        destruct (processFrames _ _ _ _) as [[vadResults|e3] vad2].
        -- destruct (extractSpeechSegmentsWith _ _ _ _) as [segs|e4];
             (split; [|split]; [|discriminate|discriminate]);
             intros r final H; injection H as <- <-;
             (split; [eexists; split; reflexivity|]);
             (split; [discriminate|intros e _ He; discriminate]).
        -- (split; [|split]; [|discriminate|discriminate]).
           intros r final H. injection H as <- <-.
           split; [eexists; split; reflexivity|].
           split; [discriminate|intros e _ He; discriminate].
      * (split; [|split]; [|discriminate|discriminate]).
        intros r final H. injection H as <- <-.
        split; [eexists; split; reflexivity|].
        split; [discriminate|intros e _ He; discriminate].
    + (split; [|split]; [|discriminate|discriminate]).
      intros r final H. injection H as <- <-.
      split; [eexists; split; reflexivity|].
      split; [discriminate|intros e _ He; congruence].
    + split; [discriminate|]. split.
      * intros final H. injection H as <-. split; [reflexivity|].
        exists run, vad1. auto.
      * intros run' Hrun' _. injection Hrun' as <-.
        exists vad1. split; [reflexivity|]. split; [reflexivity|exact Hst].
  - split; [|split; discriminate].
    intros r final H. injection H as <- <-.
    split; [exists vad; split; [reflexivity|exact Hs0]|].
    split; [reflexivity|]. intros e Hne. congruence.
Qed.

(** With a model that loads: a file that is rejected leaves the object
    disposed; a file whose loading never settles leaves the call pending and
    the session in place. *)
Lemma processWavFile_leaves_no_session_witness :
  (exists final : SileroVAD.t,
      AVRVad.processWavFile Qminus (Some (Sample.constantBackend 0.9))
                            (AVRVad.Rejected TypeError) None
      = AVRVad.Settled (Throw TypeError) (Some final)
      /\ SileroVAD.session final = None)
  /\ (exists v : SileroVAD.t,
         AVRVad.processWavFile Qminus (Some (Sample.constantBackend 0.9))
                               AVRVad.NeverSettles None
         = AVRVad.Pending (Some v)
         /\ SileroVAD.session v = Some (Sample.constantBackend 0.9)).
Proof.
  split.
  - destruct (processWavFile_leaves_no_session Qminus
                (Some (Sample.constantBackend 0.9)) (AVRVad.Rejected TypeError)
                None SampleSession.fresh eq_refl) as (H & _).
    destruct (H _ _ eq_refl) as ((v & Hv & Hs) & _).
    exists v. split; [|exact Hs]. injection Hv as <-. reflexivity.
  - destruct (processWavFile_leaves_no_session Qminus
                (Some (Sample.constantBackend 0.9)) AVRVad.NeverSettles
                None SampleSession.fresh eq_refl) as (_ & _ & H).
    destruct (H _ eq_refl eq_refl) as (v & Hv & Hs & _).
    exists v. split; [exact Hv|exact Hs].
Defined.

(** ** AudioUtils.bufferToFloat32Array *)

Lemma monoMix_length (samples : list Q) :
  forall n : nat,
    (length samples <= n)%nat ->
    length (AudioUtils.monoMix samples) = (length samples / 2)%nat.
Proof.
  intro n. revert samples.
  induction n as [|n IH]; intros samples Hn.
  - destruct samples; [reflexivity|cbn in Hn; lia].
  - destruct samples as [|a [|b rest]]; try reflexivity.
    cbn [AudioUtils.monoMix length]. rewrite IH by (cbn in Hn; lia).
    change (S (S (length rest))) with (2 + length rest)%nat.
    replace (2 + length rest)%nat with (length rest + 1 * 2)%nat by lia.
    rewrite Nat.div_add by lia. lia.
Qed.

Lemma monoMix_bounds (lo hi : Q) (samples : list Q) :
  forall n : nat,
    (length samples <= n)%nat ->
    Forall (fun x => lo <= x < hi)%Q samples ->
    Forall (fun x => lo <= x < hi)%Q (AudioUtils.monoMix samples).
Proof.
  intro n. revert samples.
  induction n as [|n IH]; intros samples Hn Hall.
  - destruct samples; [constructor|cbn in Hn; lia].
  - destruct samples as [|a [|b rest]]; try constructor.
    + inversion Hall as [|? ? Ha Hrest]. inversion Hrest as [|? ? Hb _].
      assert (E : ((a + b) / 2 == (a + b) * (1 # 2))%Q) by (field).
      rewrite E. split; lra.
    + apply IH; [cbn in Hn; lia|].
      inversion Hall as [|? ? _ Hrest]. inversion Hrest. assumption.
Qed.

(** X30.  16-bit samples, i.e. integers from -32768 to 32767: every sample of the
    result lies in [-1, 1); one channel keeps one sample per integer, each
    32768 times smaller; two channels give [floor(n / 2)] samples. *)
Theorem bufferToFloat32Array_16_bit (ints : list Z) (channels : Z) :
  Forall (fun n => -32768 <= n <= 32767) ints ->
  exists samples : list Q,
    AudioUtils.bufferToFloat32Array ints 16 channels = inr samples
    /\ Forall (fun x => -1 <= x < 1)%Q samples
    /\ (channels <> 2 ->
        samples = map (fun n => inject_Z n / 32768)%Q ints)
    /\ (channels = 2 -> length samples = (length ints / 2)%nat).
Proof.
  intro Hrange. unfold AudioUtils.bufferToFloat32Array. cbn [Z.eqb Pos.eqb].
  cbv zeta.
  assert (Hn : Forall (fun x => -1 <= x < 1)%Q
                      (map (fun n => inject_Z n / 32768)%Q ints)).
  { apply Forall_map. eapply Forall_impl; [|exact Hrange].
    intros n (Hlo & Hhi). cbn beta.
    assert (E : (inject_Z n / 32768 == inject_Z n * (1 # 32768))%Q) by field.
    rewrite E.
    assert (H1 : (inject_Z (-32768) <= inject_Z n)%Q) by (rewrite <- Zle_Qle; lia).
    assert (H2 : (inject_Z n <= inject_Z 32767)%Q) by (rewrite <- Zle_Qle; lia).
    change (inject_Z (-32768)) with (-32768)%Q in H1.
    change (inject_Z 32767) with 32767%Q in H2.
    split; lra. }
  destruct (channels =? 2) eqn:E.
  - eexists. split; [reflexivity|]. split; [|split].
    + eapply monoMix_bounds; [apply Nat.le_refl|exact Hn].
    + intro Hne. apply Z.eqb_eq in E. contradiction.
    + intros _. rewrite (monoMix_length _ _ (Nat.le_refl _)), length_map.
      reflexivity.
  - eexists. split; [reflexivity|]. split; [exact Hn|]. split.
    + intros _. reflexivity.
    + intro Heq. apply Z.eqb_neq in E. contradiction.
Qed.

Lemma bufferToFloat32Array_16_bit_witness :
  AudioUtils.bufferToFloat32Array [-32768; 32767; 16384; 0] 16 2
  = inr [((-32768 / 32768 + 32767 / 32768) / 2)%Q;
         ((16384 / 32768 + 0 / 32768) / 2)%Q].
Proof.
  destruct (bufferToFloat32Array_16_bit [-32768; 32767; 16384; 0] 2)
    as (samples & H & _).
  - repeat constructor; lia.
  - rewrite H. injection H as <-. reflexivity.
Defined.
